(** * A shallow embedding of the scraping pipeline orchestrator

    Two source files are embedded:
    - [app/api/progress/route.ts]: the process-wide map [progressStreams]
      from session ids to stream controllers, the [GET] handler that
      registers a stream, [sendProgressUpdate] and
      [cleanupProgressStream];
    - [app/api/scrape/route.ts]: the class [ScrapingOrchestrator]
      ([updateProgress], [runPythonScript], [runWorkflow]) and the [POST]
      handler that validates a request and starts a workflow.

    Modelling decisions.
    - JavaScript strings are Rocq strings; a character is a code unit in
      the Latin-1 range, which fixes what [\s], [trim] and [toLowerCase]
      do on it.
    - The code runs on one event loop.  Other turns of the loop (a client
      connecting or disconnecting, a timer firing, output of the child
      process) can only run while the workflow awaits a child process, so
      the behaviour of each child process is given as the list of loop
      events that happen until the promise of [runPythonScript] settles.
    - Exceptions and promise rejections are one error outcome; a promise
      that never settles is a third outcome, [Stuck].
    - The chunk [data: ${JSON.stringify(update)}\n\n] written to a stream
      is represented by the update it serialises.
    - Console output is write-only and is left out.
    - Calls that leave the process (a publish to the hub, a spawn, a
      [mkdirSync], the creation of an orchestrator) are also written to a
      log, which the code cannot read back.
    - The child processes are scripted in the order they are spawned: the
      first spawn gets the first behaviour, and so on.  A behaviour is
      what the platform makes of the call of [spawn]: the call throws (an
      argument that holds a NUL character, no descriptor left for the
      pipes), or the shell cannot be started, or the shell runs the
      command line and closes with a code.  The code does not decide
      which of these happens, so it is part of the behaviour.
    - The body of a request is given as parsed: four fields, each a
      string or absent, or nothing when it cannot be parsed.  Bodies with
      fields of other types are outside the model.
    - Of the file system the model holds the set of folders that
      [existsSync] finds, and whether [mkdirSync] fails.  The ancestors
      that [recursive: true] creates on the way are not recorded.

    The file has the model first, then the notions the statements use,
    then the lemmas, the claims of the specification, and further
    properties of the two routes.  The page component [Home] is a React
    view and is not embedded. *)

From Stdlib Require Import ZArith Ascii String List Bool Lia.
From stdpp Require Import base decidable option list strings gmap pretty sorting.

Local Open Scope Z_scope.
Local Open Scope string_scope.
Local Open Scope list_scope.

(** ** Strings as JavaScript sees them *)

Module JsString.

Definition code (c : ascii) : N := N_of_ascii c.

(** The class [\s], which is also what [trim] removes. *)
Definition isWhiteSpace (c : ascii) : bool :=
  let n := code c in
  ((9 <=? n) && (n <=? 13) || (n =? 32) || (n =? 160))%N.

Definition lowerChar (c : ascii) : ascii :=
  let n := code c in
  if ((65 <=? n) && (n <=? 90)
      || (192 <=? n) && (n <=? 222) && negb (n =? 215))%N
  then ascii_of_N (n + 32) else c.

Fixpoint toLowerCase (s : string) : string :=
  match s with
  | EmptyString => EmptyString
  | String c s' => String (lowerChar c) (toLowerCase s')
  end.

Fixpoint trimStart (s : string) : string :=
  match s with
  | EmptyString => EmptyString
  | String c s' => if isWhiteSpace c then trimStart s' else s
  end.

Fixpoint trimEnd (s : string) : string :=
  match s with
  | EmptyString => EmptyString
  | String c s' =>
      match trimEnd s' with
      | EmptyString => if isWhiteSpace c then EmptyString else String c EmptyString
      | t => String c t
      end
  end.

Definition trim (s : string) : string := trimEnd (trimStart s).

(** The one-character string holding a double quote. *)
Definition dquote : string := String (ascii_of_N 34) EmptyString.

(** [s.substr(start, length)] *)
Definition substr (start len : nat) (s : string) : string :=
  String.substring start len s.

(** The truthiness of a string: [!s] holds of the empty string only. *)
Definition truthy (s : string) : bool := negb (String.eqb s EmptyString).

End JsString.

(** ** Regular expressions, enough for the literal used by [POST] *)

Module RegExp.

Inductive regex : Type :=
| Never
| Eps
| Class (p : ascii -> bool)
| Seq (r1 r2 : regex)
| Alt (r1 r2 : regex)
| Star (r : regex).

Definition Plus (r : regex) : regex := Seq r (Star r).
Definition Chr (c : ascii) : regex := Class (Ascii.eqb c).

Fixpoint nullable (r : regex) : bool :=
  match r with
  | Never => false
  | Eps => true
  | Class _ => false
  | Seq r1 r2 => nullable r1 && nullable r2
  | Alt r1 r2 => nullable r1 || nullable r2
  | Star _ => true
  end.

Fixpoint deriv (c : ascii) (r : regex) : regex :=
  match r with
  | Never => Never
  | Eps => Never
  | Class p => if p c then Eps else Never
  | Seq r1 r2 =>
      if nullable r1 then Alt (Seq (deriv c r1) r2) (deriv c r2)
      else Seq (deriv c r1) r2
  | Alt r1 r2 => Alt (deriv c r1) (deriv c r2)
  | Star r1 => Seq (deriv c r1) (Star r1)
  end.

(** [/^r$/.test(s)]: the whole of [s] is in the language of [r]. *)
Fixpoint test (r : regex) (s : string) : bool :=
  match s with
  | EmptyString => nullable r
  | String c s' => test (deriv c r) s'
  end.

End RegExp.

(** [/^[^\s@]+@[^\s@]+\.[^\s@]+$/] *)
Definition notSpaceAt (c : ascii) : bool :=
  negb (JsString.isWhiteSpace c) && negb (Ascii.eqb c "@").

Definition emailRegex : RegExp.regex :=
  RegExp.Seq (RegExp.Plus (RegExp.Class notSpaceAt))
    (RegExp.Seq (RegExp.Chr "@")
       (RegExp.Seq (RegExp.Plus (RegExp.Class notSpaceAt))
          (RegExp.Seq (RegExp.Chr ".") (RegExp.Plus (RegExp.Class notSpaceAt))))).

(** ** Data shared by the two routes *)

(** [status: "running" | "completed" | "error"] *)
Inductive Status : Type := Running | Completed | Error.

Global Instance Status_eq_dec : EqDecision Status.
Proof. solve_decision. Defined.

(** [interface ProgressUpdate] of the progress route; the scrape route
    declares the same shape under the name [ScrapingProgress]. *)
Record ProgressUpdate : Type := mkUpdate {
  step : Z;
  total : Z;
  message : string;
  status : Status;
  details : option string
}.

Global Instance ProgressUpdate_eq_dec : EqDecision ProgressUpdate.
Proof. solve_decision. Defined.

Definition ScrapingProgress : Type := ProgressUpdate.

(** [update.status === "completed" || update.status === "error"] *)
Definition isTerminal (u : ProgressUpdate) : bool :=
  match status u with
  | Running => false
  | Completed | Error => true
  end.

(** A thrown value.  Everything the two routes throw or reject with is an
    [Error] object (or a [TypeError] of the platform), of which the code
    reads [message] only. *)
Inductive Thrown : Type := JsError (msg : string).

Definition error_message (e : Thrown) : string :=
  match e with JsError m => m end.

(** ** The event loop around a child process *)

Inductive LoopEvent : Type :=
| StdoutData (data : string)          (* pythonProcess.stdout 'data' *)
| StderrData (data : string)          (* pythonProcess.stderr 'data' *)
| ClientConnect (sessionId : option string)   (* a GET on the progress route *)
| ClientCancel (ref : nat)            (* the reader of stream [ref] goes away *)
| TimerFires.                         (* the oldest pending timeout runs *)

Inductive Ending : Type :=
| Exited (code : option Z)            (* 'close', with the exit code or null *)
| SpawnFailed (msg : string)          (* 'error' *)
| SpawnThrows (msg : string)          (* the executor of the promise throws *)
| NeverSettles.                       (* the process hangs *)

Record Behaviour : Type := mkBehaviour {
  events : list LoopEvent;
  ending : Ending
}.

(** ** What leaves the process *)

(** The log of a computation: the calls of [sendProgressUpdate], of
    [spawn] (with the value of [currentStep] at the call, the stage), of
    [mkdirSync] and of the constructor of [ScrapingOrchestrator], in the
    order they happen. *)
Inductive Action : Type :=
| ActPublish (sessionId : string) (update : ProgressUpdate)
| ActSpawn (stage : Z) (command : string) (args : list string)
| ActMkdir (dir : string) (recursive : bool)
| ActNewOrchestrator (sessionId : string).

(** ** Process state *)

(** A [ReadableStream] with its controller: what was enqueued, and whether
    the stream is closed (by [close()] or by its reader going away). *)
Record Stream : Type := mkStream {
  stream_sessionId : string;
  queue : list ProgressUpdate;
  closed : bool
}.

(** The closure passed to [setTimeout] by [sendProgressUpdate]: it holds
    the entry [stream] read from the map and the session id. *)
Record Timer : Type := mkTimer {
  timer_stream : nat;
  timer_sessionId : string
}.

(** What the platform answers. *)
Record Node : Type := mkNode {
  path_resolve : string -> string;
  path_join : list string -> string;
  process_cwd : string;
  mkdir_error : string -> bool -> option string;
  date_now : Z;
  math_random_base36 : string
}.

Record World : Type := mkWorld {
  progressStreams : gmap string nat;   (* session id |-> stream reference *)
  streams : list Stream;               (* the streams ever created *)
  timers : list Timer;                 (* pending timeouts, oldest first *)
  uncaught : list Thrown;              (* exceptions no handler caught *)
  dirs : gset string;                  (* the directories that exist *)
  tasks : list Behaviour;              (* child processes still to come *)
  node : Node
}.

Definition with_progressStreams (f : gmap string nat -> gmap string nat) (w : World) : World :=
  mkWorld (f (progressStreams w)) (streams w) (timers w) (uncaught w) (dirs w) (tasks w) (node w).
Definition with_streams (f : list Stream -> list Stream) (w : World) : World :=
  mkWorld (progressStreams w) (f (streams w)) (timers w) (uncaught w) (dirs w) (tasks w) (node w).
Definition with_timers (f : list Timer -> list Timer) (w : World) : World :=
  mkWorld (progressStreams w) (streams w) (f (timers w)) (uncaught w) (dirs w) (tasks w) (node w).
Definition with_uncaught (f : list Thrown -> list Thrown) (w : World) : World :=
  mkWorld (progressStreams w) (streams w) (timers w) (f (uncaught w)) (dirs w) (tasks w) (node w).
Definition with_dirs (f : gset string -> gset string) (w : World) : World :=
  mkWorld (progressStreams w) (streams w) (timers w) (uncaught w) (f (dirs w)) (tasks w) (node w).
Definition with_tasks (f : list Behaviour -> list Behaviour) (w : World) : World :=
  mkWorld (progressStreams w) (streams w) (timers w) (uncaught w) (dirs w) (f (tasks w)) (node w).

(** ** A monad for state, exceptions and the log *)

Inductive Res (A : Type) : Type :=
| Ok (a : A)
| Threw (e : Thrown)
| Stuck.
Arguments Ok {A} a.
Arguments Threw {A} e.
Arguments Stuck {A}.

#[projections(primitive)]
Record Out (S A : Type) : Type := mkOut {
  result : Res A;
  state : S;
  log : list Action
}.
Arguments mkOut {S A} result state log.
Arguments result {S A} o.
Arguments state {S A} o.
Arguments log {S A} o.

Definition M (S A : Type) : Type := S -> Out S A.

Definition ret {S A} (a : A) : M S A := fun s => mkOut (Ok a) s [].

Definition bind {S A B} (m : M S A) (f : A -> M S B) : M S B :=
  fun s =>
    let o := m s in
    match result o with
    | Ok a => let o' := f a (state o) in mkOut (result o') (state o') (log o ++ log o')
    | Threw e => mkOut (Threw e) (state o) (log o)
    | Stuck => mkOut Stuck (state o) (log o)
    end.

Definition throw {S A} (e : Thrown) : M S A := fun s => mkOut (Threw e) s [].

Definition stuck {S A} : M S A := fun s => mkOut Stuck s [].

(** [try { m } catch (e) { h e }], and [promise.catch(h)] *)
Definition try_catch {S A} (m : M S A) (h : Thrown -> M S A) : M S A :=
  fun s =>
    let o := m s in
    match result o with
    | Threw e => let o' := h e (state o) in mkOut (result o') (state o') (log o ++ log o')
    | _ => o
    end.

Definition gets {S A} (f : S -> A) : M S A := fun s => mkOut (Ok (f s)) s [].
Definition modify {S} (f : S -> S) : M S unit := fun s => mkOut (Ok tt) (f s) [].
Definition tell {S} (a : Action) : M S unit := fun s => mkOut (Ok tt) s [a].

(** A promise nobody awaits: the caller goes on whatever becomes of it. *)
Definition detach {S A} (m : M S A) : M S unit :=
  fun s => let o := m s in mkOut (Ok tt) (state o) (log o).

Declare Scope js_scope.
Delimit Scope js_scope with js.
Notation "x <- c1 ;; c2" := (bind c1 (fun x => c2))
  (at level 100, c1 at next level, c2 at level 200, right associativity) : js_scope.
Notation "c1 ;; c2" := (bind c1 (fun _ => c2))
  (at level 100, c2 at level 200, right associativity) : js_scope.
Local Open Scope js_scope.

(** ** HTTP responses of the two routes *)

Inductive ResponseBody : Type :=
| JsonError (error : string)                       (* { error } *)
| JsonStarted (sessionId : string) (msg : string)  (* { success: true, sessionId, message } *)
| EventStream (ref : nat).                         (* the body is stream [ref] *)

Record Response : Type := mkResponse {
  http_status : Z;
  response_body : ResponseBody
}.

(** ** [app/api/progress/route.ts] *)

Module Progress.

Definition already_closed : Thrown :=
  JsError "Invalid state: Controller is already closed".

(** [controller.enqueue(chunk)]: a [TypeError] once the stream is closed. *)
Definition controller_enqueue (ref : nat) (chunk : ProgressUpdate) : M World unit :=
  s <- gets (fun w => streams w !! ref) ;;
  match s with
  | Some s =>
      if closed s then throw already_closed
      else modify (with_streams
                     (<[ref := mkStream (stream_sessionId s) (queue s ++ [chunk]) false]>))
  | None => throw already_closed
  end.

(** [controller.close()]: a [TypeError] when the stream is closed already. *)
Definition controller_close (ref : nat) : M World unit :=
  s <- gets (fun w => streams w !! ref) ;;
  match s with
  | Some s =>
      if closed s then throw already_closed
      else modify (with_streams
                     (<[ref := mkStream (stream_sessionId s) (queue s) true]>))
  | None => throw already_closed
  end.

(** The first chunk of every stream. *)
Definition connected : ProgressUpdate :=
  mkUpdate 0 6 "Connected to progress stream" Running None.

(** [export async function GET(request)], on the query parameter
    [sessionId] of the request. *)
Definition GET (sessionId : option string) : M World Response :=
  match sessionId with
  | None => ret (mkResponse 400 (JsonError "Session ID required"))
  | Some sid =>
      if negb (JsString.truthy sid)
      then ret (mkResponse 400 (JsonError "Session ID required"))
      else
        ref <- gets (fun w => length (streams w)) ;;
        modify (with_streams (fun l => l ++ [mkStream sid [] false])) ;;
        (* start(controller) *)
        modify (with_progressStreams (<[sid := ref]>)) ;;
        controller_enqueue ref connected ;;
        ret (mkResponse 200 (EventStream ref))
  end.

(** [cancel()] of the stream [ref], run when its reader goes away; a
    stream that is closed already is not cancelled again (a reader that
    leaves chunks unread after [close()] is not modelled). *)
Definition stream_cancel (ref : nat) : M World unit :=
  s <- gets (fun w => streams w !! ref) ;;
  match s with
  | Some s =>
      if closed s then ret tt
      else
        modify (with_progressStreams (delete (stream_sessionId s))) ;;
        modify (with_streams
                  (<[ref := mkStream (stream_sessionId s) (queue s) true]>))
  | None => ret tt
  end.

(** [setTimeout(() => {...}, 1000)]: all timeouts have the same delay,
    so they run in the order they were set. *)
Definition setTimeout (t : Timer) : M World unit :=
  modify (with_timers (fun l => l ++ [t])).

(** [() => { stream.controller.close(); progressStreams.delete(sessionId); }] *)
Definition timeout_callback (t : Timer) : M World unit :=
  controller_close (timer_stream t) ;;
  modify (with_progressStreams (delete (timer_sessionId t))).

(** The loop runs the oldest pending timeout; what it throws is caught
    by nobody. *)
Definition fireTimer : M World unit :=
  ts <- gets timers ;;
  match ts with
  | [] => ret tt
  | t :: rest =>
      modify (with_timers (fun _ => rest)) ;;
      try_catch (timeout_callback t)
        (fun e => modify (with_uncaught (fun l => l ++ [e])))
  end.

(** [export function sendProgressUpdate(sessionId, update)] *)
Definition sendProgressUpdate (sessionId : string) (update : ProgressUpdate) : M World unit :=
  tell (ActPublish sessionId update) ;;
  stream <- gets (fun w => progressStreams w !! sessionId) ;;
  match stream with
  | Some ref =>
      try_catch
        (controller_enqueue ref update ;;
         if isTerminal update
         then setTimeout (mkTimer ref sessionId)
         else ret tt)
        (fun error => modify (with_progressStreams (delete sessionId)))
  | None => ret tt
  end.

(** [export function cleanupProgressStream(sessionId)] *)
Definition cleanupProgressStream (sessionId : string) : M World unit :=
  stream <- gets (fun w => progressStreams w !! sessionId) ;;
  match stream with
  | Some ref =>
      try_catch (controller_close ref) (fun error => ret tt) ;;
      modify (with_progressStreams (delete sessionId))
  | None => ret tt
  end.

End Progress.

(** ** [app/api/scrape/route.ts] *)

Module Scrape.

Import Progress.

(** [interface ScrapingRequest] *)
Record ScrapingRequest : Type := mkRequest {
  scrapeSite : string;
  productName : string;
  outputFolder : string;
  recipientEmail : string
}.

(** What [request.json()] yields before any check: each property is a
    string or is absent. *)
Record JsonBody : Type := mkBody {
  body_scrapeSite : option string;
  body_productName : option string;
  body_outputFolder : option string;
  body_recipientEmail : option string
}.

(** [!v] for a property that is a string or absent. *)
Definition falsy (v : option string) : bool :=
  match v with
  | None => true
  | Some s => negb (JsString.truthy s)
  end.

(** [v || the empty string] *)
Definition orEmpty (v : option string) : string :=
  match v with
  | None => EmptyString
  | Some s => if JsString.truthy s then s else EmptyString
  end.

(** [class ScrapingOrchestrator] *)
Record ScrapingOrchestrator : Type := mkOrchestrator {
  sessionId : string;
  currentStep : Z;
  totalSteps : Z
}.

(** [constructor(sessionId)], with the field initialisers. *)
Definition new_ScrapingOrchestrator (sid : string) : ScrapingOrchestrator :=
  mkOrchestrator sid 0 6.

(** The methods run on [this] and the process state. *)
Definition OState : Type := ScrapingOrchestrator * World.

Definition liftW {A} (m : M World A) : M OState A :=
  fun s =>
    let o := m (snd s) in
    mkOut (result o) (fst s, state o) (log o).

(** Run a method on a given object, inside the process. *)
Definition withThis {A} (this : ScrapingOrchestrator) (m : M OState A) : M World A :=
  fun w =>
    let o := m (this, w) in
    mkOut (result o) (snd (state o)) (log o).

(** [this.currentStep = k] *)
Definition setCurrentStep (k : Z) : M OState unit :=
  modify (fun s : OState =>
            (mkOrchestrator (sessionId (fst s)) k (totalSteps (fst s)), snd s)).

(** [private updateProgress(message, status = "running", details?)] *)
Definition updateProgress (message : string) (status : Status)
    (details : option string) : M OState unit :=
  this <- gets fst ;;
  let progress : ScrapingProgress :=
    mkUpdate (currentStep this) (totalSteps this) message status details in
  liftW (sendProgressUpdate (sessionId this) progress).

(** The child process just spawned behaves as the next scripted
    behaviour; when none is scripted it stays silent for ever. *)
Definition nextProcess : M OState Behaviour :=
  ts <- gets (fun s : OState => tasks (snd s)) ;;
  match ts with
  | [] => stuck
  | b :: rest => modify (fun s : OState => (fst s, with_tasks (fun _ => rest) (snd s))) ;; ret b
  end.

(** The loop turns that run while the promise is pending: the two
    [on("data")] handlers of [runPythonScript], and what the progress
    route does for its clients in the meantime. *)
Fixpoint whilePending (scriptName : string) (evs : list LoopEvent)
    (stdout stderr : string) : M OState (string * string) :=
  match evs with
  | [] => ret (stdout, stderr)
  | StdoutData output :: evs' =>
      updateProgress ("Running " +:+ scriptName +:+ "...") Running
        (Some (JsString.trim output)) ;;
      whilePending scriptName evs' (stdout +:+ output) stderr
  | StderrData data :: evs' =>
      whilePending scriptName evs' stdout (stderr +:+ data)
  | ClientConnect sid :: evs' =>
      liftW (GET sid) ;; whilePending scriptName evs' stdout stderr
  | ClientCancel ref :: evs' =>
      liftW (stream_cancel ref) ;; whilePending scriptName evs' stdout stderr
  | TimerFires :: evs' =>
      liftW fireTimer ;; whilePending scriptName evs' stdout stderr
  end.

(** [`${code}`] for [code: number | null] *)
Definition show_code (code : option Z) : string :=
  match code with
  | Some z => pretty z
  | None => "null"
  end.

Definition exit_failure (scriptName : string) (code : option Z) (stderr : string) : Thrown :=
  JsError ("Script " +:+ scriptName +:+ " failed with code " +:+ show_code code
           +:+ ". Error: " +:+ stderr).

Definition spawn_failure (scriptName : string) (msg : string) : Thrown :=
  JsError ("Failed to start script " +:+ scriptName +:+ ": " +:+ msg).

(** [private runPythonScript(scriptName, args = []): Promise<string>],
    awaited.  When the executor of the promise throws - the call of
    [spawn] throws, or it gives a child without pipes - the promise
    rejects with what was thrown. *)
Definition runPythonScript (scriptName : string) (args : list string) : M OState string :=
  this <- gets fst ;;
  nd <- gets (fun s : OState => node (snd s)) ;;
  let scriptPath := path_join nd [process_cwd nd; "scripts"; scriptName] in
  tell (ActSpawn (currentStep this) "python" (scriptPath :: args)) ;;
  b <- nextProcess ;;
  out <- whilePending scriptName (events b) EmptyString EmptyString ;;
  match ending b with
  | Exited code =>
      match code with
      | Some 0 => ret (fst out)
      | _ => throw (exit_failure scriptName code (snd out))
      end
  | SpawnFailed msg => throw (spawn_failure scriptName msg)
  | SpawnThrows msg => throw (JsError msg)
  | NeverSettles => stuck
  end.

(** [async runWorkflow(params: ScrapingRequest): Promise<void>] *)
Definition runWorkflow (params : ScrapingRequest) : M OState unit :=
  try_catch
    ((* Step 1: Product Analysis *)
     setCurrentStep 1 ;;
     updateProgress "Starting product analysis and scraping..." Running None ;;
     let site := JsString.toLowerCase (orEmpty (Some (scrapeSite params))) in
     (if String.eqb site "blinkit"
      then runPythonScript "blinkit.py"
             ["--brand"; productName params; "--out-dir"; outputFolder params; "--images"]
      else runPythonScript "product_analyzer.py"
             [scrapeSite params; productName params; outputFolder params]) ;;
     (* Step 2: Image Scraping *)
     setCurrentStep 2 ;;
     (if String.eqb site "blinkit"
      then updateProgress
             "Blinkit: Product analysis and image scraping completed (steps 1 & 2)"
             Running None
      else
        updateProgress "Scraping product images..." Running None ;;
        runPythonScript "image_scraper.py" [outputFolder params] ;; ret tt) ;;
     (* Step 3: Text Extraction *)
     setCurrentStep 3 ;;
     updateProgress "Extracting text from images using AI..." Running None ;;
     runPythonScript "text_extractor.py" [outputFolder params] ;;
     (* Step 4: QR Code Detection *)
     setCurrentStep 4 ;;
     updateProgress "Detecting QR codes and barcodes..." Running None ;;
     runPythonScript "qr_orchestrator.py" [outputFolder params] ;;
     (* Step 5: Data Merging and Credential Check *)
     setCurrentStep 5 ;;
     updateProgress "Merging data and checking credentials..." Running None ;;
     runPythonScript "credential_check.py" [outputFolder params] ;;
     (* Step 6: Email Report *)
     setCurrentStep 6 ;;
     updateProgress "Sending email report..." Running None ;;
     runPythonScript "exception_reporter.py" [outputFolder params; recipientEmail params] ;;
     updateProgress "All tasks completed successfully!" Completed None)
    (fun error =>
       updateProgress ("Error: " +:+ error_message error) Error None ;;
       throw error).

(** [const supportedSites = ["amazon", "blinkit"] as const] *)
Definition supportedSites : list string := ["amazon"; "blinkit"].

(** [supportedSites.includes(selectedSite)] *)
Definition includes (l : list string) (s : string) : bool :=
  existsb (String.eqb s) l.

(** [fs.existsSync(dir)] *)
Definition fs_existsSync (dir : string) : M World bool :=
  gets (fun w => bool_decide (dir ∈ dirs w)).

(** [fs.mkdirSync(dir, { recursive })]: the platform says whether the
    call fails, and with what message.  Of what the call creates, the
    folder itself is recorded. *)
Definition fs_mkdirSync (dir : string) (recursive : bool) : M World unit :=
  tell (ActMkdir dir recursive) ;;
  nd <- gets node ;;
  match mkdir_error nd dir recursive with
  | Some msg => throw (JsError msg)
  | None => modify (with_dirs (fun d => {[dir]} ∪ d))
  end.

(** [`scrape_${Date.now()}_${Math.random().toString(36).substr(2, 9)}`] *)
Definition newSessionId : M World string :=
  nd <- gets node ;;
  ret ("scrape_" +:+ pretty (date_now nd) +:+ "_"
       +:+ JsString.substr 2 9 (math_random_base36 nd)).

(** The handler of [.catch] on the promise of [runWorkflow]. *)
Definition workflowFailed (sid : string) (error : Thrown) : M World unit :=
  sendProgressUpdate sid
    (mkUpdate 0 6 ("Workflow failed: " +:+ error_message error) Error None).

(** [export async function POST(request)], on what [request.json()]
    gives: [None] when it throws. *)
Definition POST (request_json : option JsonBody) : M World Response :=
  try_catch
    (body <- match request_json with
             | Some b => ret b
             | None => throw (JsError "Unexpected end of JSON input")
             end ;;
     (* Validate required fields *)
     if falsy (body_scrapeSite body) || falsy (body_productName body)
        || falsy (body_outputFolder body) || falsy (body_recipientEmail body)
     then ret (mkResponse 400 (JsonError "Missing required fields"))
     else
       (* Validate email format *)
       if negb (RegExp.test emailRegex (orEmpty (body_recipientEmail body)))
       then ret (mkResponse 400 (JsonError "Invalid email format"))
       else
         (* Supported sites: Amazon, Blinkit *)
         let selectedSite := JsString.toLowerCase (orEmpty (body_scrapeSite body)) in
         if negb (includes supportedSites selectedSite)
         then ret (mkResponse 400 (JsonError "Supported sites are: Amazon, Blinkit"))
         else
           (* Resolve and validate output folder path *)
           nd <- gets node ;;
           let resolvedOutputFolder := path_resolve nd (orEmpty (body_outputFolder body)) in
           (* Create output folder if it doesn't exist *)
           present <- fs_existsSync resolvedOutputFolder ;;
           rejected <-
             (if negb present
              then
                try_catch
                  (fs_mkdirSync resolvedOutputFolder true ;; ret None)
                  (fun error =>
                     ret (Some (mkResponse 400
                                  (JsonError ("Failed to create output folder at "
                                              +:+ JsString.dquote +:+ resolvedOutputFolder
                                              +:+ JsString.dquote +:+ ": "
                                              +:+ error_message error)))))
              else ret None) ;;
           match rejected with
           | Some response => ret response
           | None =>
               (* Generate a unique session ID for progress tracking *)
               sid <- newSessionId ;;
               (* Start the scraping workflow in the background *)
               tell (ActNewOrchestrator sid) ;;
               let orchestrator := new_ScrapingOrchestrator sid in
               (* Update the body with resolved output folder *)
               let updatedBody :=
                 mkRequest (orEmpty (body_scrapeSite body))
                   (orEmpty (body_productName body))
                   resolvedOutputFolder
                   (orEmpty (body_recipientEmail body)) in
               (* Run workflow asynchronously *)
               detach (try_catch (withThis orchestrator (runWorkflow updatedBody))
                         (workflowFailed sid)) ;;
               ret (mkResponse 200
                      (JsonStarted sid
                         "Scraping workflow started successfully. You will receive an email when complete."))
           end)
    (fun error => ret (mkResponse 500 (JsonError "Internal server error"))).

End Scrape.

Import Progress Scrape.

(** * Notions used in the statements and proofs *)

(** ** Sample platforms, worlds and requests *)

Definition sample_node (mkdir : string -> bool -> option string) : Node :=
  mkNode (fun p => p) (String.concat "/") "/app" mkdir
    1700000000000 "0.k3j4h5g6f7d".

Definition sample_world (mkdir : string -> bool -> option string)
    (folders : list string) (ts : list Behaviour) : World :=
  mkWorld ∅ [] [] [] (list_to_set folders) ts (sample_node mkdir).

Definition mkdir_works : string -> bool -> option string := fun _ _ => None.
Definition mkdir_denied : string -> bool -> option string :=
  fun _ _ => Some "EACCES: permission denied".

Definition sample_body (site : string) : JsonBody :=
  mkBody (Some site) (Some "soap") (Some "/out") (Some "qa@example.com").

Definition sample_sid : string := "scrape_1700000000000_k3j4h5g6f".

Definition exits (code : Z) : Behaviour := mkBehaviour [] (Exited (Some code)).

(** ** Reading the log *)

Definition published (l : list Action) : list ProgressUpdate :=
  omap (fun a => match a with ActPublish _ u => Some u | _ => None end) l.

Definition spawned (l : list Action) : list (Z * list string) :=
  omap (fun a => match a with ActSpawn k _ args => Some (k, args) | _ => None end) l.

Definition orchestrators (l : list Action) : list string :=
  omap (fun a => match a with ActNewOrchestrator sid => Some sid | _ => None end) l.

Definition prepend {S A} (l : list Action) (o : Out S A) : Out S A :=
  mkOut (result o) (state o) (l ++ log o).

(** ** The progress route, as functions of the state *)

(** The state after [sendProgressUpdate sid u]. *)
Definition delivered (sid : string) (u : ProgressUpdate) (w : World) : World :=
  match progressStreams w !! sid with
  | None => w
  | Some ref =>
      match streams w !! ref with
      | Some s =>
          if closed s then with_progressStreams (delete sid) w
          else
            let w' := with_streams
                        (<[ref := mkStream (stream_sessionId s) (queue s ++ [u]) false]>) w in
            if isTerminal u then with_timers (fun l => l ++ [mkTimer ref sid]) w' else w'
      | None => with_progressStreams (delete sid) w
      end
  end.

(** The hub never touches the child processes, the platform or the disk. *)
Definition same_outside (w w' : World) : Prop :=
  tasks w' = tasks w /\ node w' = node w /\ dirs w' = dirs w.

(** ** [runPythonScript], as a function of the state *)

(** The updates [runPythonScript] publishes for the output of its child. *)
Fixpoint chunk_updates (o : ScrapingOrchestrator) (scriptName : string)
    (evs : list LoopEvent) : list ProgressUpdate :=
  match evs with
  | [] => []
  | StdoutData output :: evs' =>
      mkUpdate (currentStep o) (totalSteps o) ("Running " +:+ scriptName +:+ "...")
        Running (Some (JsString.trim output))
      :: chunk_updates o scriptName evs'
  | _ :: evs' => chunk_updates o scriptName evs'
  end.

(** The process state after the loop turns [evs]. *)
Fixpoint loop_world (o : ScrapingOrchestrator) (scriptName : string)
    (evs : list LoopEvent) (w : World) : World :=
  match evs with
  | [] => w
  | StdoutData output :: evs' =>
      loop_world o scriptName evs'
        (delivered (sessionId o)
           (mkUpdate (currentStep o) (totalSteps o) ("Running " +:+ scriptName +:+ "...")
              Running (Some (JsString.trim output))) w)
  | StderrData _ :: evs' => loop_world o scriptName evs' w
  | ClientConnect sid :: evs' => loop_world o scriptName evs' (state (GET sid w))
  | ClientCancel ref :: evs' => loop_world o scriptName evs' (state (stream_cancel ref w))
  | TimerFires :: evs' => loop_world o scriptName evs' (state (fireTimer w))
  end.

Fixpoint stdout_from (acc : string) (evs : list LoopEvent) : string :=
  match evs with
  | [] => acc
  | StdoutData d :: evs' => stdout_from (acc +:+ d) evs'
  | _ :: evs' => stdout_from acc evs'
  end.

Fixpoint stderr_from (acc : string) (evs : list LoopEvent) : string :=
  match evs with
  | [] => acc
  | StderrData d :: evs' => stderr_from (acc +:+ d) evs'
  | _ :: evs' => stderr_from acc evs'
  end.

(** How the promise of [runPythonScript] settles, given what the child
    process does. *)
Definition settle (scriptName : string) (b : Behaviour) : Res string :=
  match ending b with
  | Exited code =>
      match code with
      | Some 0 => Ok (stdout_from EmptyString (events b))
      | _ => Threw (exit_failure scriptName code (stderr_from EmptyString (events b)))
      end
  | SpawnFailed msg => Threw (spawn_failure scriptName msg)
  | SpawnThrows msg => Threw (JsError msg)
  | NeverSettles => Stuck
  end.

Definition scriptPath (nd : Node) (scriptName : string) : string :=
  path_join nd [process_cwd nd; "scripts"; scriptName].

Definition spawn_action (o : ScrapingOrchestrator) (w : World)
    (scriptName : string) (args : list string) : Action :=
  ActSpawn (currentStep o) "python" (scriptPath (node w) scriptName :: args).

(** ** [runWorkflow], stage by stage *)

(** One stage of the workflow: the value given to [currentStep], the
    message announced, and the script run, if any. *)
Record Stage : Type := mkStage {
  st_step : Z;
  st_label : string;
  st_task : option (string * list string)
}.

Definition runTask (task : option (string * list string)) (k : M OState unit) : M OState unit :=
  match task with
  | Some (scriptName, args) => runPythonScript scriptName args ;; k
  | None => k
  end.

Fixpoint execPlan (stages : list Stage) : M OState unit :=
  match stages with
  | [] => updateProgress "All tasks completed successfully!" Completed None
  | st :: rest =>
      setCurrentStep (st_step st) ;;
      updateProgress (st_label st) Running None ;;
      runTask (st_task st) (execPlan rest)
  end.

(** The test [site === "blinkit"] of [runWorkflow]. *)
Definition isBlinkit (site : string) : bool :=
  String.eqb (JsString.toLowerCase (orEmpty (Some site))) "blinkit".

Definition common_stages (params : ScrapingRequest) : list Stage :=
  [ mkStage 3 "Extracting text from images using AI..."
      (Some ("text_extractor.py", [outputFolder params]));
    mkStage 4 "Detecting QR codes and barcodes..."
      (Some ("qr_orchestrator.py", [outputFolder params]));
    mkStage 5 "Merging data and checking credentials..."
      (Some ("credential_check.py", [outputFolder params]));
    mkStage 6 "Sending email report..."
      (Some ("exception_reporter.py", [outputFolder params; recipientEmail params])) ].

Definition blinkit_stages (params : ScrapingRequest) : list Stage :=
  [ mkStage 1 "Starting product analysis and scraping..."
      (Some ("blinkit.py",
             ["--brand"; productName params; "--out-dir"; outputFolder params; "--images"]));
    mkStage 2 "Blinkit: Product analysis and image scraping completed (steps 1 & 2)"
      None ].

Definition default_stages (params : ScrapingRequest) : list Stage :=
  [ mkStage 1 "Starting product analysis and scraping..."
      (Some ("product_analyzer.py",
             [scrapeSite params; productName params; outputFolder params]));
    mkStage 2 "Scraping product images..."
      (Some ("image_scraper.py", [outputFolder params])) ].

Definition stages_of (params : ScrapingRequest) : list Stage :=
  (if isBlinkit (scrapeSite params) then blinkit_stages params else default_stages params)
  ++ common_stages params.

(** The [catch] block of [runWorkflow]. *)
Definition rethrow (error : Thrown) : M OState unit :=
  updateProgress ("Error: " +:+ error_message error) Error None ;; throw error.

Definition at_step (o : ScrapingOrchestrator) (k : Z) : ScrapingOrchestrator :=
  mkOrchestrator (sessionId o) k (totalSteps o).

Definition label_update (o : ScrapingOrchestrator) (st : Stage) : ProgressUpdate :=
  mkUpdate (st_step st) (totalSteps o) (st_label st) Running None.

(** ** [POST], case by case *)

(** The three checks [POST] makes on the body itself. *)
Definition fieldsMissing (body : JsonBody) : bool :=
  falsy (body_scrapeSite body) || falsy (body_productName body)
  || falsy (body_outputFolder body) || falsy (body_recipientEmail body).

Definition emailMalformed (body : JsonBody) : bool :=
  negb (RegExp.test emailRegex (orEmpty (body_recipientEmail body))).

Definition siteUnrecognized (body : JsonBody) : bool :=
  negb (includes supportedSites (JsString.toLowerCase (orEmpty (body_scrapeSite body)))).

Definition resolvedFolder (body : JsonBody) (w : World) : string :=
  path_resolve (node w) (orEmpty (body_outputFolder body)).

(** The folder is absent and [mkdirSync] fails, with this message. *)
Definition folderFailure (body : JsonBody) (w : World) : option string :=
  if bool_decide (resolvedFolder body w ∈ dirs w) then None
  else mkdir_error (node w) (resolvedFolder body w) true.

Definition folderMessage (dir msg : string) : string :=
  "Failed to create output folder at " +:+ JsString.dquote +:+ dir
  +:+ JsString.dquote +:+ ": " +:+ msg.

Definition sessionId_of (nd : Node) : string :=
  "scrape_" +:+ pretty (date_now nd) +:+ "_" +:+ JsString.substr 2 9 (math_random_base36 nd).

Definition request_of (body : JsonBody) (w : World) : ScrapingRequest :=
  mkRequest (orEmpty (body_scrapeSite body)) (orEmpty (body_productName body))
    (resolvedFolder body w) (orEmpty (body_recipientEmail body)).

Definition started : string :=
  "Scraping workflow started successfully. You will receive an email when complete.".

(** The promise [POST] leaves running. *)
Definition background (sid : string) (params : ScrapingRequest) : M World unit :=
  detach (try_catch (withThis (new_ScrapingOrchestrator sid) (runWorkflow params))
            (workflowFailed sid)).

(** The folder step of [POST]: the state it leaves and what it logs. *)
Definition folder_world (body : JsonBody) (w : World) : World :=
  if bool_decide (resolvedFolder body w ∈ dirs w) then w
  else with_dirs (fun d => {[resolvedFolder body w]} ∪ d) w.

Definition folder_log (body : JsonBody) (w : World) : list Action :=
  if bool_decide (resolvedFolder body w ∈ dirs w) then []
  else [ActMkdir (resolvedFolder body w) true].

(** ** A run of the stages *)

Definition final_update (o : ScrapingOrchestrator) : ProgressUpdate :=
  mkUpdate (currentStep o) (totalSteps o) "All tasks completed successfully!" Completed None.

(** The object keeps its session id and its total; the platform and the
    disk are not touched. *)
Definition keeps (o : ScrapingOrchestrator) (w : World) (s : OState) : Prop :=
  sessionId (fst s) = sessionId o /\ totalSteps (fst s) = totalSteps o
  /\ node (snd s) = node w /\ dirs (snd s) = dirs w.

Definition after_label (o : ScrapingOrchestrator) (st : Stage) (w : World) : World :=
  delivered (sessionId o) (label_update o st) w.

Definition after_task (o : ScrapingOrchestrator) (st : Stage) (w : World)
    (n : string) (b : Behaviour) (ts : list Behaviour) : World :=
  loop_world (at_step o (st_step st)) n (events b)
    (with_tasks (fun _ => ts) (after_label o st w)).

Definition stage_log (o : ScrapingOrchestrator) (st : Stage) (w : World)
    (n : string) (a : list string) (b : Behaviour) : list Action :=
  ActPublish (sessionId o) (label_update o st)
  :: spawn_action (at_step o (st_step st)) w n a
  :: map (ActPublish (sessionId o)) (chunk_updates (at_step o (st_step st)) n (events b)).

Definition all_running (us : list ProgressUpdate) : Prop :=
  Forall (fun u => status u = Running) us.

Definition first_step (o : ScrapingOrchestrator) (stages : list Stage) : Z :=
  match stages with
  | [] => currentStep o
  | st :: _ => st_step st
  end.

Definition step_between (lo hi : Z) (u : ProgressUpdate) : Prop := lo <= step u <= hi.
Definition stage_between (lo hi : Z) (p : Z * list string) : Prop := lo <= fst p <= hi.

Record steps_ok (lo hi : Z) (l : list Action) : Prop := mkStepsOk {
  steps_range : lo <= hi;
  steps_sorted : StronglySorted Z.le (step <$> published l);
  steps_published : Forall (step_between lo hi) (published l);
  steps_spawned : Forall (stage_between lo hi) (spawned l)
}.

(** The child exits with a code other than 0, or cannot be started, or
    the call of [spawn] throws. *)
Definition fails (b : Behaviour) : bool :=
  match ending b with
  | Exited (Some 0) => false
  | Exited _ => true
  | SpawnFailed _ => true
  | SpawnThrows _ => true
  | NeverSettles => false
  end.

Definition terminates (b : Behaviour) : bool :=
  match ending b with
  | NeverSettles => false
  | _ => true
  end.

Definition task_count (stages : list Stage) : nat :=
  length (filter (fun st => is_Some (st_task st)) stages).

(** ** What a stream receives *)

(** What stream [ref] holds before anything is published: its queue in
    the initial state [w0], or the first chunk if it is created later. *)
Definition base (w0 : World) (ref : nat) : list ProgressUpdate :=
  match streams w0 !! ref with
  | Some s => queue s
  | None => [connected]
  end.

(** [P] is what has been published for [sid] since [w0].  Every stream
    holds its base followed by a run of consecutive updates of [P]: those
    published from the moment it was registered (only [running] ones came
    before) to the moment it was closed or lost its entry (which has not
    happened if it is still the open stream registered for [sid]). *)
Definition tracks (sid : string) (w0 : World) (P : list ProgressUpdate) (w : World) : Prop :=
  (length (streams w0) <= length (streams w))%nat /\
  forall ref s, streams w !! ref = Some s ->
    exists a seg b,
      P = a ++ seg ++ b
      /\ queue s = base w0 ref ++ seg
      /\ all_running a
      /\ (progressStreams w !! sid = Some ref -> closed s = false -> b = []).

(** ** The run inside [POST] *)

(** The update sent by the [catch] block of [runWorkflow]. *)
Definition error_update (o : ScrapingOrchestrator) (e : Thrown) : ProgressUpdate :=
  mkUpdate (currentStep o) (totalSteps o) ("Error: " +:+ error_message e) Error None.

(** The update sent by the handler [POST] attaches to the promise. *)
Definition fallback_update (e : Thrown) : ProgressUpdate :=
  mkUpdate 0 6 ("Workflow failed: " +:+ error_message e) Error None.

Definition the_run (sid : string) (params : ScrapingRequest) (w : World) : Out OState unit :=
  execPlan (stages_of params) (new_ScrapingOrchestrator sid, w).

Definition last_step (o : ScrapingOrchestrator) (stages : list Stage) : Z :=
  foldl (fun _ st => st_step st) (currentStep o) stages.

(** The facts about one run of the workflow, gathered. *)
Record run_facts (sid : string) (w : World) (r : Out OState unit) : Prop := mkRunFacts {
  run_sid : sessionId (fst (state r)) = sid;
  run_total : totalSteps (fst (state r)) = 6;
  run_node : node (snd (state r)) = node w;
  run_dirs : dirs (snd (state r)) = dirs w;
  run_steps : steps_ok 1 (currentStep (fst (state r))) (log r);
  run_step_le : currentStep (fst (state r)) <= 6;
  run_step_ok : forall a, result r = Ok a -> currentStep (fst (state r)) = 6;
  run_totals : Forall (fun u => total u = 6) (published (log r))
}.

(** The world [w] with the streams, the map and the timers of [h]. *)
Definition with_hub_of (h w : World) : World :=
  mkWorld (progressStreams h) (streams h) (timers h) (uncaught h)
    (dirs w) (tasks w) (node w).

(** ** Notions of the claims *)

Definition empty_world : World := sample_world mkdir_works [] [].

Definition mkdirs (l : list Action) : list (string * bool) :=
  omap (fun a => match a with ActMkdir d r => Some (d, r) | _ => None end) l.

(** A publish or a spawn. *)
Definition of_workflow (a : Action) : Prop :=
  match a with
  | ActPublish _ _ | ActSpawn _ _ _ => True
  | _ => False
  end.

(** None of the four reasons to reject applies. *)
Definition accepted (body : JsonBody) (w : World) : bool :=
  negb (fieldsMissing body || emailMalformed body || siteUnrecognized body
        || match folderFailure body w with Some _ => true | None => false end).

(** The run inside an accepted [POST]. *)
Definition run_of (body : JsonBody) (w : World) : Out OState unit :=
  the_run (sessionId_of (node w)) (request_of body w) (folder_world body w).

(** What the run adds when it throws: the update of the [catch] block of
    [runWorkflow], then the update of the handler set by [POST]. *)
Definition error_reports (r : Out OState unit) : list ProgressUpdate :=
  match result r with
  | Threw e => [error_update (fst (state r)) e; fallback_update e]
  | _ => []
  end.



(** The body with [scrapeSite] replaced by its lowercase form. *)
Definition lowercased (body : JsonBody) : JsonBody :=
  mkBody (JsString.toLowerCase <$> body_scrapeSite body) (body_productName body)
    (body_outputFolder body) (body_recipientEmail body).

(** The spawn without the arguments that follow the script path. *)
Definition erase_args (a : Action) : Action :=
  match a with
  | ActSpawn k c args => ActSpawn k c (take 1 args)
  | _ => a
  end.

(** Same step, same message, same script; the arguments may differ. *)
Definition same_script (s s' : Stage) : Prop :=
  st_step s = st_step s' /\ st_label s = st_label s'
  /\ fst <$> st_task s = fst <$> st_task s'.

Definition lower_site (params : ScrapingRequest) : ScrapingRequest :=
  mkRequest (JsString.toLowerCase (scrapeSite params)) (productName params)
    (outputFolder params) (recipientEmail params).

(** The update that ends a run whose scripts all succeed. *)
Definition completed_update : ProgressUpdate :=
  mkUpdate 6 6 "All tasks completed successfully!" Completed None.

(** An amazon request whose second script exits with code 1, with a
    client that subscribes while the first script runs. *)
Definition failing_world : World :=
  sample_world mkdir_works []
    [ mkBehaviour [ClientConnect (Some sample_sid); StdoutData "12 products"]
        (Exited (Some 0));
      mkBehaviour [StderrData "network timeout"] (Exited (Some 1));
      exits 0; exits 0; exits 0; exits 0 ].

(** Scenario B of the specification: the third script exits with code 1
    and stderr "network timeout"; the client subscribes while the first
    script runs. *)
Definition scenario_B_world : World :=
  sample_world mkdir_works []
    [ mkBehaviour [ClientConnect (Some sample_sid)] (Exited (Some 0));
      exits 0;
      mkBehaviour [StderrData "network timeout"] (Exited (Some 1));
      exits 0; exits 0; exits 0 ].

(** ** Writing a site name in capitals *)

(** The capital of a letter [a]..[z]. *)
Definition upperChar (c : ascii) : ascii :=
  let n := JsString.code c in
  if ((97 <=? n) && (n <=? 122))%N then ascii_of_N (n - 32) else c.

(** The string with the characters picked by the mask in capitals. *)
Fixpoint capitalize (mask : list bool) (s : string) : string :=
  match s, mask with
  | String c s', m :: mask' =>
      String (if m then upperChar c else c) (capitalize mask' s')
  | _, _ => s
  end.

(** The spawn of step 1 with the argument that follows the script path
    in lowercase.  That argument is the site for [product_analyzer.py];
    for [blinkit.py] it is the option [--brand]. *)
Definition lower_site_arg (a : Action) : Action :=
  match a with
  | ActSpawn 1 c (path :: site :: rest) =>
      ActSpawn 1 c (path :: JsString.toLowerCase site :: rest)
  | _ => a
  end.

(** ** A python that cannot be started *)


(** ** The registry of the progress route *)

(** Every entry of the map points to an open stream that was made for
    that session id, and every pending timeout holds a stream that was
    made for its session id. *)
Definition hub_ok (w : World) : Prop :=
  (forall sid ref, progressStreams w !! sid = Some ref ->
     exists s, streams w !! ref = Some s /\ stream_sessionId s = sid /\ closed s = false)
  /\ Forall (fun t => exists s, streams w !! timer_stream t = Some s
                                /\ stream_sessionId s = timer_sessionId t) (timers w).

(** [sendProgressUpdate] called on each update of a list, in order. *)
Fixpoint publishAll (sid : string) (us : list ProgressUpdate) : M World unit :=
  match us with
  | [] => ret tt
  | u :: us' => sendProgressUpdate sid u ;; publishAll sid us'
  end.

(** The timeouts [sendProgressUpdate] sets for the updates of a list. *)
Definition timeouts_for (ref : nat) (sid : string) (us : list ProgressUpdate) : list Timer :=
  omap (fun u => if isTerminal u then Some (mkTimer ref sid) else None) us.

(** ** The output of a child process *)

(** The chunks a child process writes to its standard output. *)
Definition stdout_chunks (evs : list LoopEvent) : list string :=
  omap (fun ev => match ev with StdoutData d => Some d | _ => None end) evs.

Definition stderr_chunks (evs : list LoopEvent) : list string :=
  omap (fun ev => match ev with StderrData d => Some d | _ => None end) evs.

(** ** The scripts of the workflow *)

(** The child exits with code 0. *)
Definition succeeds (b : Behaviour) : bool :=
  match ending b with
  | Exited (Some 0) => true
  | _ => false
  end.

(** The spawns a list of stages asks for: stage and arguments of [spawn]. *)
Definition planned_spawns (nd : Node) (stages : list Stage) : list (Z * list string) :=
  omap (fun st => match st_task st with
                  | Some (n, a) => Some (st_step st, scriptPath nd n :: a)
                  | None => None
                  end) stages.

(** The scripts of [runWorkflow] with the step at which each is spawned
    and its arguments, for the two kinds of site. *)
Definition pipeline (nd : Node) (params : ScrapingRequest) : list (Z * list string) :=
  (if isBlinkit (scrapeSite params)
   then [ (1, [scriptPath nd "blinkit.py"; "--brand"; productName params;
               "--out-dir"; outputFolder params; "--images"]) ]
   else [ (1, [scriptPath nd "product_analyzer.py"; scrapeSite params;
               productName params; outputFolder params]);
          (2, [scriptPath nd "image_scraper.py"; outputFolder params]) ])
  ++ [ (3, [scriptPath nd "text_extractor.py"; outputFolder params]);
       (4, [scriptPath nd "qr_orchestrator.py"; outputFolder params]);
       (5, [scriptPath nd "credential_check.py"; outputFolder params]);
       (6, [scriptPath nd "exception_reporter.py"; outputFolder params;
            recipientEmail params]) ].

(** While the child runs no client connects or goes away and no timeout
    runs. *)
Definition quiet (b : Behaviour) : bool :=
  forallb (fun ev => match ev with StdoutData _ | StderrData _ => true | _ => false end)
    (events b).

(** A publish is for the session [sid]. *)
Definition addressed_to (sid : string) (a : Action) : Prop :=
  match a with
  | ActPublish s _ => s = sid
  | _ => True
  end.

(** The streams, the map, the timeouts and the uncaught errors are the same. *)
Definition same_hub (w w' : World) : Prop :=
  streams w' = streams w /\ progressStreams w' = progressStreams w
  /\ timers w' = timers w /\ uncaught w' = uncaught w.

(** ** The language of a regular expression *)

(** [matches r s]: the string [s] is in the language of [r]. *)
Inductive matches : RegExp.regex -> string -> Prop :=
| matches_eps : matches RegExp.Eps EmptyString
| matches_class (p : ascii -> bool) (c : ascii) :
    p c = true -> matches (RegExp.Class p) (String c EmptyString)
| matches_seq (r1 r2 : RegExp.regex) (s1 s2 : string) :
    matches r1 s1 -> matches r2 s2 -> matches (RegExp.Seq r1 r2) (s1 +:+ s2)
| matches_alt_l (r1 r2 : RegExp.regex) (s : string) :
    matches r1 s -> matches (RegExp.Alt r1 r2) s
| matches_alt_r (r1 r2 : RegExp.regex) (s : string) :
    matches r2 s -> matches (RegExp.Alt r1 r2) s
| matches_star_nil (r : RegExp.regex) : matches (RegExp.Star r) EmptyString
| matches_star_cons (r : RegExp.regex) (s1 s2 : string) :
    matches r s1 -> matches (RegExp.Star r) s2 -> matches (RegExp.Star r) (s1 +:+ s2).

(** Every character of the string satisfies [p]. *)
Fixpoint all_chars (p : ascii -> bool) (s : string) : bool :=
  match s with
  | EmptyString => true
  | String c s' => p c && all_chars p s'
  end.

(** How many times the character occurs in the string. *)
Fixpoint occurrences (c : ascii) (s : string) : nat :=
  match s with
  | EmptyString => 0
  | String c' s' => (if Ascii.eqb c c' then 1 else 0) + occurrences c s'
  end.

(** No character of the string is NUL, and so for each string of a list:
    [spawn] throws when its command or an argument holds a NUL character. *)
Definition nul_free (s : string) : bool :=
  all_chars (fun c => negb (Ascii.eqb c Ascii.zero)) s.

Definition spawnable (args : list string) : bool := forallb nul_free args.

(** A non-empty string without white space and without [@]: what
    [[^\s@]+] matches. *)
Definition atom (s : string) : Prop :=
  s <> EmptyString /\ all_chars notSpaceAt s = true.

(** The entries of the session ids other than [sid], and the streams they
    point to, are in [w'] as they are in [w]. *)
Definition others_kept (sid : string) (w w' : World) : Prop :=
  forall sid' ref', sid' <> sid -> progressStreams w !! sid' = Some ref' ->
    progressStreams w' !! sid' = Some ref' /\ streams w' !! ref' = streams w !! ref'.

(** ** The first update of a run *)

(** The update [runWorkflow] publishes first. *)
Definition starting_update : ProgressUpdate :=
  mkUpdate 1 6 "Starting product analysis and scraping..." Running None.

(** * Lemmas *)

(** ** The string and pattern functions, on samples *)

Example emailRegex_accepts : RegExp.test emailRegex "qa.team@example.co.in" = true.
Proof. reflexivity. Qed.

Example emailRegex_rejects_no_dot : RegExp.test emailRegex "qa@example" = false.
Proof. reflexivity. Qed.

Example emailRegex_rejects_space : RegExp.test emailRegex "q a@example.com" = false.
Proof. reflexivity. Qed.

Example toLowerCase_sample : JsString.toLowerCase "BlinkIt" = "blinkit".
Proof. reflexivity. Qed.

Example trim_sample : JsString.trim "  found 3 items
" = "found 3 items".
Proof. reflexivity. Qed.

Example pretty_sample : pretty (-2)%Z = "-2".
Proof. reflexivity. Qed.

(** ** Stepping through monadic code *)

Ltac msimpl :=
  cbn [bind try_catch ret gets modify tell throw stuck detach
       result state log fst snd app].

Ltac munfold :=
  unfold bind, try_catch, ret, gets, modify, tell, throw, stuck, detach; msimpl.

Lemma bind_eq {S A B} (m : M S A) (k : A -> M S B) (s : S) :
  bind m k s =
  match result (m s) with
  | Ok a => mkOut (result (k a (state (m s)))) (state (k a (state (m s))))
              (log (m s) ++ log (k a (state (m s))))
  | Threw e => mkOut (Threw e) (state (m s)) (log (m s))
  | Stuck => mkOut Stuck (state (m s)) (log (m s))
  end.
Proof. reflexivity. Qed.

Lemma try_catch_eq {S A} (m : M S A) (h : Thrown -> M S A) (s : S) :
  try_catch m h s =
  match result (m s) with
  | Threw e => mkOut (result (h e (state (m s)))) (state (h e (state (m s))))
                 (log (m s) ++ log (h e (state (m s))))
  | _ => m s
  end.
Proof. reflexivity. Qed.

Lemma bind_ret {S A B} (a : A) (k : A -> M S B) (s : S) : bind (ret a) k s = k a s.
Proof. reflexivity. Qed.

Lemma bind_gets {S A B} (f : S -> A) (k : A -> M S B) (s : S) :
  bind (gets f) k s = k (f s) s.
Proof. reflexivity. Qed.

Lemma bind_modify {S B} (f : S -> S) (k : unit -> M S B) (s : S) :
  bind (modify f) k s = k tt (f s).
Proof. reflexivity. Qed.

Lemma bind_tell {S B} (a : Action) (k : unit -> M S B) (s : S) :
  bind (tell a) k s = prepend [a] (k tt s).
Proof. reflexivity. Qed.

Lemma bind_throw {S A B} (e : Thrown) (k : A -> M S B) (s : S) :
  bind (throw e) k s = mkOut (Threw e) s [].
Proof. reflexivity. Qed.

Lemma bind_stuck {S A B} (k : A -> M S B) (s : S) :
  bind (@stuck S A) k s = mkOut Stuck s [].
Proof. reflexivity. Qed.

Lemma bind_detach {S A B} (m : M S A) (k : unit -> M S B) (s : S) :
  bind (detach m) k s = prepend (log (m s)) (k tt (state (m s))).
Proof. reflexivity. Qed.

Lemma bind_cong {S A B} (m : M S A) (f g : A -> M S B) (s : S) :
  (forall a s', f a s' = g a s') -> bind m f s = bind m g s.
Proof. intros H. rewrite !bind_eq. destruct (result (m s)); rewrite ?H; reflexivity. Qed.

Lemma bind_assoc {S A B C} (m : M S A) (f : A -> M S B) (g : B -> M S C) (s : S) :
  bind (bind m f) g s = bind m (fun a => bind (f a) g) s.
Proof.
  rewrite !bind_eq. destruct (result (m s)) as [a| |]; cbn [result state log]; try reflexivity.
  rewrite !bind_eq. destruct (result (f a (state (m s)))); cbn [result state log];
    rewrite ?app_assoc; reflexivity.
Qed.

Lemma try_catch_ok {S A} (m : M S A) (h : Thrown -> M S A) (s : S) (a : A) :
  result (m s) = Ok a -> try_catch m h s = m s.
Proof. intros H. rewrite try_catch_eq, H. reflexivity. Qed.

(** ** The progress route, as functions of the state *)

Lemma sendProgressUpdate_eq (sid : string) (u : ProgressUpdate) (w : World) :
  sendProgressUpdate sid u w = mkOut (Ok tt) (delivered sid u w) [ActPublish sid u].
Proof.
  unfold sendProgressUpdate, delivered, controller_enqueue, setTimeout. munfold.
  destruct (progressStreams w !! sid) as [ref|]; cbn; [|reflexivity].
  destruct (streams w !! ref) as [s|]; cbn; [|reflexivity].
  destruct (closed s); cbn; [reflexivity|].
  destruct (isTerminal u); reflexivity.
Qed.

Lemma updateProgress_eq (msg : string) (st : Status) (d : option string)
    (o : ScrapingOrchestrator) (w : World) :
  updateProgress msg st d (o, w) =
  let u := mkUpdate (currentStep o) (totalSteps o) msg st d in
  mkOut (Ok tt) (o, delivered (sessionId o) u w) [ActPublish (sessionId o) u].
Proof.
  unfold updateProgress, liftW, bind, gets. cbv beta zeta.
  cbn [result state log fst snd]. rewrite sendProgressUpdate_eq. reflexivity.
Qed.

Lemma same_outside_refl (w : World) : same_outside w w.
Proof. repeat split. Qed.

Lemma same_outside_trans (w1 w2 w3 : World) :
  same_outside w1 w2 -> same_outside w2 w3 -> same_outside w1 w3.
Proof. unfold same_outside. intuition congruence. Qed.

Lemma delivered_outside (sid : string) (u : ProgressUpdate) (w : World) :
  same_outside w (delivered sid u w).
Proof.
  unfold delivered, same_outside.
  destruct (progressStreams w !! sid) as [ref|]; [|done].
  destruct (streams w !! ref) as [s|]; [|done].
  destruct (closed s); [done|]. destruct (isTerminal u); done.
Qed.

Lemma GET_quiet (sid : option string) (w : World) :
  exists r, result (GET sid w) = Ok r /\ log (GET sid w) = []
            /\ same_outside w (state (GET sid w)).
Proof.
  unfold GET, controller_enqueue. destruct sid as [sid|]; munfold.
  - destruct (JsString.truthy sid); cbn.
    + rewrite lookup_app_r by lia. rewrite Nat.sub_diag. cbn.
      eexists; repeat split.
    + eexists; repeat split.
  - eexists; repeat split.
Qed.

Lemma stream_cancel_quiet (ref : nat) (w : World) :
  result (stream_cancel ref w) = Ok tt /\ log (stream_cancel ref w) = []
  /\ same_outside w (state (stream_cancel ref w)).
Proof.
  unfold stream_cancel. munfold.
  destruct (streams w !! ref) as [s|]; cbn; [|done].
  destruct (closed s); done.
Qed.

Lemma fireTimer_quiet (w : World) :
  result (fireTimer w) = Ok tt /\ log (fireTimer w) = []
  /\ same_outside w (state (fireTimer w)).
Proof.
  unfold fireTimer, timeout_callback, controller_close. munfold.
  destruct (timers w) as [|t rest]; cbn; [done|].
  destruct (streams w !! timer_stream t) as [s|]; cbn; [|done].
  destruct (closed s); done.
Qed.

(** ** [runPythonScript], as a function of the state *)

Lemma whilePending_eq (scriptName : string) (evs : list LoopEvent) :
  forall (out err : string) (o : ScrapingOrchestrator) (w : World),
    whilePending scriptName evs out err (o, w) =
    mkOut (Ok (stdout_from out evs, stderr_from err evs))
      (o, loop_world o scriptName evs w)
      (map (ActPublish (sessionId o)) (chunk_updates o scriptName evs)).
Proof.
  induction evs as [|ev evs IH]; intros out err o w; [reflexivity|].
  destruct ev as [d|d|sid|ref|]; cbn [whilePending chunk_updates loop_world
                                      stdout_from stderr_from map].
  - rewrite bind_eq, updateProgress_eq. cbn [result state log]. rewrite IH. reflexivity.
  - apply IH.
  - rewrite bind_eq. unfold liftW at 1 2 3 4. cbn [result state log fst snd].
    destruct (GET_quiet sid w) as (r & Hr & Hl & _). rewrite Hr, Hl, IH. reflexivity.
  - rewrite bind_eq. unfold liftW at 1 2 3 4. cbn [result state log fst snd].
    destruct (stream_cancel_quiet ref w) as (Hr & Hl & _). rewrite Hr, Hl, IH. reflexivity.
  - rewrite bind_eq. unfold liftW at 1 2 3 4. cbn [result state log fst snd].
    destruct (fireTimer_quiet w) as (Hr & Hl & _). rewrite Hr, Hl, IH. reflexivity.
Qed.

Lemma loop_world_outside (o : ScrapingOrchestrator) (scriptName : string)
    (evs : list LoopEvent) :
  forall w, same_outside w (loop_world o scriptName evs w).
Proof.
  induction evs as [|ev evs IH]; intros w; [apply same_outside_refl|].
  destruct ev as [d|d|sid|ref|]; cbn [loop_world];
    (eapply same_outside_trans; [|apply IH]).
  - apply delivered_outside.
  - apply same_outside_refl.
  - destruct (GET_quiet sid w) as (r & _ & _ & H). exact H.
  - apply stream_cancel_quiet.
  - apply fireTimer_quiet.
Qed.

Lemma runPythonScript_eq (scriptName : string) (args : list string)
    (o : ScrapingOrchestrator) (w : World) :
  runPythonScript scriptName args (o, w) =
  match tasks w with
  | [] => mkOut Stuck (o, w) [spawn_action o w scriptName args]
  | b :: rest =>
      mkOut (settle scriptName b)
        (o, loop_world o scriptName (events b) (with_tasks (fun _ => rest) w))
        (spawn_action o w scriptName args
         :: map (ActPublish (sessionId o)) (chunk_updates o scriptName (events b)))
  end.
Proof.
  unfold runPythonScript, nextProcess, spawn_action, scriptPath, settle.
  rewrite bind_gets, bind_gets, bind_tell, (bind_assoc (S:=OState)), bind_gets.
  cbn [fst snd]. destruct (tasks w) as [|b rest].
  - rewrite bind_stuck. reflexivity.
  - rewrite (bind_assoc (S:=OState)), bind_modify, bind_ret. cbn [fst snd].
    rewrite bind_eq, whilePending_eq. cbn [result state log fst snd prepend].
    destruct (ending b) as [[[| |]|]| | |]; cbn [ret throw stuck result state log app];
      rewrite ?app_nil_r; reflexivity.
Qed.

(** ** Joining the chunks of output *)

Lemma append_nil_r (s : string) : s +:+ EmptyString = s.
Proof.
  induction s as [|c s IH]; [reflexivity|].
  change (String c (s +:+ EmptyString) = String c s). rewrite IH. reflexivity.
Qed.

Lemma append_assoc (s1 s2 s3 : string) : (s1 +:+ s2) +:+ s3 = s1 +:+ (s2 +:+ s3).
Proof.
  induction s1 as [|c s1 IH]; [reflexivity|].
  change (String c ((s1 +:+ s2) +:+ s3) = String c (s1 +:+ (s2 +:+ s3))).
  rewrite IH. reflexivity.
Qed.

Lemma concat_cons (d : string) (l : list string) :
  String.concat EmptyString (d :: l) = d +:+ String.concat EmptyString l.
Proof. destruct l as [|d' l]; [symmetry; apply append_nil_r|reflexivity]. Qed.

Lemma stdout_from_chunks (evs : list LoopEvent) :
  forall acc, stdout_from acc evs = acc +:+ String.concat EmptyString (stdout_chunks evs).
Proof.
  induction evs as [|ev evs IH]; intros acc.
  - symmetry. apply append_nil_r.
  - destruct ev as [d|d|x|r|]; cbn [stdout_from]; try apply IH.
    rewrite IH. change (stdout_chunks (StdoutData d :: evs)) with (d :: stdout_chunks evs).
    rewrite concat_cons. apply append_assoc.
Qed.

Lemma stderr_from_chunks (evs : list LoopEvent) :
  forall acc, stderr_from acc evs = acc +:+ String.concat EmptyString (stderr_chunks evs).
Proof.
  induction evs as [|ev evs IH]; intros acc.
  - symmetry. apply append_nil_r.
  - destruct ev as [d|d|x|r|]; cbn [stderr_from]; try apply IH.
    rewrite IH. change (stderr_chunks (StderrData d :: evs)) with (d :: stderr_chunks evs).
    rewrite concat_cons. apply append_assoc.
Qed.

(** ** [runWorkflow], stage by stage *)

Lemma runWorkflow_stages (params : ScrapingRequest) (s : OState) :
  runWorkflow params s = try_catch (execPlan (stages_of params)) rethrow s.
Proof.
  unfold runWorkflow. rewrite !try_catch_eq.
  match goal with
  | |- match result (?m s) with _ => _ end = _ =>
      assert (Hbody : m s = execPlan (stages_of params) s); [|rewrite Hbody; reflexivity]
  end.
  unfold stages_of, isBlinkit.
  destruct (String.eqb (JsString.toLowerCase (orEmpty (Some (scrapeSite params)))) "blinkit");
    cbn [app blinkit_stages default_stages common_stages execPlan runTask
           st_step st_label st_task].
  - reflexivity.
  - do 4 (apply bind_cong; intros).
    rewrite bind_assoc. apply bind_cong; intros.
    rewrite bind_assoc. apply bind_cong; intros. reflexivity.
Qed.

Lemma execPlan_cons (st : Stage) (rest : list Stage) (o : ScrapingOrchestrator) (w : World) :
  execPlan (st :: rest) (o, w) =
  let o1 := at_step o (st_step st) in
  let u := label_update o st in
  let w1 := delivered (sessionId o) u w in
  match st_task st with
  | None => prepend [ActPublish (sessionId o) u] (execPlan rest (o1, w1))
  | Some (n, a) =>
      match tasks w with
      | [] => mkOut Stuck (o1, w1) [ActPublish (sessionId o) u; spawn_action o1 w n a]
      | b :: ts =>
          let w2 := loop_world o1 n (events b) (with_tasks (fun _ => ts) w1) in
          let pre := ActPublish (sessionId o) u :: spawn_action o1 w n a
                     :: map (ActPublish (sessionId o)) (chunk_updates o1 n (events b)) in
          match settle n b with
          | Ok _ => prepend pre (execPlan rest (o1, w2))
          | Threw e => mkOut (Threw e) (o1, w2) pre
          | Stuck => mkOut Stuck (o1, w2) pre
          end
      end
  end.
Proof.
  cbn [execPlan]. unfold setCurrentStep. rewrite bind_eq. cbn [modify result state log fst snd].
  rewrite bind_eq, updateProgress_eq. cbn [result state log app currentStep totalSteps sessionId].
  fold (at_step o (st_step st)). fold (label_update o st).
  destruct (delivered_outside (sessionId o) (label_update o st) w) as (Ht & Hn & _).
  destruct (st_task st) as [[n a]|]; cbn [runTask]; [|reflexivity].
  rewrite bind_eq, runPythonScript_eq. unfold spawn_action. rewrite Ht, Hn.
  destruct (tasks w) as [|b ts]; [reflexivity|].
  cbn [result state log]. destruct (settle n b); reflexivity.
Qed.

(** ** [POST], case by case *)

Lemma POST_eq (body : JsonBody) (w : World) :
  POST (Some body) w =
  if fieldsMissing body
  then mkOut (Ok (mkResponse 400 (JsonError "Missing required fields"))) w []
  else if emailMalformed body
  then mkOut (Ok (mkResponse 400 (JsonError "Invalid email format"))) w []
  else if siteUnrecognized body
  then mkOut (Ok (mkResponse 400 (JsonError "Supported sites are: Amazon, Blinkit"))) w []
  else
    match folderFailure body w with
    | Some msg =>
        mkOut (Ok (mkResponse 400 (JsonError (folderMessage (resolvedFolder body w) msg))))
          w (folder_log body w)
    | None =>
        let sid := sessionId_of (node w) in
        let bg := background sid (request_of body w) (folder_world body w) in
        mkOut (Ok (mkResponse 200 (JsonStarted sid started))) (state bg)
          (folder_log body w ++ ActNewOrchestrator sid :: log bg)
    end.
Proof.
  assert (Hmkdir : forall dir rec,
             fs_mkdirSync dir rec w =
             match mkdir_error (node w) dir rec with
             | Some msg => mkOut (Threw (JsError msg)) w [ActMkdir dir rec]
             | None => mkOut (Ok tt) (with_dirs (fun d => {[dir]} ∪ d) w) [ActMkdir dir rec]
             end).
  { intros dir rec. unfold fs_mkdirSync. rewrite bind_tell, bind_gets.
    destruct (mkdir_error (node w) dir rec); reflexivity. }
  unfold POST. rewrite try_catch_eq, bind_ret.
  unfold fieldsMissing, emailMalformed, siteUnrecognized.
  destruct (falsy (body_scrapeSite body) || falsy (body_productName body)
            || falsy (body_outputFolder body) || falsy (body_recipientEmail body));
    [reflexivity|].
  destruct (negb (RegExp.test emailRegex (orEmpty (body_recipientEmail body))));
    [reflexivity|].
  destruct (negb (includes supportedSites
                    (JsString.toLowerCase (orEmpty (body_scrapeSite body)))));
    [reflexivity|].
  rewrite bind_gets. cbv zeta. unfold fs_existsSync. rewrite bind_gets.
  unfold folderFailure, folder_world, folder_log, folderMessage.
  fold (resolvedFolder body w). fold (request_of body w).
  destruct (bool_decide (resolvedFolder body w ∈ dirs w)); cbn [negb].
  - rewrite bind_ret. unfold newSessionId. rewrite (bind_assoc (S:=World)), bind_gets, bind_ret.
    fold (sessionId_of (node w)). rewrite bind_tell, bind_detach.
    unfold prepend, background, detach, started.
    cbn [ret result state log app]. rewrite app_nil_r. reflexivity.
  - rewrite bind_eq, try_catch_eq, bind_eq, Hmkdir.
    destruct (mkdir_error (node w) (resolvedFolder body w) true) as [msg|];
      cbn [result state log ret app].
    + reflexivity.
    + unfold newSessionId. rewrite (bind_assoc (S:=World)), bind_gets, bind_ret.
      cbn [node with_dirs]. fold (sessionId_of (node w)).
      rewrite bind_tell, bind_detach.
      unfold prepend, background, detach, started.
      cbn [ret result state log app]. rewrite app_nil_r. reflexivity.
Qed.

Lemma POST_unparsable (w : World) :
  POST None w = mkOut (Ok (mkResponse 500 (JsonError "Internal server error"))) w [].
Proof. reflexivity. Qed.

Lemma execPlan_nil (o : ScrapingOrchestrator) (w : World) :
  execPlan [] (o, w) =
  mkOut (Ok tt) (o, delivered (sessionId o) (final_update o) w)
    [ActPublish (sessionId o) (final_update o)].
Proof. cbn [execPlan]. rewrite updateProgress_eq. reflexivity. Qed.

(** ** Induction on a run of the stages *)

Section PlanInduction.

Variable Q : list Stage -> ScrapingOrchestrator -> World -> Out OState unit -> Prop.

Hypothesis Q_done : forall o w,
  Q [] o w (mkOut (Ok tt) (o, delivered (sessionId o) (final_update o) w)
              [ActPublish (sessionId o) (final_update o)]).

Hypothesis Q_no_task : forall st rest o w,
  st_task st = None ->
  Q rest (at_step o (st_step st)) (after_label o st w)
    (execPlan rest (at_step o (st_step st), after_label o st w)) ->
  Q (st :: rest) o w
    (prepend [ActPublish (sessionId o) (label_update o st)]
       (execPlan rest (at_step o (st_step st), after_label o st w))).

Hypothesis Q_unscripted : forall st rest o w n a,
  st_task st = Some (n, a) -> tasks w = [] ->
  Q (st :: rest) o w
    (mkOut Stuck (at_step o (st_step st), after_label o st w)
       [ActPublish (sessionId o) (label_update o st);
        spawn_action (at_step o (st_step st)) w n a]).

Hypothesis Q_success : forall st rest o w n a b ts out,
  st_task st = Some (n, a) -> tasks w = b :: ts -> settle n b = Ok out ->
  Q rest (at_step o (st_step st)) (after_task o st w n b ts)
    (execPlan rest (at_step o (st_step st), after_task o st w n b ts)) ->
  Q (st :: rest) o w
    (prepend (stage_log o st w n a b)
       (execPlan rest (at_step o (st_step st), after_task o st w n b ts))).

Hypothesis Q_failure : forall st rest o w n a b ts e,
  st_task st = Some (n, a) -> tasks w = b :: ts -> settle n b = Threw e ->
  Q (st :: rest) o w
    (mkOut (Threw e) (at_step o (st_step st), after_task o st w n b ts)
       (stage_log o st w n a b)).

Hypothesis Q_hang : forall st rest o w n a b ts,
  st_task st = Some (n, a) -> tasks w = b :: ts -> settle n b = Stuck ->
  Q (st :: rest) o w
    (mkOut Stuck (at_step o (st_step st), after_task o st w n b ts)
       (stage_log o st w n a b)).

Lemma execPlan_induction (stages : list Stage) :
  forall o w, Q stages o w (execPlan stages (o, w)).
Proof.
  induction stages as [|st rest IH]; intros o w.
  - rewrite execPlan_nil. apply Q_done.
  - rewrite execPlan_cons. cbv zeta.
    destruct (st_task st) as [[n a]|] eqn:Htask.
    + destruct (tasks w) as [|b ts] eqn:Hts.
      * eapply Q_unscripted; eassumption.
      * destruct (settle n b) as [out|e|] eqn:Hsettle.
        -- eapply Q_success; try eassumption. apply IH.
        -- eapply Q_failure; eassumption.
        -- eapply Q_hang; eassumption.
    + apply Q_no_task; [assumption|]. apply IH.
Qed.

End PlanInduction.

(** Induction on the run [execPlan stages (o, w)] of the goal. *)
Ltac plan_induction stages o w :=
  let r := fresh "r" in
  set (r := execPlan stages (o, w));
  pattern stages, o, w, r;
  match goal with
  | |- ?Q stages o w r =>
      subst r; simple refine (execPlan_induction Q _ _ _ _ _ _ stages o w);
      clear stages o w; cbv beta
  end.
(** ** Reading the log of a run *)

Lemma published_app (l1 l2 : list Action) :
  published (l1 ++ l2) = published l1 ++ published l2.
Proof. apply omap_app. Qed.

Lemma spawned_app (l1 l2 : list Action) :
  spawned (l1 ++ l2) = spawned l1 ++ spawned l2.
Proof. apply omap_app. Qed.

Lemma published_publish (sid : string) (u : ProgressUpdate) (l : list Action) :
  published (ActPublish sid u :: l) = u :: published l.
Proof. reflexivity. Qed.

Lemma published_map (sid : string) (us : list ProgressUpdate) :
  published (map (ActPublish sid) us) = us.
Proof. induction us as [|u us IH]; [reflexivity|]. cbn. f_equal. exact IH. Qed.

Lemma spawned_map (sid : string) (us : list ProgressUpdate) :
  spawned (map (ActPublish sid) us) = [].
Proof. induction us as [|u us IH]; [reflexivity|]. exact IH. Qed.

Lemma published_stage_log o st w n a b :
  published (stage_log o st w n a b) =
  label_update o st :: chunk_updates (at_step o (st_step st)) n (events b).
Proof. unfold stage_log, spawn_action. cbn. f_equal. apply published_map. Qed.

Lemma spawned_stage_log o st w n a b :
  spawned (stage_log o st w n a b) = [(st_step st, scriptPath (node w) n :: a)].
Proof. unfold stage_log, spawn_action. cbn. f_equal. apply spawned_map. Qed.

Lemma after_label_outside o st w : same_outside w (after_label o st w).
Proof. apply delivered_outside. Qed.

Lemma after_task_outside o st w n b ts :
  tasks (after_task o st w n b ts) = ts
  /\ node (after_task o st w n b ts) = node w
  /\ dirs (after_task o st w n b ts) = dirs w.
Proof.
  unfold after_task.
  destruct (loop_world_outside (at_step o (st_step st)) n (events b)
              (with_tasks (fun _ => ts) (after_label o st w))) as (Ht & Hn & Hd).
  destruct (after_label_outside o st w) as (_ & Hn' & Hd').
  cbn in Ht, Hn, Hd. repeat split; congruence.
Qed.

Lemma chunk_updates_shape o n evs :
  Forall (fun u => step u = currentStep o /\ total u = totalSteps o /\ status u = Running)
    (chunk_updates o n evs).
Proof.
  induction evs as [|ev evs IH]; [constructor|].
  destruct ev; cbn; try exact IH. constructor; [repeat split|exact IH].
Qed.

(** ** What a run of the stages keeps *)

Lemma execPlan_keeps (stages : list Stage) (o : ScrapingOrchestrator) (w : World) :
  keeps o w (state (execPlan stages (o, w))).
Proof.
  plan_induction stages o w.
  - intros o w. destruct (delivered_outside (sessionId o) (final_update o) w) as (_ & Hn & Hd).
    repeat split; assumption.
  - intros st rest o w _ (H1 & H2 & H3 & H4).
    destruct (after_label_outside o st w) as (_ & Hn & Hd).
    cbn [prepend state]. repeat split; cbn in *; congruence.
  - intros st rest o w n a _ _. destruct (after_label_outside o st w) as (_ & Hn & Hd).
    repeat split; assumption.
  - intros st rest o w n a b ts out _ _ _ (H1 & H2 & H3 & H4).
    destruct (after_task_outside o st w n b ts) as (_ & Hn & Hd).
    cbn [prepend state]. repeat split; cbn in *; congruence.
  - intros st rest o w n a b ts e _ _ _.
    destruct (after_task_outside o st w n b ts) as (_ & Hn & Hd). repeat split; assumption.
  - intros st rest o w n a b ts _ _ _.
    destruct (after_task_outside o st w n b ts) as (_ & Hn & Hd). repeat split; assumption.
Qed.

Lemma chunk_updates_running o n evs : all_running (chunk_updates o n evs).
Proof. eapply Forall_impl; [apply chunk_updates_shape|]. cbn. tauto. Qed.

(** Every update of a run is [running], but for the last one of a run that
    comes to its end. *)
Lemma execPlan_statuses (stages : list Stage) (o : ScrapingOrchestrator) (w : World) :
  exists runs,
    all_running runs /\
    published (log (execPlan stages (o, w))) =
    runs ++ match result (execPlan stages (o, w)) with
            | Ok _ => [final_update (fst (state (execPlan stages (o, w))))]
            | _ => []
            end.
Proof.
  plan_induction stages o w.
  - intros o w. exists []. split; [constructor|reflexivity].
  - intros st rest o w _ (runs & Hruns & Heq).
    exists (label_update o st :: runs). split; [constructor; [reflexivity|exact Hruns]|].
    cbn [prepend log result state app]. rewrite published_publish, Heq. reflexivity.
  - intros st rest o w n a _ _. exists [label_update o st].
    split; [repeat constructor|reflexivity].
  - intros st rest o w n a b ts out _ _ _ (runs & Hruns & Heq).
    exists (label_update o st :: chunk_updates (at_step o (st_step st)) n (events b) ++ runs).
    split.
    + constructor; [reflexivity|]. apply Forall_app. split; [apply chunk_updates_running|exact Hruns].
    + cbn [prepend log result state]. rewrite published_app, published_stage_log, Heq.
      cbn [app]. rewrite app_assoc. reflexivity.
  - intros st rest o w n a b ts e _ _ _.
    exists (label_update o st :: chunk_updates (at_step o (st_step st)) n (events b)).
    split.
    + constructor; [reflexivity|]. apply chunk_updates_running.
    + cbn [log result]. rewrite published_stage_log, app_nil_r. reflexivity.
  - intros st rest o w n a b ts _ _ _.
    exists (label_update o st :: chunk_updates (at_step o (st_step st)) n (events b)).
    split.
    + constructor; [reflexivity|]. apply chunk_updates_running.
    + cbn [log result]. rewrite published_stage_log, app_nil_r. reflexivity.
Qed.

(** Every update of a run carries the total of the object. *)
Lemma execPlan_totals (stages : list Stage) (o : ScrapingOrchestrator) (w : World) :
  Forall (fun u => total u = totalSteps o) (published (log (execPlan stages (o, w)))).
Proof.
  plan_induction stages o w.
  - intros o w. repeat constructor.
  - intros st rest o w _ IH. cbn [prepend log]. rewrite published_app.
    apply Forall_app. split; [repeat constructor|exact IH].
  - intros st rest o w n a _ _. repeat constructor.
  - intros st rest o w n a b ts out _ _ _ IH.
    cbn [prepend log]. rewrite published_app, published_stage_log.
    apply Forall_app. split; [|exact IH].
    constructor; [reflexivity|].
    eapply Forall_impl; [apply chunk_updates_shape|]. cbn. tauto.
  - intros st rest o w n a b ts e _ _ _. cbn [log]. rewrite published_stage_log.
    constructor; [reflexivity|].
    eapply Forall_impl; [apply chunk_updates_shape|]. cbn. tauto.
  - intros st rest o w n a b ts _ _ _. cbn [log]. rewrite published_stage_log.
    constructor; [reflexivity|].
    eapply Forall_impl; [apply chunk_updates_shape|]. cbn. tauto.
Qed.

(** ** Step numbers along a run *)

Lemma first_step_rest (o : ScrapingOrchestrator) (st : Stage) (rest : list Stage) :
  StronglySorted Z.le (st_step <$> st :: rest) ->
  st_step st <= first_step (at_step o (st_step st)) rest.
Proof.
  intros Hs. destruct rest as [|st' rest]; cbn; [lia|].
  inversion Hs as [|x l _ Hall]; subst. inversion Hall; subst. assumption.
Qed.

Lemma sorted_same_step (k : Z) (us : list ProgressUpdate) :
  Forall (fun u => step u = k) us -> StronglySorted Z.le (step <$> us).
Proof.
  induction 1 as [|u us Hu Hus IH]; cbn; constructor; [exact IH|].
  apply Forall_fmap. eapply Forall_impl; [exact Hus|]. cbn. intros u' Hu'. lia.
Qed.

Lemma steps_ok_stage (k lo' hi : Z) (us : list ProgressUpdate) (sp : list (Z * list string))
    (pre l : list Action) :
  published pre = us -> spawned pre = sp ->
  Forall (fun u => step u = k) us -> Forall (fun p => fst p = k) sp ->
  k <= lo' -> steps_ok lo' hi l -> steps_ok k hi (pre ++ l).
Proof.
  intros Hus Hsp Hk Hspk Hle [Hr Hs Hp Hsw]. split.
  - lia.
  - rewrite published_app, fmap_app, Hus. apply StronglySorted_app_2.
    + intros x1 x2 H1 H2.
      apply list_elem_of_fmap in H1 as (u1 & -> & H1).
      apply list_elem_of_fmap in H2 as (u2 & -> & H2).
      rewrite Forall_forall in Hk, Hp. rewrite (Hk u1 H1).
      specialize (Hp u2 H2). unfold step_between in Hp. lia.
    + apply (sorted_same_step k), Hk.
    + exact Hs.
  - rewrite published_app, Hus. apply Forall_app. split.
    + eapply Forall_impl; [exact Hk|]. intros u Hu. unfold step_between. cbn in Hu. lia.
    + eapply Forall_impl; [exact Hp|]. intros u Hu. unfold step_between in *. cbn in Hu. lia.
  - rewrite spawned_app, Hsp. apply Forall_app. split.
    + eapply Forall_impl; [exact Hspk|]. intros u Hu. unfold stage_between. cbn in Hu. lia.
    + eapply Forall_impl; [exact Hsw|]. intros u Hu. unfold stage_between in *. cbn in Hu. lia.
Qed.

Lemma steps_ok_last (k : Z) (us : list ProgressUpdate) (sp : list (Z * list string))
    (pre : list Action) :
  published pre = us -> spawned pre = sp ->
  Forall (fun u => step u = k) us -> Forall (fun p => fst p = k) sp ->
  steps_ok k k pre.
Proof.
  intros Hus Hsp Hk Hspk.
  rewrite <- (app_nil_r pre).
  eapply steps_ok_stage with (lo' := k); try eassumption; [lia|].
  split; cbn; [lia|constructor..].
Qed.

Lemma stage_updates_step o st n evs :
  Forall (fun u => step u = st_step st)
    (label_update o st :: chunk_updates (at_step o (st_step st)) n evs).
Proof.
  constructor; [reflexivity|].
  eapply Forall_impl; [apply chunk_updates_shape|]. cbn. tauto.
Qed.

(** Along a run the step numbers of the updates never go down, and they
    and the stages of the spawns lie between the first stage of the list
    and the step at which the run ends. *)
Lemma execPlan_steps (stages : list Stage) (o : ScrapingOrchestrator) (w : World) :
  StronglySorted Z.le (st_step <$> stages) ->
  steps_ok (first_step o stages)
    (currentStep (fst (state (execPlan stages (o, w)))))
    (log (execPlan stages (o, w))).
Proof.
  plan_induction stages o w.
  - intros o w _. cbn [state fst first_step log].
    eapply steps_ok_last; [reflexivity|reflexivity|repeat constructor|constructor].
  - intros st rest o w _ IH Hs. cbn [prepend state log first_step].
    eapply steps_ok_stage;
      [reflexivity|reflexivity|repeat constructor|constructor
      |apply (first_step_rest o st rest Hs)|].
    apply IH. inversion Hs; subst; assumption.
  - intros st rest o w n a _ _ _. cbn [state fst first_step log].
    eapply steps_ok_last; [reflexivity|reflexivity|repeat constructor|repeat constructor].
  - intros st rest o w n a b ts out _ _ _ IH Hs. cbn [prepend state log first_step].
    eapply steps_ok_stage;
      [apply published_stage_log|apply spawned_stage_log|apply stage_updates_step
      |repeat constructor|apply (first_step_rest o st rest Hs)|].
    apply IH. inversion Hs; subst; assumption.
  - intros st rest o w n a b ts e _ _ _ _. cbn [state fst first_step log].
    eapply steps_ok_last;
      [apply published_stage_log|apply spawned_stage_log|apply stage_updates_step
      |repeat constructor].
  - intros st rest o w n a b ts _ _ _ _. cbn [state fst first_step log].
    eapply steps_ok_last;
      [apply published_stage_log|apply spawned_stage_log|apply stage_updates_step
      |repeat constructor].
Qed.

(** ** A failing child process ends the run *)

Lemma settle_fails (n : string) (b : Behaviour) :
  fails b = true <-> exists e, settle n b = Threw e.
Proof.
  unfold fails, settle. destruct (ending b) as [[[| |]|]| | |]; split;
    first [discriminate | intros [e He]; discriminate | eauto].
Qed.

Lemma settle_terminates (n : string) (b : Behaviour) :
  terminates b = true <-> settle n b <> Stuck.
Proof.
  unfold terminates, settle. destruct (ending b) as [[[| |]|]| | |]; split;
    first [discriminate | congruence | eauto].
Qed.

(** The child processes are spawned in the order of the scripted
    behaviours: when the [i]-th one spawned fails, the run ends there, at
    the stage of that spawn, with the error of that child. *)
Lemma execPlan_failure (stages : list Stage) (o : ScrapingOrchestrator) (w : World) :
  forall (i : nat) (k : Z) (args : list string) (b : Behaviour),
    spawned (log (execPlan stages (o, w))) !! i = Some (k, args) ->
    tasks w !! i = Some b ->
    fails b = true ->
    exists n e rest,
      args = scriptPath (node w) n :: rest
      /\ settle n b = Threw e
      /\ result (execPlan stages (o, w)) = Threw e
      /\ currentStep (fst (state (execPlan stages (o, w)))) = k
      /\ length (spawned (log (execPlan stages (o, w)))) = S i.
Proof.
  plan_induction stages o w.
  - intros o w i k args b H. discriminate H.
  - intros st rest o w _ IH i k args b Hsp Hb Hf.
    destruct (after_label_outside o st w) as (Ht & Hn & _).
    cbn [prepend log result state] in *. cbn [spawned omap app] in Hsp |- *.
    rewrite <- Hn. apply IH; [exact Hsp| |exact Hf]. rewrite Ht. exact Hb.
  - intros st rest o w n a _ Hts i k args b Hsp Hb Hf. rewrite Hts in Hb. discriminate Hb.
  - intros st rest o w n a b0 ts out _ Hts Hok IH i k args b Hsp Hb Hf.
    destruct (after_task_outside o st w n b0 ts) as (Ht & Hn & _).
    cbn [prepend log result state] in *.
    rewrite spawned_app, spawned_stage_log in Hsp |- *. cbn [app] in Hsp |- *.
    rewrite Hts in Hb. destruct i as [|i]; cbn in Hb, Hsp.
    + injection Hb as ->. apply (settle_fails n) in Hf as [e He]. congruence.
    + rewrite <- Hn.
      destruct (IH i k args b Hsp) as (n' & e & rest' & H1 & H2 & H3 & H4 & H5);
        [rewrite Ht; exact Hb|exact Hf|].
      exists n', e, rest'. cbn [length]. repeat split; congruence.
  - intros st rest o w n a b0 ts e _ Hts He i k args b Hsp Hb Hf.
    cbn [log result state fst] in *. rewrite spawned_stage_log in Hsp |- *.
    rewrite Hts in Hb. destruct i as [|i]; cbn in Hb, Hsp; [|discriminate Hsp].
    injection Hb as ->. injection Hsp as <- <-.
    exists n, e, a. repeat split. exact He.
  - intros st rest o w n a b0 ts _ Hts Hst i k args b Hsp Hb Hf.
    cbn [log result state fst] in *. rewrite spawned_stage_log in Hsp.
    rewrite Hts in Hb. destruct i as [|i]; cbn in Hb, Hsp; [|discriminate Hsp].
    injection Hb as ->. apply (settle_fails n) in Hf as [e He]. congruence.
Qed.

(** ** A run whose child processes all settle comes to an end *)

Lemma execPlan_settles (stages : list Stage) (o : ScrapingOrchestrator) (w : World) :
  Forall (fun b => terminates b = true) (tasks w) ->
  (task_count stages <= length (tasks w))%nat ->
  result (execPlan stages (o, w)) <> Stuck.
Proof.
  plan_induction stages o w.
  - intros o w _ _. discriminate.
  - intros st rest o w Hnone IH Hall Hlen.
    destruct (after_label_outside o st w) as (Ht & _ & _).
    cbn [prepend result]. apply IH; rewrite Ht; [exact Hall|].
    unfold task_count in *. rewrite filter_cons in Hlen. rewrite Hnone in Hlen.
    destruct (decide (is_Some (@None (string * list string)))) as [[x Hx]|]; [discriminate|].
    exact Hlen.
  - intros st rest o w n a Hsome Hts _ Hlen. exfalso.
    unfold task_count in Hlen. rewrite filter_cons, Hsome, Hts in Hlen.
    destruct (decide (is_Some (Some (n, a)))) as [|Hn]; [cbn in Hlen; lia|].
    apply Hn. eauto.
  - intros st rest o w n a b ts out Hsome Hts _ IH Hall Hlen.
    destruct (after_task_outside o st w n b ts) as (Ht & _ & _).
    cbn [prepend result]. rewrite Hts in Hall, Hlen.
    apply Forall_cons in Hall as [_ Hall].
    apply IH; rewrite Ht; [exact Hall|].
    unfold task_count in *. rewrite filter_cons, Hsome in Hlen.
    destruct (decide (is_Some (Some (n, a)))) as [|Hn]; [cbn in Hlen; lia|].
    exfalso. apply Hn. eauto.
  - intros. discriminate.
  - intros st rest o w n a b ts _ Hts Hst Hall _. exfalso.
    rewrite Hts in Hall. apply Forall_cons in Hall as [Hb _].
    apply (settle_terminates n) in Hb. contradiction.
Qed.

(** ** What a stream receives *)

Lemma tracks_init (sid : string) (w : World) : tracks sid w [] w.
Proof.
  split; [lia|]. intros ref s Hs. exists [], [], []. unfold base. rewrite Hs.
  repeat split; [symmetry; apply app_nil_r|constructor].
Qed.

(** Only the streams and the map matter. *)
Lemma tracks_frame (sid : string) (w0 : World) (P : list ProgressUpdate) (w w' : World) :
  streams w' = streams w -> progressStreams w' = progressStreams w ->
  tracks sid w0 P w -> tracks sid w0 P w'.
Proof. unfold tracks. intros -> ->. tauto. Qed.

(** Losing entries or closing streams, with the queues kept. *)
Lemma tracks_weaken (sid : string) (w0 : World) (P : list ProgressUpdate) (w w' : World) :
  length (streams w') = length (streams w) ->
  (forall ref s', streams w' !! ref = Some s' ->
     exists s, streams w !! ref = Some s /\ queue s' = queue s
               /\ (closed s' = false -> closed s = false)) ->
  (forall ref, progressStreams w' !! sid = Some ref -> progressStreams w !! sid = Some ref) ->
  tracks sid w0 P w -> tracks sid w0 P w'.
Proof.
  intros Hlen Hst Hmap [Hl H]. split; [lia|].
  intros ref s' Hs'. destruct (Hst ref s' Hs') as (s & Hs & Hq & Hc).
  destruct (H ref s Hs) as (a & seg & b & HP & Hqs & Ha & Hb).
  exists a, seg, b. repeat split; [exact HP|congruence|exact Ha|].
  intros Hreg Hopen. apply Hb; auto.
Qed.

Lemma tracks_more (sid : string) (w0 : World) (P : list ProgressUpdate) (w : World)
    (u : ProgressUpdate) :
  (forall ref s, progressStreams w !! sid = Some ref -> streams w !! ref = Some s ->
                 closed s = true) ->
  tracks sid w0 P w -> tracks sid w0 (P ++ [u]) w.
Proof.
  intros Hnone [Hl H]. split; [exact Hl|].
  intros ref s Hs. destruct (H ref s Hs) as (a & seg & b & HP & Hqs & Ha & Hb).
  exists a, seg, (b ++ [u]). repeat split; [|exact Hqs|exact Ha|].
  - rewrite HP, <- !app_assoc. reflexivity.
  - intros Hreg Hopen. rewrite (Hnone ref s Hreg Hs) in Hopen. discriminate.
Qed.

Lemma tracks_delivered (sid : string) (w0 : World) (P : list ProgressUpdate) (w : World)
    (u : ProgressUpdate) :
  tracks sid w0 P w -> tracks sid w0 (P ++ [u]) (delivered sid u w).
Proof.
  intros Ht. unfold delivered.
  destruct (progressStreams w !! sid) as [r0|] eqn:Hreg.
  2:{ apply tracks_more; [|exact Ht]. intros ref s H. congruence. }
  destruct (streams w !! r0) as [s0|] eqn:Hs0.
  2:{ eapply tracks_weaken with (w := w); [reflexivity| | |].
      - intros ref s' H. exists s'. auto.
      - intros ref. cbn. rewrite lookup_delete_eq. discriminate.
      - apply tracks_more; [|exact Ht]. intros ref s H1 H2. congruence. }
  destruct (closed s0) eqn:Hc.
  { eapply tracks_weaken with (w := w); [reflexivity| | |].
    - intros ref s' H. exists s'. auto.
    - intros ref. cbn. rewrite lookup_delete_eq. discriminate.
    - apply tracks_more; [|exact Ht]. intros ref s H1 H2. congruence. }
  assert (Hin : tracks sid w0 (P ++ [u])
                  (with_streams
                     (<[r0 := mkStream (stream_sessionId s0) (queue s0 ++ [u]) false]>) w)).
  { destruct Ht as [Hl H]. split; [cbn; rewrite length_insert; exact Hl|].
    intros ref s Hs. cbn in Hs. destruct (decide (ref = r0)) as [->|Hne].
    - rewrite list_lookup_insert_eq in Hs by (eapply lookup_lt_Some; exact Hs0).
      injection Hs as <-. destruct (H r0 s0 Hs0) as (a & seg & b & HP & Hqs & Ha & Hb).
      rewrite (Hb Hreg Hc) in HP. exists a, (seg ++ [u]), []. cbn [queue].
      repeat split; [|rewrite Hqs, app_assoc; reflexivity|exact Ha].
      rewrite HP, !app_nil_r, app_assoc. reflexivity.
    - rewrite list_lookup_insert_ne in Hs by congruence.
      destruct (H ref s Hs) as (a & seg & b & HP & Hqs & Ha & Hb).
      exists a, seg, (b ++ [u]). repeat split; [|exact Hqs|exact Ha|].
      + rewrite HP, <- !app_assoc. reflexivity.
      + cbn. intros Hreg'. congruence. }
  destruct (isTerminal u); [|exact Hin].
  eapply tracks_frame; [| |exact Hin]; reflexivity.
Qed.

Lemma GET_state (sid : string) (w : World) :
  JsString.truthy sid = true ->
  state (GET (Some sid) w) =
  with_streams (fun l => l ++ [mkStream sid [connected] false])
    (with_progressStreams (<[sid := length (streams w)]>) w).
Proof.
  intros Hsid. unfold GET, controller_enqueue. rewrite Hsid. cbn [negb].
  rewrite bind_gets, bind_modify, bind_modify, (bind_assoc (S:=World)), bind_gets.
  cbn [streams with_streams with_progressStreams].
  rewrite lookup_app_r by lia. rewrite Nat.sub_diag. cbn [lookup list_lookup closed].
  rewrite bind_modify. cbn [ret state with_streams with_progressStreams
                              streams progressStreams timers uncaught dirs tasks node
                              stream_sessionId queue app].
  unfold with_streams, with_progressStreams.
  cbn [streams progressStreams timers uncaught dirs tasks node]. f_equal.
  rewrite insert_app_r_alt by lia. rewrite Nat.sub_diag. reflexivity.
Qed.

Lemma GET_state_rejected (sid : option string) (w : World) :
  match sid with Some s => JsString.truthy s | None => false end = false ->
  state (GET sid w) = w.
Proof.
  intros H. unfold GET. destruct sid as [s|]; [|reflexivity]. rewrite H. reflexivity.
Qed.

Lemma tracks_GET (sid : string) (w0 : World) (P : list ProgressUpdate) (w : World)
    (x : option string) :
  all_running P -> tracks sid w0 P w -> tracks sid w0 P (state (GET x w)).
Proof.
  intros HP Ht.
  destruct (match x with Some s => JsString.truthy s | None => false end) eqn:Hx.
  2:{ rewrite GET_state_rejected by exact Hx. exact Ht. }
  destruct x as [sid'|]; [|discriminate]. rewrite GET_state by exact Hx.
  destruct Ht as [Hl H]. split; [cbn; rewrite length_app; lia|].
  intros ref s Hs. cbn in Hs.
  destruct (decide (ref < length (streams w))%nat) as [Hlt|Hge].
  - rewrite lookup_app_l in Hs by exact Hlt.
    destruct (H ref s Hs) as (a & seg & b & HPeq & Hqs & Ha & Hb).
    exists a, seg, b. repeat split; [exact HPeq|exact Hqs|exact Ha|].
    cbn. intros Hreg Hopen. apply Hb; [|exact Hopen].
    destruct (decide (sid' = sid)) as [->|Hne].
    + rewrite lookup_insert_eq in Hreg. injection Hreg as <-. lia.
    + rewrite lookup_insert_ne in Hreg by exact Hne. exact Hreg.
  - rewrite lookup_app_r in Hs by lia.
    destruct (ref - length (streams w))%nat as [|k] eqn:Hk; [|destruct k; discriminate Hs].
    injection Hs as <-. exists P, [], []. cbn [queue].
    unfold base. rewrite lookup_ge_None_2 by lia.
    repeat split; [rewrite !app_nil_r; reflexivity|exact HP].
Qed.

Lemma tracks_cancel (sid : string) (w0 : World) (P : list ProgressUpdate) (w : World)
    (ref : nat) :
  tracks sid w0 P w -> tracks sid w0 P (state (stream_cancel ref w)).
Proof.
  intros Ht. unfold stream_cancel. rewrite bind_gets.
  destruct (streams w !! ref) as [s0|] eqn:Hs0; [|exact Ht].
  destruct (closed s0) eqn:Hc; [exact Ht|].
  rewrite bind_modify. cbn [modify state].
  eapply tracks_weaken; [| | |exact Ht].
  - cbn. apply length_insert.
  - intros r s' Hs'. cbn in Hs'. destruct (decide (r = ref)) as [->|Hne].
    + rewrite list_lookup_insert_eq in Hs' by (eapply lookup_lt_Some; exact Hs0).
      injection Hs' as <-. exists s0. cbn. repeat split; [exact Hs0|discriminate].
    + rewrite list_lookup_insert_ne in Hs' by congruence. exists s'. auto.
  - intros r. cbn. intros Hr. apply lookup_delete_Some in Hr as [_ Hr]. exact Hr.
Qed.

Lemma tracks_fireTimer (sid : string) (w0 : World) (P : list ProgressUpdate) (w : World) :
  tracks sid w0 P w -> tracks sid w0 P (state (fireTimer w)).
Proof.
  intros Ht. unfold fireTimer, timeout_callback, controller_close. rewrite bind_gets.
  destruct (timers w) as [|t rest] eqn:Htimers; [exact Ht|].
  rewrite bind_modify, try_catch_eq, (bind_assoc (S:=World)), bind_gets.
  cbn [with_timers streams].
  destruct (streams w !! timer_stream t) as [s0|] eqn:Hs0.
  2:{ rewrite bind_throw. cbn [result state modify].
      eapply tracks_frame; [| |exact Ht]; reflexivity. }
  destruct (closed s0) eqn:Hc.
  { rewrite bind_throw. cbn [result state modify].
    eapply tracks_frame; [| |exact Ht]; reflexivity. }
  rewrite bind_modify. cbn [modify result state].
  eapply tracks_weaken; [| | |exact Ht].
  - cbn. apply length_insert.
  - intros r s' Hs'. cbn in Hs'. destruct (decide (r = timer_stream t)) as [->|Hne].
    + rewrite list_lookup_insert_eq in Hs' by (eapply lookup_lt_Some; exact Hs0).
      injection Hs' as <-. exists s0. cbn. repeat split; [exact Hs0|discriminate].
    + rewrite list_lookup_insert_ne in Hs' by congruence. exists s'. auto.
  - intros r. cbn. intros Hr. apply lookup_delete_Some in Hr as [_ Hr]. exact Hr.
Qed.

Lemma all_running_snoc (P : list ProgressUpdate) (u : ProgressUpdate) :
  all_running P -> status u = Running -> all_running (P ++ [u]).
Proof. intros HP Hu. apply Forall_app. split; [exact HP|]. constructor; [exact Hu|constructor]. Qed.

Lemma tracks_loop (sid : string) (w0 : World) (o : ScrapingOrchestrator) (n : string)
    (evs : list LoopEvent) :
  sessionId o = sid ->
  forall (P : list ProgressUpdate) (w : World),
    all_running P -> tracks sid w0 P w ->
    tracks sid w0 (P ++ chunk_updates o n evs) (loop_world o n evs w).
Proof.
  intros Hsid. induction evs as [|ev evs IH]; intros P w HP Ht.
  - cbn. rewrite app_nil_r. exact Ht.
  - destruct ev as [d|d|x|ref|]; cbn [chunk_updates loop_world].
    + rewrite (app_assoc P [_] _ : P ++ _ :: _ = _). apply IH.
      * apply all_running_snoc; [exact HP|reflexivity].
      * rewrite Hsid. apply tracks_delivered. exact Ht.
    + apply IH; assumption.
    + apply IH; [exact HP|]. apply tracks_GET; assumption.
    + apply IH; [exact HP|]. apply tracks_cancel; assumption.
    + apply IH; [exact HP|]. apply tracks_fireTimer; assumption.
Qed.

Lemma tracks_execPlan (sid : string) (w0 : World) (stages : list Stage)
    (o : ScrapingOrchestrator) (w : World) :
  forall P : list ProgressUpdate,
    sessionId o = sid -> all_running P -> tracks sid w0 P w ->
    tracks sid w0 (P ++ published (log (execPlan stages (o, w))))
      (snd (state (execPlan stages (o, w)))).
Proof.
  plan_induction stages o w.
  - intros o w P Hsid HP Ht. cbn [log state snd]. rewrite published_publish.
    rewrite Hsid. apply tracks_delivered. exact Ht.
  - intros st rest o w _ IH P Hsid HP Ht. cbn [prepend log state app].
    rewrite published_publish, (app_assoc P [_] _ : P ++ _ :: _ = _).
    apply IH; [exact Hsid|apply all_running_snoc; [exact HP|reflexivity]|].
    unfold after_label. rewrite Hsid. apply tracks_delivered. exact Ht.
  - intros st rest o w n a _ _ P Hsid HP Ht. cbn [log state snd].
    rewrite published_publish. unfold after_label. rewrite Hsid.
    apply tracks_delivered. exact Ht.
  - intros st rest o w n a b ts out _ _ _ IH P Hsid HP Ht. cbn [prepend log state].
    rewrite published_app, published_stage_log, app_assoc.
    apply IH; [exact Hsid| |].
    + apply Forall_app. split; [exact HP|].
      constructor; [reflexivity|apply chunk_updates_running].
    + rewrite (app_assoc P [_] _ : P ++ _ :: _ = _).
      unfold after_task. apply tracks_loop; [exact Hsid| |].
      * apply all_running_snoc; [exact HP|reflexivity].
      * eapply tracks_frame; [reflexivity|reflexivity|].
        unfold after_label. rewrite Hsid. apply tracks_delivered. exact Ht.
  - intros st rest o w n a b ts e _ _ _ P Hsid HP Ht. cbn [log state snd].
    rewrite published_stage_log, (app_assoc P [_] _ : P ++ _ :: _ = _).
    unfold after_task. apply tracks_loop; [exact Hsid| |].
    + apply all_running_snoc; [exact HP|reflexivity].
    + eapply tracks_frame; [reflexivity|reflexivity|].
      unfold after_label. rewrite Hsid. apply tracks_delivered. exact Ht.
  - intros st rest o w n a b ts _ _ _ P Hsid HP Ht. cbn [log state snd].
    rewrite published_stage_log, (app_assoc P [_] _ : P ++ _ :: _ = _).
    unfold after_task. apply tracks_loop; [exact Hsid| |].
    + apply all_running_snoc; [exact HP|reflexivity].
    + eapply tracks_frame; [reflexivity|reflexivity|].
      unfold after_label. rewrite Hsid. apply tracks_delivered. exact Ht.
Qed.

(** ** The promise [POST] leaves running, as a function of the state *)

Lemma runWorkflow_eq (params : ScrapingRequest) (o : ScrapingOrchestrator) (w : World) :
  runWorkflow params (o, w) =
  let r := execPlan (stages_of params) (o, w) in
  match result r with
  | Threw e =>
      mkOut (Threw e)
        (fst (state r),
         delivered (sessionId (fst (state r))) (error_update (fst (state r)) e)
           (snd (state r)))
        (log r ++ [ActPublish (sessionId (fst (state r))) (error_update (fst (state r)) e)])
  | _ => r
  end.
Proof.
  rewrite runWorkflow_stages, try_catch_eq. cbv zeta.
  destruct (execPlan (stages_of params) (o, w)) as [res [o' w'] l].
  cbn [result state log fst snd]. destruct res as [[]|e|]; [reflexivity| |reflexivity].
  unfold rethrow. rewrite bind_eq, updateProgress_eq. cbv zeta.
  cbn [result state log throw]. rewrite app_nil_r. reflexivity.
Qed.

Lemma background_eq (sid : string) (params : ScrapingRequest) (w : World) :
  background sid params w =
  let r := the_run sid params w in
  match result r with
  | Threw e =>
      mkOut (Ok tt)
        (delivered sid (fallback_update e)
           (delivered (sessionId (fst (state r))) (error_update (fst (state r)) e)
              (snd (state r))))
        (log r ++ [ActPublish (sessionId (fst (state r))) (error_update (fst (state r)) e);
                   ActPublish sid (fallback_update e)])
  | _ => mkOut (Ok tt) (snd (state r)) (log r)
  end.
Proof.
  unfold background, detach, the_run. cbv zeta.
  set (run := withThis (new_ScrapingOrchestrator sid) (runWorkflow params)).
  rewrite try_catch_eq.
  assert (Hrun : run w =
                 let r := execPlan (stages_of params) (new_ScrapingOrchestrator sid, w) in
                 match result r with
                 | Threw e =>
                     mkOut (Threw e)
                       (delivered (sessionId (fst (state r))) (error_update (fst (state r)) e)
                          (snd (state r)))
                       (log r ++ [ActPublish (sessionId (fst (state r)))
                                    (error_update (fst (state r)) e)])
                 | Ok a => mkOut (Ok a) (snd (state r)) (log r)
                 | Stuck => mkOut Stuck (snd (state r)) (log r)
                 end).
  { unfold run, withThis. rewrite runWorkflow_eq. cbv zeta.
    destruct (execPlan (stages_of params) (new_ScrapingOrchestrator sid, w))
      as [res [o' w'] l].
    cbn [result state log fst snd]. destruct res; reflexivity. }
  rewrite Hrun. cbv zeta.
  destruct (execPlan (stages_of params) (new_ScrapingOrchestrator sid, w))
    as [res [o' w'] l].
  cbn [result state log fst snd].
  destruct res as [[]|e|]; cbn [result state log]; [reflexivity| |reflexivity].
  unfold workflowFailed. rewrite sendProgressUpdate_eq. cbn [result state log].
  rewrite <- app_assoc. reflexivity.
Qed.

(** ** Where a run ends *)

Lemma execPlan_ok_step (stages : list Stage) (o : ScrapingOrchestrator) (w : World) :
  forall a, result (execPlan stages (o, w)) = Ok a ->
    currentStep (fst (state (execPlan stages (o, w)))) = last_step o stages.
Proof.
  plan_induction stages o w.
  - reflexivity.
  - intros st rest o w _ IH a Ha. cbn [prepend result state] in *. exact (IH a Ha).
  - discriminate.
  - intros st rest o w n a b ts out _ _ _ IH x Hx. cbn [prepend result state] in *.
    exact (IH x Hx).
  - discriminate.
  - discriminate.
Qed.

Lemma execPlan_step_le (hi : Z) (stages : list Stage) (o : ScrapingOrchestrator) (w : World) :
  Forall (fun st => st_step st <= hi) stages -> currentStep o <= hi ->
  currentStep (fst (state (execPlan stages (o, w)))) <= hi.
Proof.
  plan_induction stages o w.
  - intros o w _ H. exact H.
  - intros st rest o w _ IH Hall _. inversion Hall; subst. cbn [prepend state].
    apply IH; assumption.
  - intros st rest o w n a _ _ Hall _. inversion Hall; subst. assumption.
  - intros st rest o w n a b ts out _ _ _ IH Hall _. inversion Hall; subst.
    cbn [prepend state]. apply IH; assumption.
  - intros st rest o w n a b ts e _ _ _ Hall _. inversion Hall; subst. assumption.
  - intros st rest o w n a b ts _ _ _ Hall _. inversion Hall; subst. assumption.
Qed.

(** ** The six stages of [runWorkflow] *)

Lemma stages_of_steps (params : ScrapingRequest) :
  st_step <$> stages_of params = [1; 2; 3; 4; 5; 6].
Proof. unfold stages_of. destruct (isBlinkit (scrapeSite params)); reflexivity. Qed.

Lemma stages_of_sorted (params : ScrapingRequest) :
  StronglySorted Z.le (st_step <$> stages_of params).
Proof.
  rewrite stages_of_steps. repeat (constructor; [|repeat constructor; lia]). constructor.
Qed.

Lemma stages_of_first (params : ScrapingRequest) (o : ScrapingOrchestrator) :
  first_step o (stages_of params) = 1.
Proof. unfold stages_of. destruct (isBlinkit (scrapeSite params)); reflexivity. Qed.

Lemma stages_of_last (params : ScrapingRequest) (o : ScrapingOrchestrator) :
  last_step o (stages_of params) = 6.
Proof. unfold stages_of. destruct (isBlinkit (scrapeSite params)); reflexivity. Qed.

Lemma stages_of_le (params : ScrapingRequest) :
  Forall (fun st => st_step st <= 6) (stages_of params).
Proof.
  unfold stages_of. destruct (isBlinkit (scrapeSite params)); repeat constructor; cbn; lia.
Qed.

Lemma stages_of_count (params : ScrapingRequest) : (task_count (stages_of params) <= 6)%nat.
Proof.
  unfold stages_of. destruct (isBlinkit (scrapeSite params)); vm_compute; lia.
Qed.

Lemma the_run_facts (sid : string) (params : ScrapingRequest) (w : World) :
  run_facts sid w (the_run sid params w).
Proof.
  unfold the_run.
  destruct (execPlan_keeps (stages_of params) (new_ScrapingOrchestrator sid) w)
    as (H1 & H2 & H3 & H4).
  split; try assumption.
  - rewrite <- (stages_of_first params (new_ScrapingOrchestrator sid)).
    apply execPlan_steps, stages_of_sorted.
  - apply execPlan_step_le; [apply stages_of_le|cbn; lia].
  - intros a Ha. rewrite (execPlan_ok_step _ _ _ a Ha). apply stages_of_last.
  - apply (execPlan_totals (stages_of params) (new_ScrapingOrchestrator sid) w).
Qed.

(** ** The workflow does not depend on the hub *)

Lemma same_outside_sym (w w' : World) : same_outside w w' -> same_outside w' w.
Proof. unfold same_outside. intuition congruence. Qed.

Lemma same_outside_delivered (sid sid' : string) (u u' : ProgressUpdate) (w w2 : World) :
  same_outside w w2 -> same_outside (delivered sid u w) (delivered sid' u' w2).
Proof.
  intros H. eapply same_outside_trans; [apply same_outside_sym, delivered_outside|].
  eapply same_outside_trans; [exact H|apply delivered_outside].
Qed.

Lemma same_outside_after_task o st w w2 n b ts :
  same_outside w w2 -> same_outside (after_task o st w n b ts) (after_task o st w2 n b ts).
Proof.
  intros (_ & Hn & Hd).
  destruct (after_task_outside o st w n b ts) as (H1 & H2 & H3).
  destruct (after_task_outside o st w2 n b ts) as (H1' & H2' & H3').
  repeat split; congruence.
Qed.

Lemma execPlan_any_hub (stages : list Stage) (o : ScrapingOrchestrator) (w : World) :
  forall w2, same_outside w w2 ->
    result (execPlan stages (o, w2)) = result (execPlan stages (o, w))
    /\ log (execPlan stages (o, w2)) = log (execPlan stages (o, w))
    /\ fst (state (execPlan stages (o, w2))) = fst (state (execPlan stages (o, w)))
    /\ same_outside (snd (state (execPlan stages (o, w))))
         (snd (state (execPlan stages (o, w2)))).
Proof.
  plan_induction stages o w.
  - intros o w w2 H. rewrite execPlan_nil. cbn [result state log fst snd].
    repeat split; try reflexivity; apply (same_outside_delivered _ _ _ _ _ _ H).
  - intros st rest o w Htask IH w2 H. rewrite execPlan_cons, Htask. cbv zeta.
    cbn [prepend result state log].
    destruct (IH (after_label o st w2)) as (H1 & H2 & H3 & H4);
      [apply same_outside_delivered, H|].
    fold (after_label o st w2). rewrite H1, H2, H3.
    split; [reflexivity|split; [reflexivity|split; [reflexivity|exact H4]]].
  - intros st rest o w n a Htask Hts w2 H. rewrite execPlan_cons, Htask. cbv zeta.
    destruct H as (Ht & Hn & Hd). rewrite Ht, Hts. cbn [result state log fst snd].
    unfold spawn_action. rewrite Hn. repeat split; try reflexivity;
      apply same_outside_delivered; repeat split; assumption.
  - intros st rest o w n a b ts out Htask Hts Hok IH w2 H.
    rewrite execPlan_cons, Htask. cbv zeta.
    pose proof H as (Ht & Hn & Hd). rewrite Ht, Hts, Hok. cbn [prepend result state log].
    destruct (IH (after_task o st w2 n b ts)) as (H1 & H2 & H3 & H4);
      [apply same_outside_after_task, H|].
    fold (after_label o st w2). fold (after_task o st w2 n b ts).
    rewrite H1, H2, H3. unfold stage_log, spawn_action. rewrite Hn.
    split; [reflexivity|split; [reflexivity|split; [reflexivity|exact H4]]].
  - intros st rest o w n a b ts e Htask Hts He w2 H.
    rewrite execPlan_cons, Htask. cbv zeta.
    pose proof H as (Ht & Hn & Hd). rewrite Ht, Hts, He. cbn [result state log fst snd].
    unfold stage_log, spawn_action. rewrite Hn. repeat split; try reflexivity.
    all: apply (same_outside_after_task o st w w2 n b ts H).
  - intros st rest o w n a b ts Htask Hts He w2 H.
    rewrite execPlan_cons, Htask. cbv zeta.
    pose proof H as (Ht & Hn & Hd). rewrite Ht, Hts, He. cbn [result state log fst snd].
    unfold stage_log, spawn_action. rewrite Hn. repeat split; try reflexivity.
    all: apply (same_outside_after_task o st w w2 n b ts H).
Qed.

Lemma runWorkflow_any_hub (params : ScrapingRequest) (o : ScrapingOrchestrator) (h w : World) :
  result (runWorkflow params (o, with_hub_of h w)) = result (runWorkflow params (o, w))
  /\ log (runWorkflow params (o, with_hub_of h w)) = log (runWorkflow params (o, w)).
Proof.
  rewrite !runWorkflow_eq. cbv zeta.
  destruct (execPlan_any_hub (stages_of params) o w (with_hub_of h w))
    as (H1 & H2 & H3 & _); [repeat split|].
  destruct (execPlan (stages_of params) (o, with_hub_of h w)) as [r2 [o2 w2] l2].
  destruct (execPlan (stages_of params) (o, w)) as [r1 [o1 w1] l1].
  cbn [result state log fst snd] in *. subst.
  destruct r1; split; reflexivity.
Qed.

(** ** How a run ends, from the child processes it spawned *)

Lemma planned_spawns_stages_of (nd : Node) (params : ScrapingRequest) :
  planned_spawns nd (stages_of params) = pipeline nd params.
Proof. unfold stages_of, pipeline. destruct (isBlinkit (scrapeSite params)); reflexivity. Qed.

Lemma planned_spawns_cons_task nd st rest n a :
  st_task st = Some (n, a) ->
  planned_spawns nd (st :: rest) = (st_step st, scriptPath nd n :: a) :: planned_spawns nd rest.
Proof. intros H. unfold planned_spawns. cbn. rewrite H. reflexivity. Qed.

Lemma planned_spawns_cons_none nd st rest :
  st_task st = None -> planned_spawns nd (st :: rest) = planned_spawns nd rest.
Proof. intros H. unfold planned_spawns. cbn. rewrite H. reflexivity. Qed.

Lemma settle_ok_succeeds (n : string) (b : Behaviour) (out : string) :
  settle n b = Ok out -> succeeds b = true.
Proof.
  unfold succeeds, settle. destruct (ending b) as [[[| |]|]| | |]; try discriminate. reflexivity.
Qed.

(** How a run ends, read off the child processes it spawned: when it
    returns, every script of the plan was spawned and every child exited
    with code 0; when it throws, what is thrown is the failure of the
    child spawned last, and the step is the one of that spawn. *)
Lemma execPlan_outcome (stages : list Stage) (o : ScrapingOrchestrator) (w : World) :
  match result (execPlan stages (o, w)) with
  | Ok _ =>
      spawned (log (execPlan stages (o, w))) = planned_spawns (node w) stages
      /\ Forall (fun b => succeeds b = true)
           (take (length (spawned (log (execPlan stages (o, w))))) (tasks w))
  | Threw e =>
      exists i k n rest b,
        spawned (log (execPlan stages (o, w))) !! i = Some (k, scriptPath (node w) n :: rest)
        /\ length (spawned (log (execPlan stages (o, w)))) = S i
        /\ tasks w !! i = Some b
        /\ settle n b = Threw e
        /\ currentStep (fst (state (execPlan stages (o, w)))) = k
  | Stuck => True
  end.
Proof.
  plan_induction stages o w.
  - intros o w. cbn [result log]. split; [reflexivity|constructor].
  - intros st rest o w Hnone IH. destruct (after_label_outside o st w) as (Ht & Hn & _).
    cbn [prepend log result state] in *. cbn [spawned omap app] in IH |- *.
    rewrite Ht, Hn in IH. rewrite (planned_spawns_cons_none _ _ _ Hnone). exact IH.
  - intros. exact I.
  - intros st rest o w n a b ts out Hsome Hts Hok IH.
    destruct (after_task_outside o st w n b ts) as (Ht & Hn & _).
    cbn [prepend log result state] in *.
    rewrite spawned_app, spawned_stage_log. cbn [app]. rewrite Ht, Hn in IH.
    destruct (result (execPlan rest (at_step o (st_step st), after_task o st w n b ts)))
      as [x|e|]; [| |exact I].
    + destruct IH as [H1 H2]. rewrite (planned_spawns_cons_task _ _ _ _ _ Hsome), H1, Hts.
      split; [reflexivity|]. cbn [length take]. constructor.
      * exact (settle_ok_succeeds n b out Hok).
      * rewrite <- H1. exact H2.
    + destruct IH as (i & k & n' & rest' & b' & H1 & H2 & H3 & H4 & H5).
      exists (S i), k, n', rest', b'. rewrite Hts. cbn [length].
      repeat split; [exact H1|congruence|exact H3|exact H4|exact H5].
  - intros st rest o w n a b ts e Hsome Hts He. cbn [result log state fst].
    rewrite spawned_stage_log. exists 0%nat, (st_step st), n, a, b. rewrite Hts.
    repeat split. exact He.
  - intros. exact I.
Qed.

(** * The claims *)

(** ** C4: subscribing to a session id that has a subscriber *)

(** C4, counterexample.  A second [GET] for a session id that already has
    a registered stream does not fail: it answers 200 with a new stream
    and the map entry of the first stream is replaced. *)
Lemma C4_second_subscribe_replaces :
  let w1 := state (GET (Some "s1") empty_world) in
  progressStreams w1 !! "s1" = Some 0%nat
  /\ result (GET (Some "s1") w1) = Ok (mkResponse 200 (EventStream 1))
  /\ progressStreams (state (GET (Some "s1") w1)) !! "s1" = Some 1%nat.
Proof. vm_compute. repeat split. Qed.

(** C4, amended.  [GET] with a non-empty session id never fails: it
    creates a new stream that holds the connection message, and maps the
    session id to it, whatever was registered for that id before; the
    streams that existed are left as they were. *)
Theorem C4_subscribe_always_registers (sid : string) (w : World) :
  JsString.truthy sid = true ->
  result (GET (Some sid) w) = Ok (mkResponse 200 (EventStream (length (streams w))))
  /\ log (GET (Some sid) w) = []
  /\ progressStreams (state (GET (Some sid) w))
     = <[sid := length (streams w)]> (progressStreams w)
  /\ streams (state (GET (Some sid) w)) = streams w ++ [mkStream sid [connected] false].
Proof.
  intros Hsid. rewrite (GET_state sid w Hsid).
  split; [|split; [|split; reflexivity]].
  - unfold GET, controller_enqueue. rewrite Hsid. cbn [negb].
    rewrite bind_gets, bind_modify, bind_modify, (bind_assoc (S:=World)), bind_gets.
    cbn [streams with_streams with_progressStreams].
    rewrite lookup_app_r by lia. rewrite Nat.sub_diag. reflexivity.
  - destruct (GET_quiet (Some sid) w) as (r & _ & Hl & _). exact Hl.
Qed.

Lemma C4_subscribe_always_registers_witness :
  JsString.truthy "s1" = true
  /\ result (GET (Some "s1") empty_world) = Ok (mkResponse 200 (EventStream 0)).
Proof.
  split; [reflexivity|].
  exact (proj1 (C4_subscribe_always_registers "s1" empty_world eq_refl)).
Defined.

(** ** C5: publishing without a subscriber, and failed deliveries *)

(** C5.  [sendProgressUpdate] always returns normally.  Without an entry
    for the session id it leaves the state as it is; with an entry whose
    stream is closed (the enqueue throws) the update is dropped and the
    entry is removed; with an open stream the update is appended to its
    queue.  [updateProgress] therefore returns normally too, and the
    outcome of [runWorkflow] and everything it publishes and spawns are
    the same whatever the streams, the map and the timers are. *)
Theorem C5_publish_never_raises (sid : string) (u : ProgressUpdate) (w : World) :
  result (sendProgressUpdate sid u w) = Ok tt
  /\ match progressStreams w !! sid with
     | None => state (sendProgressUpdate sid u w) = w
     | Some ref =>
         match streams w !! ref with
         | Some s =>
             if closed s
             then state (sendProgressUpdate sid u w) = with_progressStreams (delete sid) w
             else progressStreams (state (sendProgressUpdate sid u w)) = progressStreams w
                  /\ streams (state (sendProgressUpdate sid u w))
                     = <[ref := mkStream (stream_sessionId s) (queue s ++ [u]) false]>
                         (streams w)
         | None => state (sendProgressUpdate sid u w) = with_progressStreams (delete sid) w
         end
     end
  /\ (forall o msg st d, result (updateProgress msg st d (o, w)) = Ok tt)
  /\ (forall params o h,
        result (runWorkflow params (o, with_hub_of h w)) = result (runWorkflow params (o, w))
        /\ log (runWorkflow params (o, with_hub_of h w)) = log (runWorkflow params (o, w))).
Proof.
  rewrite sendProgressUpdate_eq. cbn [result state]. split; [reflexivity|].
  split; [|split].
  - unfold delivered. destruct (progressStreams w !! sid) as [ref|]; [|reflexivity].
    destruct (streams w !! ref) as [s|]; [|reflexivity].
    destruct (closed s); [reflexivity|]. destruct (isTerminal u); split; reflexivity.
  - intros o msg st d. rewrite updateProgress_eq. reflexivity.
  - intros params o h. apply runWorkflow_any_hub.
Qed.

(** ** C6: the outcome of one script *)



(** ** What the background promise logs *)

Lemma of_workflow_publishes (sid : string) (us : list ProgressUpdate) :
  Forall of_workflow (map (ActPublish sid) us).
Proof. induction us; constructor; [exact I|assumption]. Qed.

Lemma of_workflow_stage_log o st w n a b : Forall of_workflow (stage_log o st w n a b).
Proof.
  unfold stage_log, spawn_action. repeat (constructor; [exact I|]).
  apply of_workflow_publishes.
Qed.

Lemma execPlan_of_workflow (stages : list Stage) (o : ScrapingOrchestrator) (w : World) :
  Forall of_workflow (log (execPlan stages (o, w))).
Proof.
  plan_induction stages o w.
  - intros. repeat constructor.
  - intros st rest o w _ IH. cbn [prepend log]. apply Forall_app. split; [repeat constructor|exact IH].
  - intros. repeat constructor.
  - intros st rest o w n a b ts out _ _ _ IH. cbn [prepend log].
    apply Forall_app. split; [apply of_workflow_stage_log|exact IH].
  - intros. apply of_workflow_stage_log.
  - intros. apply of_workflow_stage_log.
Qed.

Lemma background_of_workflow (sid : string) (params : ScrapingRequest) (w : World) :
  Forall of_workflow (log (background sid params w)).
Proof.
  rewrite background_eq. cbv zeta.
  pose proof (execPlan_of_workflow (stages_of params) (new_ScrapingOrchestrator sid) w) as H.
  fold (the_run sid params w) in H.
  destruct (result (the_run sid params w)); cbn [log]; [exact H| |exact H].
  apply Forall_app. split; [exact H|repeat constructor].
Qed.

Lemma of_workflow_orchestrators (l : list Action) :
  Forall of_workflow l -> orchestrators l = [].
Proof.
  induction 1 as [|a l Ha _ IH]; [reflexivity|].
  destruct a; try contradiction; exact IH.
Qed.

Lemma of_workflow_mkdirs (l : list Action) : Forall of_workflow l -> mkdirs l = [].
Proof.
  induction 1 as [|a l Ha _ IH]; [reflexivity|].
  destruct a; try contradiction; exact IH.
Qed.

Lemma background_outside (sid : string) (params : ScrapingRequest) (w : World) :
  node (state (background sid params w)) = node w
  /\ dirs (state (background sid params w)) = dirs w.
Proof.
  rewrite background_eq. cbv zeta.
  destruct (the_run_facts sid params w) as [_ _ Hn Hd _ _ _ _].
  destruct (result (the_run sid params w)) as [a|e|]; cbn [state]; [auto| |auto].
  destruct (delivered_outside sid (fallback_update e)
              (delivered (sessionId (fst (state (the_run sid params w))))
                 (error_update (fst (state (the_run sid params w))) e)
                 (snd (state (the_run sid params w))))) as (_ & Hn1 & Hd1).
  destruct (delivered_outside (sessionId (fst (state (the_run sid params w))))
              (error_update (fst (state (the_run sid params w))) e)
              (snd (state (the_run sid params w)))) as (_ & Hn2 & Hd2).
  split; congruence.
Qed.

Lemma orchestrators_app (l1 l2 : list Action) :
  orchestrators (l1 ++ l2) = orchestrators l1 ++ orchestrators l2.
Proof. apply omap_app. Qed.

Lemma orchestrators_cons (sid : string) (l : list Action) :
  orchestrators (ActNewOrchestrator sid :: l) = sid :: orchestrators l.
Proof. reflexivity. Qed.

Lemma folder_log_mkdir_only (body : JsonBody) (w : World) :
  orchestrators (folder_log body w) = [] /\ spawned (folder_log body w) = []
  /\ published (folder_log body w) = [].
Proof. unfold folder_log. destruct (bool_decide _); repeat split. Qed.

(** ** C7 and C9: when [POST] rejects a request *)

(** C7, counterexample.  A request with all four fields, a well-formed
    address and a recognized site is rejected with status 400, and no
    orchestrator is created, when the output folder does not exist and
    cannot be created.  And the session id of an accepted request need
    not be a new one: it is made from the clock and the random number
    without a look at the registry, so it can be an id that a client has
    registered already. *)
Lemma C7_valid_request_rejected :
  let body := sample_body "amazon" in
  let w := sample_world mkdir_denied [] [exits 0] in
  let w1 := state (GET (Some sample_sid) (sample_world mkdir_works [] [exits 0])) in
  fieldsMissing body = false /\ emailMalformed body = false
  /\ siteUnrecognized body = false
  /\ result (POST (Some body) w)
     = Ok (mkResponse 400 (JsonError (folderMessage "/out" "EACCES: permission denied")))
  /\ orchestrators (log (POST (Some body) w)) = []
  /\ progressStreams w1 !! sample_sid = Some 0%nat
  /\ result (POST (Some body) w1) = Ok (mkResponse 200 (JsonStarted sample_sid started)).
Proof. vm_compute. repeat split. Qed.

(** C7, amended.  For a body that cannot be parsed [POST] answers 500 and
    does nothing else.  For a body whose four fields are strings or
    absent, [POST] answers 400 exactly when a required field is missing or
    empty, the address does not match the pattern, the site is not a
    recognized one, or the output folder is absent and cannot be created.
    In the first three cases the state is as before and nothing is
    logged; in the fourth the registry is as before and no orchestrator
    is created, nothing is spawned and nothing is published.  Otherwise
    it answers 200 with the session id made from the clock and the random
    number, which is not compared with the registry, and creates one
    orchestrator for it.  The answer does not depend on what the child
    processes will do. *)
Theorem C7_POST_rejects_exactly (request_json : option JsonBody) (w : World) :
  match request_json with
  | None =>
      POST None w = mkOut (Ok (mkResponse 500 (JsonError "Internal server error"))) w []
  | Some body =>
      (if fieldsMissing body || emailMalformed body || siteUnrecognized body
       then result (POST (Some body) w)
            = Ok (mkResponse 400
                    (JsonError (if fieldsMissing body then "Missing required fields"
                                else if emailMalformed body then "Invalid email format"
                                else "Supported sites are: Amazon, Blinkit")))
            /\ state (POST (Some body) w) = w
            /\ log (POST (Some body) w) = []
       else
         match folderFailure body w with
         | Some msg =>
             result (POST (Some body) w)
             = Ok (mkResponse 400 (JsonError (folderMessage (resolvedFolder body w) msg)))
             /\ same_hub w (state (POST (Some body) w))
             /\ tasks (state (POST (Some body) w)) = tasks w
             /\ orchestrators (log (POST (Some body) w)) = []
             /\ spawned (log (POST (Some body) w)) = []
             /\ published (log (POST (Some body) w)) = []
         | None =>
             result (POST (Some body) w)
             = Ok (mkResponse 200 (JsonStarted (sessionId_of (node w)) started))
             /\ orchestrators (log (POST (Some body) w)) = [sessionId_of (node w)]
         end)
      /\ (forall ts, result (POST (Some body) (with_tasks (fun _ => ts) w))
                     = result (POST (Some body) w))
  end.
Proof.
  destruct request_json as [body|]; [|reflexivity]. split.
  - rewrite POST_eq.
    destruct (fieldsMissing body); cbn [orb]; [repeat split; eauto|].
    destruct (emailMalformed body); cbn [orb]; [repeat split; eauto|].
    destruct (siteUnrecognized body); cbn [orb]; [repeat split; eauto|].
    destruct (folder_log_mkdir_only body w) as (Ho & Hs & Hp).
    destruct (folderFailure body w) as [msg|]; cbv zeta; cbn [result state log].
    + repeat split; eauto.
    + split; [reflexivity|].
      rewrite orchestrators_app, Ho, orchestrators_cons.
      rewrite (of_workflow_orchestrators _ (background_of_workflow _ _ _)). reflexivity.
  - intros ts. rewrite !POST_eq.
    destruct (fieldsMissing body); [reflexivity|].
    destruct (emailMalformed body); [reflexivity|].
    destruct (siteUnrecognized body); [reflexivity|].
    change (folderFailure body (with_tasks (fun _ => ts) w)) with (folderFailure body w).
    destruct (folderFailure body w); reflexivity.
Qed.

Lemma mkdirs_app (l1 l2 : list Action) : mkdirs (l1 ++ l2) = mkdirs l1 ++ mkdirs l2.
Proof. apply omap_app. Qed.

(** C9.  For a request that passes the three checks on the body, [POST]
    looks at the resolved output folder before it makes a session id.
    When the folder exists no directory is made.  When it does not,
    [mkdirSync] is called on it with [recursive: true]; if that call
    fails, the answer is 400 with the message of the failure, nothing else
    is logged (no orchestrator is created) and the state is as before; if
    it succeeds, the orchestrator is created after it and the folder
    exists from then on. *)
Theorem C9_POST_creates_folder_first (body : JsonBody) (w : World) :
  fieldsMissing body = false ->
  emailMalformed body = false ->
  siteUnrecognized body = false ->
  if bool_decide (resolvedFolder body w ∈ dirs w)
  then mkdirs (log (POST (Some body) w)) = []
       /\ orchestrators (log (POST (Some body) w)) = [sessionId_of (node w)]
  else
    match mkdir_error (node w) (resolvedFolder body w) true with
    | Some msg =>
        result (POST (Some body) w)
        = Ok (mkResponse 400 (JsonError (folderMessage (resolvedFolder body w) msg)))
        /\ log (POST (Some body) w) = [ActMkdir (resolvedFolder body w) true]
        /\ state (POST (Some body) w) = w
    | None =>
        result (POST (Some body) w)
        = Ok (mkResponse 200 (JsonStarted (sessionId_of (node w)) started))
        /\ (exists rest,
              log (POST (Some body) w)
              = ActMkdir (resolvedFolder body w) true
                :: ActNewOrchestrator (sessionId_of (node w)) :: rest
              /\ mkdirs rest = [] /\ orchestrators rest = [])
        /\ resolvedFolder body w ∈ dirs (state (POST (Some body) w))
    end.
Proof.
  intros H1 H2 H3. rewrite POST_eq, H1, H2, H3. unfold folderFailure, folder_log, folder_world.
  pose proof (background_of_workflow (sessionId_of (node w)) (request_of body w)) as Hbg.
  destruct (bool_decide (resolvedFolder body w ∈ dirs w)) eqn:Hdir.
  - cbv zeta. cbn [log app]. split.
    + change (mkdirs (ActNewOrchestrator ?s :: ?l)) with (mkdirs l).
      apply of_workflow_mkdirs, Hbg.
    + rewrite orchestrators_cons, (of_workflow_orchestrators _ (Hbg _)). reflexivity.
  - destruct (mkdir_error (node w) (resolvedFolder body w) true) as [msg|].
    + repeat split.
    + cbv zeta. cbn [result state log app]. split; [reflexivity|]. split.
      * eexists. split; [reflexivity|]. split.
        -- apply of_workflow_mkdirs, Hbg.
        -- apply of_workflow_orchestrators, Hbg.
      * destruct (background_outside (sessionId_of (node w)) (request_of body w)
                    (with_dirs (fun d => {[resolvedFolder body w]} ∪ d) w)) as [_ Hd].
        rewrite Hd. cbn [dirs with_dirs].
        apply elem_of_union_l, elem_of_singleton. reflexivity.
Qed.

Lemma C9_POST_creates_folder_first_witness :
  let body := sample_body "amazon" in
  let w := sample_world mkdir_denied [] [exits 0] in
  fieldsMissing body = false /\ emailMalformed body = false
  /\ siteUnrecognized body = false
  /\ log (POST (Some body) w) = [ActMkdir "/out" true].
Proof.
  cbv zeta. split; [reflexivity|split; [reflexivity|split; [reflexivity|]]].
  exact (proj1 (proj2 (C9_POST_creates_folder_first (sample_body "amazon")
                         (sample_world mkdir_denied [] [exits 0])
                         eq_refl eq_refl eq_refl))).
Defined.

(** ** An accepted request *)

Lemma POST_accepted (body : JsonBody) (w : World) :
  accepted body w = true ->
  POST (Some body) w =
  mkOut (Ok (mkResponse 200 (JsonStarted (sessionId_of (node w)) started)))
    (state (background (sessionId_of (node w)) (request_of body w) (folder_world body w)))
    (folder_log body w
     ++ ActNewOrchestrator (sessionId_of (node w))
        :: log (background (sessionId_of (node w)) (request_of body w) (folder_world body w))).
Proof.
  unfold accepted. intros H. rewrite POST_eq.
  destruct (fieldsMissing body); [discriminate|].
  destruct (emailMalformed body); [discriminate|].
  destruct (siteUnrecognized body); [discriminate|].
  destruct (folderFailure body w); [discriminate|]. reflexivity.
Qed.

Lemma folder_world_hub (body : JsonBody) (w : World) :
  streams (folder_world body w) = streams w
  /\ progressStreams (folder_world body w) = progressStreams w
  /\ tasks (folder_world body w) = tasks w
  /\ node (folder_world body w) = node w.
Proof. unfold folder_world. destruct (bool_decide _); repeat split. Qed.

Lemma background_published (sid : string) (params : ScrapingRequest) (w : World) :
  published (log (background sid params w))
  = published (log (the_run sid params w)) ++ error_reports (the_run sid params w).
Proof.
  rewrite background_eq. cbv zeta. unfold error_reports.
  destruct (result (the_run sid params w)); cbn [log]; rewrite ?app_nil_r; try reflexivity.
  rewrite published_app. reflexivity.
Qed.

Lemma background_spawned (sid : string) (params : ScrapingRequest) (w : World) :
  spawned (log (background sid params w)) = spawned (log (the_run sid params w)).
Proof.
  rewrite background_eq. cbv zeta.
  destruct (result (the_run sid params w)); cbn [log]; try reflexivity.
  rewrite spawned_app. cbn. apply app_nil_r.
Qed.

Lemma published_orchestrator (sid : string) (l : list Action) :
  published (ActNewOrchestrator sid :: l) = published l.
Proof. reflexivity. Qed.

Lemma spawned_orchestrator (sid : string) (l : list Action) :
  spawned (ActNewOrchestrator sid :: l) = spawned l.
Proof. reflexivity. Qed.

Lemma POST_published (body : JsonBody) (w : World) :
  accepted body w = true ->
  published (log (POST (Some body) w))
  = published (log (run_of body w)) ++ error_reports (run_of body w).
Proof.
  intros H. rewrite (POST_accepted body w H). cbn [log].
  destruct (folder_log_mkdir_only body w) as (_ & _ & Hp).
  rewrite published_app, Hp. cbn [app].
  rewrite published_orchestrator.
  apply background_published.
Qed.

Lemma POST_spawned (body : JsonBody) (w : World) :
  accepted body w = true ->
  spawned (log (POST (Some body) w)) = spawned (log (run_of body w)).
Proof.
  intros H. rewrite (POST_accepted body w H). cbn [log].
  destruct (folder_log_mkdir_only body w) as (_ & Hs & _).
  rewrite spawned_app, Hs. cbn [app].
  rewrite spawned_orchestrator.
  apply background_spawned.
Qed.

Lemma run_of_facts (body : JsonBody) (w : World) :
  run_facts (sessionId_of (node w)) (folder_world body w) (run_of body w).
Proof. apply the_run_facts. Qed.

(** ** C8: the fused stage of the blinkit branch *)








(** ** C3: a failing stage ends the run *)

(** C3.  In an accepted request, let the [i]-th child process spawned be
    spawned at stage [k], and let it fail (it exits with a code other
    than 0, or cannot be started).  Then an [error] update is published
    at step [k] whose message is the error of that child; that spawn is
    the last one, so no script of a later stage is run; and no spawn and
    no update carries a step above [k]. *)
Theorem C3_failing_stage_stops_the_run (body : JsonBody) (w : World)
    (i : nat) (k : Z) (args : list string) (b : Behaviour) :
  accepted body w = true ->
  spawned (log (POST (Some body) w)) !! i = Some (k, args) ->
  tasks w !! i = Some b ->
  fails b = true ->
  (exists n e rest,
      args = scriptPath (node w) n :: rest
      /\ settle n b = Threw e
      /\ mkUpdate k 6 ("Error: " +:+ error_message e) Error None
         ∈ published (log (POST (Some body) w)))
  /\ length (spawned (log (POST (Some body) w))) = S i
  /\ Forall (fun p => fst p <= k) (spawned (log (POST (Some body) w)))
  /\ Forall (fun u => step u <= k) (published (log (POST (Some body) w))).
Proof.
  intros Hacc Hsp Hb Hf.
  rewrite (POST_published body w Hacc), (POST_spawned body w Hacc) in *.
  destruct (folder_world_hub body w) as (_ & _ & Ht & Hn).
  destruct (run_of_facts body w) as [_ Htot _ _ Hsteps _ _ _].
  unfold run_of, the_run in *.
  destruct (execPlan_failure _ _ _ i k args b Hsp) as (n & e & rest & Ha & He & Hr & Hk & Hlen);
    [rewrite Ht; exact Hb|exact Hf|].
  rewrite Hn in Ha. rewrite Hk in Hsteps. destruct Hsteps as [Hrange _ Hpub Hspawn].
  unfold error_reports. rewrite Hr. split; [|split; [exact Hlen|split]].
  - exists n, e, rest. split; [exact Ha|split; [exact He|]].
    apply elem_of_app. right. apply elem_of_cons. left. unfold error_update.
    rewrite Hk, Htot. reflexivity.
  - eapply Forall_impl; [exact Hspawn|]. unfold stage_between. cbn. intros p Hp. lia.
  - apply Forall_app. split.
    + eapply Forall_impl; [exact Hpub|]. unfold step_between. cbn. intros u Hu. lia.
    + constructor; [cbn [step error_update]; rewrite Hk; lia|].
      constructor; [cbn [step fallback_update]; lia|constructor].
Qed.

Lemma C3_failing_stage_stops_the_run_witness :
  let body := sample_body "amazon" in
  let failing := mkBehaviour [StderrData "network timeout"] (Exited (Some 1)) in
  let w := sample_world mkdir_works [] [exits 0; exits 0; failing; exits 0] in
  accepted body w = true
  /\ spawned (log (POST (Some body) w)) !! 2%nat
     = Some (3, ["/app/scripts/text_extractor.py"; "/out"])
  /\ tasks w !! 2%nat = Some failing
  /\ fails failing = true
  /\ length (spawned (log (POST (Some body) w))) = 3%nat
  /\ Forall (fun u => step u <= 3) (published (log (POST (Some body) w))).
Proof.
  cbv zeta.
  set (failing := mkBehaviour [StderrData "network timeout"] (Exited (Some 1))).
  set (w := sample_world mkdir_works [] [exits 0; exits 0; failing; exits 0]).
  assert (Ha : accepted (sample_body "amazon") w = true) by (vm_compute; reflexivity).
  assert (Hs : spawned (log (POST (Some (sample_body "amazon")) w)) !! 2%nat
               = Some (3, ["/app/scripts/text_extractor.py"; "/out"]))
    by (vm_compute; reflexivity).
  assert (Hb : tasks w !! 2%nat = Some failing) by reflexivity.
  assert (Hf : fails failing = true) by reflexivity.
  pose proof (C3_failing_stage_stops_the_run _ _ _ _ _ _ Ha Hs Hb Hf) as (_ & Hlen & _ & Hpub).
  repeat split; assumption.
Defined.

(** ** C10: the letter case of the site *)

Lemma lowerChar_idem (c : ascii) : JsString.lowerChar (JsString.lowerChar c) = JsString.lowerChar c.
Proof. destruct c as [[] [] [] [] [] [] [] []]; reflexivity. Qed.

Lemma toLowerCase_idem (s : string) :
  JsString.toLowerCase (JsString.toLowerCase s) = JsString.toLowerCase s.
Proof. induction s as [|c s IH]; [reflexivity|]. cbn. rewrite lowerChar_idem, IH. reflexivity. Qed.

Lemma truthy_toLowerCase (s : string) :
  JsString.truthy (JsString.toLowerCase s) = JsString.truthy s.
Proof. destruct s; reflexivity. Qed.

Lemma orEmpty_Some (s : string) : orEmpty (Some s) = s.
Proof. destruct s; reflexivity. Qed.

Lemma falsy_lower (v : option string) : falsy (JsString.toLowerCase <$> v) = falsy v.
Proof. destruct v as [s|]; [|reflexivity]. cbn. rewrite truthy_toLowerCase. reflexivity. Qed.

Lemma orEmpty_lower (v : option string) :
  orEmpty (JsString.toLowerCase <$> v) = JsString.toLowerCase (orEmpty v).
Proof.
  destruct v as [s|]; [|reflexivity]. cbn. rewrite truthy_toLowerCase.
  destruct (JsString.truthy s); reflexivity.
Qed.

Lemma isBlinkit_lower (s : string) : isBlinkit (JsString.toLowerCase s) = isBlinkit s.
Proof. unfold isBlinkit. rewrite !orEmpty_Some, toLowerCase_idem. reflexivity. Qed.

Lemma erase_args_publishes (sid : string) (us : list ProgressUpdate) :
  erase_args <$> map (ActPublish sid) us = map (ActPublish sid) us.
Proof. induction us as [|u us IH]; [reflexivity|]. cbn. f_equal. exact IH. Qed.

Lemma execPlan_same_scripts (stages stages' : list Stage) :
  Forall2 same_script stages stages' ->
  forall o w,
    result (execPlan stages' (o, w)) = result (execPlan stages (o, w))
    /\ state (execPlan stages' (o, w)) = state (execPlan stages (o, w))
    /\ erase_args <$> log (execPlan stages' (o, w))
       = erase_args <$> log (execPlan stages (o, w)).
Proof.
  induction 1 as [|st st' rest rest' Hst _ IH]; intros o w; [repeat split|].
  rewrite !execPlan_cons. cbv zeta.
  destruct st as [k lbl t], st' as [k' lbl' t']. destruct Hst as (Hk & Hl & Ht).
  cbn in Hk, Hl, Ht. subst k' lbl'.
  destruct t as [[n a]|], t' as [[n' a']|]; cbn in Ht; try discriminate.
  - injection Ht as <-. cbn [st_task st_step].
    change (label_update o (mkStage k lbl (Some (n, a'))))
      with (label_update o (mkStage k lbl (Some (n, a)))).
    destruct (tasks w) as [|b ts]; [repeat split|].
    change (loop_world (at_step o k) n (events b)
              (with_tasks (fun _ => ts)
                 (delivered (sessionId o) (label_update o (mkStage k lbl (Some (n, a)))) w)))
      with (after_task o (mkStage k lbl (Some (n, a))) w n b ts).
    destruct (settle n b) as [out|e|].
    + destruct (IH (at_step o k) (after_task o (mkStage k lbl (Some (n, a))) w n b ts))
        as (H1 & H2 & H3).
      cbn [prepend result state log]. rewrite H1, H2.
      split; [reflexivity|split; [reflexivity|]].
      rewrite !fmap_app, H3. f_equal.
    + repeat split.
    + repeat split.
  - cbn [st_task st_step].
    change (label_update o (mkStage k lbl None)) with (label_update o (mkStage k lbl None)).
    destruct (IH (at_step o k)
                (delivered (sessionId o) (label_update o (mkStage k lbl None)) w))
      as (H1 & H2 & H3).
    cbn [prepend result state log]. rewrite H1, H2.
    split; [reflexivity|split; [reflexivity|]].
    rewrite !fmap_app, H3. reflexivity.
Qed.

Lemma background_same_scripts (sid : string) (params params' : ScrapingRequest) (w : World) :
  Forall2 same_script (stages_of params) (stages_of params') ->
  state (background sid params' w) = state (background sid params w)
  /\ erase_args <$> log (background sid params' w)
     = erase_args <$> log (background sid params w).
Proof.
  intros H. rewrite !background_eq. cbv zeta. unfold the_run.
  destruct (execPlan_same_scripts _ _ H (new_ScrapingOrchestrator sid) w) as (H1 & H2 & H3).
  rewrite H1, H2.
  destruct (result (execPlan (stages_of params) (new_ScrapingOrchestrator sid, w)));
    cbn [state log]; (split; [reflexivity|]); [exact H3| |exact H3].
  rewrite !fmap_app, H3. reflexivity.
Qed.

Lemma stages_of_lower (params : ScrapingRequest) :
  Forall2 same_script (stages_of params) (stages_of (lower_site params)).
Proof.
  unfold stages_of, lower_site. cbn [scrapeSite]. rewrite isBlinkit_lower.
  destruct (isBlinkit (scrapeSite params)); repeat constructor.
Qed.

Lemma request_of_lowercased (body : JsonBody) (w : World) :
  request_of (lowercased body) w = lower_site (request_of body w).
Proof. unfold request_of, lower_site, lowercased. cbn. rewrite orEmpty_lower. reflexivity. Qed.

Lemma lowerChar_upperChar (c : ascii) :
  JsString.lowerChar (upperChar c) = JsString.lowerChar c.
Proof. destruct c as [[] [] [] [] [] [] [] []]; reflexivity. Qed.

Lemma toLowerCase_capitalize (mask : list bool) (s : string) :
  JsString.toLowerCase (capitalize mask s) = JsString.toLowerCase s.
Proof.
  revert mask. induction s as [|c s IH]; intros [|m mask]; try reflexivity.
  cbn [capitalize JsString.toLowerCase]. rewrite IH.
  destruct m; [rewrite lowerChar_upperChar|]; reflexivity.
Qed.

Lemma lower_site_arg_publishes (sid : string) (us : list ProgressUpdate) :
  lower_site_arg <$> map (ActPublish sid) us = map (ActPublish sid) us.
Proof. induction us as [|u us IH]; [reflexivity|]. cbn. f_equal. exact IH. Qed.

Lemma lower_site_arg_later (lo hi : Z) (l : list Action) :
  2 <= lo -> Forall (stage_between lo hi) (spawned l) -> lower_site_arg <$> l = l.
Proof.
  intros Hlo. induction l as [|a l IH]; intros H; [reflexivity|].
  destruct a as [sid u|k c args|d r|sid]; cbn [fmap list_fmap];
    try (f_equal; apply IH; exact H).
  change (spawned (ActSpawn k c args :: l)) with ((k, args) :: spawned l) in H.
  apply Forall_cons in H as [Hk H]. unfold stage_between in Hk. cbn [fst] in Hk.
  f_equal; [|apply IH; exact H].
  destruct k as [|[p|p|]|p]; try reflexivity. lia.
Qed.

Lemma lower_site_arg_rest (params : ScrapingRequest) (st2 : Stage)
    (o : ScrapingOrchestrator) (w : World) :
  st_step st2 = 2 ->
  lower_site_arg <$> log (execPlan (st2 :: common_stages params) (o, w))
  = log (execPlan (st2 :: common_stages params) (o, w)).
Proof.
  intros H2. eapply (lower_site_arg_later (st_step st2)); [lia|].
  apply (steps_spawned _ _ _ (execPlan_steps (st2 :: common_stages params) o w
           ltac:(cbn; rewrite H2; repeat (constructor; [|repeat constructor; lia]); constructor))
        ).
Qed.

(** The run of the request with the site in lowercase: same outcome,
    same state, and the same log but for the site given to
    [product_analyzer.py]. *)
Lemma the_run_lower_site (sid : string) (params : ScrapingRequest) (w : World) :
  result (the_run sid (lower_site params) w) = result (the_run sid params w)
  /\ state (the_run sid (lower_site params) w) = state (the_run sid params w)
  /\ log (the_run sid (lower_site params) w) = lower_site_arg <$> log (the_run sid params w).
Proof.
  unfold the_run, stages_of. cbn [lower_site scrapeSite]. rewrite isBlinkit_lower.
  set (o := new_ScrapingOrchestrator sid).
  destruct (isBlinkit (scrapeSite params)).
  - change (blinkit_stages (lower_site params) ++ common_stages (lower_site params))
      with (blinkit_stages params ++ common_stages params).
    split; [reflexivity|split; [reflexivity|]].
    cbn [blinkit_stages app]. rewrite execPlan_cons. cbv zeta. cbn [st_task st_step].
    destruct (tasks w) as [|b ts]; [reflexivity|].
    destruct (settle "blinkit.py" b) as [out|e|]; cbn [prepend log fmap list_fmap];
      rewrite ?fmap_app; cbn [fmap list_fmap]; rewrite ?lower_site_arg_publishes;
      try reflexivity.
    rewrite lower_site_arg_rest by reflexivity. reflexivity.
  - change (default_stages (lower_site params) ++ common_stages (lower_site params))
      with (mkStage 1 "Starting product analysis and scraping..."
              (Some ("product_analyzer.py",
                     [JsString.toLowerCase (scrapeSite params); productName params;
                      outputFolder params]))
            :: mkStage 2 "Scraping product images..."
                 (Some ("image_scraper.py", [outputFolder params]))
            :: common_stages params).
    cbn [default_stages app]. rewrite !execPlan_cons. cbv zeta. cbn [st_task st_step].
    destruct (tasks w) as [|b ts]; [repeat split|].
    destruct (settle "product_analyzer.py" b) as [out|e|]; cbn [prepend result state log];
      (split; [reflexivity|split; [reflexivity|]]);
      cbn [fmap list_fmap]; rewrite ?fmap_app; cbn [fmap list_fmap];
      rewrite ?lower_site_arg_publishes; try reflexivity.
    rewrite lower_site_arg_rest by reflexivity. reflexivity.
Qed.

Lemma background_lower_site (sid : string) (params : ScrapingRequest) (w : World) :
  state (background sid (lower_site params) w) = state (background sid params w)
  /\ log (background sid (lower_site params) w)
     = lower_site_arg <$> log (background sid params w).
Proof.
  rewrite !background_eq. cbv zeta.
  destruct (the_run_lower_site sid params w) as (H1 & H2 & H3). rewrite H1, H2, H3.
  destruct (result (the_run sid params w)); cbn [state log];
    (split; [reflexivity|]); try reflexivity.
  rewrite fmap_app. reflexivity.
Qed.

Lemma published_lower_site_arg (l : list Action) :
  published (lower_site_arg <$> l) = published l.
Proof.
  induction l as [|a l IH]; [reflexivity|].
  destruct a as [sid u|k c args|d r|sid]; cbn [fmap list_fmap lower_site_arg];
    try exact IH.
  - change (u :: published (lower_site_arg <$> l) = u :: published l). rewrite IH. reflexivity.
  - destruct k as [|[p|p|]|p]; try exact IH.
    destruct args as [|x [|y args]]; exact IH.
Qed.

Lemma folder_log_lower_site_arg (body : JsonBody) (w : World) :
  lower_site_arg <$> folder_log body w = folder_log body w.
Proof. unfold folder_log. destruct (bool_decide _); reflexivity. Qed.

(** C10.  Replacing [scrapeSite] by its lowercase form changes neither
    the answer of [POST] nor the state it leaves, nor the branch taken,
    nor the updates published; what is logged (folder creation,
    orchestrator, updates, spawns, in their order) is the same, but for
    the site handed to [product_analyzer.py], which is passed on as it
    was given.  And [blinkit] and [amazon] are recognized with any of
    their letters in capitals, [BLINKIT] for one, the first taking the
    blinkit branch and the second the other one. *)
Theorem C10_site_case_insensitive (body : JsonBody) (w : World) :
  result (POST (Some (lowercased body)) w) = result (POST (Some body) w)
  /\ state (POST (Some (lowercased body)) w) = state (POST (Some body) w)
  /\ log (POST (Some (lowercased body)) w) = lower_site_arg <$> log (POST (Some body) w)
  /\ published (log (POST (Some (lowercased body)) w)) = published (log (POST (Some body) w))
  /\ erase_args <$> log (POST (Some (lowercased body)) w)
     = erase_args <$> log (POST (Some body) w)
  /\ isBlinkit (orEmpty (body_scrapeSite (lowercased body)))
     = isBlinkit (orEmpty (body_scrapeSite body))
  /\ (forall (mask : list bool) (p f e : option string),
        siteUnrecognized (mkBody (Some (capitalize mask "blinkit")) p f e) = false
        /\ isBlinkit (orEmpty (Some (capitalize mask "blinkit"))) = true
        /\ siteUnrecognized (mkBody (Some (capitalize mask "amazon")) p f e) = false
        /\ isBlinkit (orEmpty (Some (capitalize mask "amazon"))) = false)
  /\ (forall p f e : option string,
        siteUnrecognized (mkBody (Some "BLINKIT") p f e) = false
        /\ isBlinkit (orEmpty (Some "BLINKIT")) = true
        /\ siteUnrecognized (mkBody (Some "Amazon") p f e) = false
        /\ isBlinkit (orEmpty (Some "Amazon")) = false
        /\ siteUnrecognized (mkBody (Some "flipkart") p f e) = true)
  /\ capitalize [true; true; true; true; true; true; true] "blinkit" = "BLINKIT".
Proof.
  assert (Hm : fieldsMissing (lowercased body) = fieldsMissing body).
  { unfold fieldsMissing, lowercased. cbn. rewrite falsy_lower. reflexivity. }
  assert (Hs : siteUnrecognized (lowercased body) = siteUnrecognized body).
  { unfold siteUnrecognized, lowercased. cbn. rewrite orEmpty_lower, toLowerCase_idem.
    reflexivity. }
  assert (Hlog : result (POST (Some (lowercased body)) w) = result (POST (Some body) w)
                 /\ state (POST (Some (lowercased body)) w) = state (POST (Some body) w)
                 /\ log (POST (Some (lowercased body)) w)
                    = lower_site_arg <$> log (POST (Some body) w)).
  { rewrite !POST_eq, Hm, Hs.
    change (emailMalformed (lowercased body)) with (emailMalformed body).
    change (folderFailure (lowercased body) w) with (folderFailure body w).
    change (resolvedFolder (lowercased body) w) with (resolvedFolder body w).
    change (folder_log (lowercased body) w) with (folder_log body w).
    change (folder_world (lowercased body) w) with (folder_world body w).
    rewrite request_of_lowercased.
    destruct (fieldsMissing body); [repeat split|].
    destruct (emailMalformed body); [repeat split|].
    destruct (siteUnrecognized body); [repeat split|].
    destruct (folderFailure body w);
      [cbn [result state log]; rewrite folder_log_lower_site_arg; repeat split|].
    cbv zeta. cbn [result state log].
    destruct (background_lower_site (sessionId_of (node w)) (request_of body w)
                (folder_world body w)) as (H1 & H2).
    split; [reflexivity|split; [exact H1|]].
    rewrite fmap_app, fmap_cons, folder_log_lower_site_arg, H2. reflexivity. }
  destruct Hlog as (Hr & Hst & Hl).
  split; [exact Hr|]. split; [exact Hst|]. split; [exact Hl|].
  split; [rewrite Hl; apply published_lower_site_arg|].
  split; [|split; [|split; [|split; [|reflexivity]]]].
  - rewrite Hl, <- list_fmap_compose. apply list_fmap_ext. intros _ a _.
    destruct a as [sid u|k c args|d r|sid]; try reflexivity.
    cbn [compose lower_site_arg].
    destruct k as [|[p|p|]|p]; try reflexivity.
    destruct args as [|x [|y args]]; reflexivity.
  - unfold lowercased. cbn. rewrite orEmpty_lower. apply isBlinkit_lower.
  - intros mask p f e. unfold siteUnrecognized, isBlinkit. cbn [body_scrapeSite].
    rewrite !orEmpty_Some, !toLowerCase_capitalize. repeat split.
  - intros p f e. repeat split.
Qed.

Lemma C10_site_case_insensitive_witness :
  let w := sample_world mkdir_works [] [exits 0; exits 0; exits 0; exits 0; exits 0] in
  lowercased (sample_body "BLINKIT") = sample_body "blinkit"
  /\ capitalize [true; true; true; true; true; true; true] "blinkit" = "BLINKIT"
  /\ result (POST (Some (sample_body "blinkit")) w)
     = result (POST (Some (sample_body "BLINKIT")) w)
  /\ result (POST (Some (sample_body "BLINKIT")) w)
     = Ok (mkResponse 200 (JsonStarted sample_sid started))
  /\ log (POST (Some (sample_body "blinkit")) w)
     = lower_site_arg <$> log (POST (Some (sample_body "BLINKIT")) w)
  /\ spawned (log (POST (Some (sample_body "BLINKIT")) w)) !! 0%nat
     = Some (1, ["/app/scripts/blinkit.py"; "--brand"; "soap"; "--out-dir"; "/out";
                 "--images"]).
Proof.
  cbv zeta. split; [reflexivity|]. split; [reflexivity|].
  pose proof (C10_site_case_insensitive (sample_body "BLINKIT")
                (sample_world mkdir_works [] [exits 0; exits 0; exits 0; exits 0; exits 0]))
    as (H1 & _ & H3 & _).
  split; [exact H1|]. split; [vm_compute; reflexivity|]. split; [exact H3|].
  vm_compute. reflexivity.
Defined.

(** ** What a subscriber of an accepted request receives *)

Lemma tracks_POST (body : JsonBody) (w : World) :
  accepted body w = true ->
  tracks (sessionId_of (node w)) w (published (log (POST (Some body) w)))
    (state (POST (Some body) w)).
Proof.
  intros Hacc. rewrite (POST_published body w Hacc), (POST_accepted body w Hacc).
  cbn [state]. rewrite background_eq. cbv zeta. fold (run_of body w).
  destruct (folder_world_hub body w) as (Hs & Hp & _ & _).
  assert (Hrun : tracks (sessionId_of (node w)) w (published (log (run_of body w)))
                   (snd (state (run_of body w)))).
  { apply (tracks_execPlan (sessionId_of (node w)) w (stages_of (request_of body w))
             (new_ScrapingOrchestrator (sessionId_of (node w))) (folder_world body w) []);
      [reflexivity|constructor|].
    eapply tracks_frame; [exact Hs|exact Hp|apply tracks_init]. }
  destruct (run_of_facts body w) as [Hsid _ _ _ _ _ _ _].
  unfold error_reports.
  destruct (result (run_of body w)) as [a|e|]; cbn [state]; rewrite ?app_nil_r; try exact Hrun.
  rewrite Hsid.
  change (published (log (run_of body w)) ++ [error_update (fst (state (run_of body w))) e;
                                               fallback_update e])
    with (published (log (run_of body w)) ++ [error_update (fst (state (run_of body w))) e]
          ++ [fallback_update e]).
  rewrite app_assoc. apply tracks_delivered, tracks_delivered. exact Hrun.
Qed.

(** The updates [POST] publishes: [running] ones, then the terminal ones,
    which are one [completed] update, or two [error] updates, or none
    when a child process hangs. *)
Lemma POST_published_shape (body : JsonBody) (w : World) :
  accepted body w = true ->
  exists runs,
    all_running runs
    /\ published (log (POST (Some body) w))
       = runs ++ match result (run_of body w) with
                 | Ok _ => [completed_update]
                 | Threw e =>
                     [mkUpdate (currentStep (fst (state (run_of body w)))) 6
                        ("Error: " +:+ error_message e) Error None;
                      fallback_update e]
                 | Stuck => []
                 end.
Proof.
  intros Hacc. rewrite (POST_published body w Hacc).
  destruct (run_of_facts body w) as [_ Htot _ _ _ _ Hok _].
  destruct (execPlan_statuses (stages_of (request_of body w))
              (new_ScrapingOrchestrator (sessionId_of (node w))) (folder_world body w))
    as (runs & Hruns & Heq).
  fold (the_run (sessionId_of (node w)) (request_of body w) (folder_world body w)) in Heq.
  fold (run_of body w) in Heq.
  exists runs. split; [exact Hruns|]. rewrite Heq. unfold error_reports, error_update.
  destruct (result (run_of body w)) as [a|e|] eqn:Hr.
  - rewrite app_nil_r. unfold final_update, completed_update.
    rewrite Htot, (Hok a eq_refl). reflexivity.
  - rewrite app_nil_r, Htot. reflexivity.
  - rewrite !app_nil_r. reflexivity.
Qed.

Lemma split_running (a seg runs term : list ProgressUpdate) (t : ProgressUpdate)
    (rest : list ProgressUpdate) :
  a ++ seg = runs ++ term -> all_running a -> all_running runs ->
  term = t :: rest -> status t <> Running ->
  exists runs', seg = runs' ++ term /\ all_running runs'.
Proof.
  intros Heq Ha Hruns Hterm Ht. revert runs Heq Hruns.
  induction Ha as [|x a Hx Ha IH]; intros runs Heq Hruns.
  - exists runs. split; [exact Heq|exact Hruns].
  - destruct runs as [|y runs].
    + cbn in Heq. rewrite Hterm in Heq. injection Heq as -> _. contradiction.
    + cbn in Heq. injection Heq as -> Heq. inversion Hruns; subst. apply (IH runs); assumption.
Qed.

(** ** C1: the terminal events a subscriber receives *)

(** C1, counterexample.  The subscriber of that session receives two
    events with status [error], not one: the one sent by [runWorkflow]
    and then the one sent by the handler that [POST] attaches. *)
Lemma C1_two_error_events_delivered :
  queue <$> streams (state (POST (Some (sample_body "amazon")) failing_world)) !! 0%nat
  = Some
      [ connected;
        mkUpdate 1 6 "Running product_analyzer.py..." Running (Some "12 products");
        mkUpdate 2 6 "Scraping product images..." Running None;
        mkUpdate 2 6
          "Error: Script image_scraper.py failed with code 1. Error: network timeout"
          Error None;
        mkUpdate 0 6
          "Workflow failed: Script image_scraper.py failed with code 1. Error: network timeout"
          Error None ].
Proof. vm_compute. reflexivity. Qed.

(** C1, amended.  Take an accepted request whose child processes all
    settle, and a subscriber that is still registered and open when the
    run is over.  After what its stream held before the request (or the
    connection message), it has received [running] events followed by the
    terminal events and nothing after them.  These are one [completed]
    event at step 6, and then the whole pipeline was spawned and every
    child exited with code 0; or they are two [error] events, and then
    the child spawned last failed: the first event, that of
    [runWorkflow], has the step at which that child was spawned, the
    second, that of the handler of [POST], has step 0, and both carry the
    message of that failure. *)
Theorem C1_terminal_events_come_last (body : JsonBody) (w : World) (ref : nat) (s : Stream) :
  accepted body w = true ->
  Forall (fun b => terminates b = true) (tasks w) ->
  (6 <= length (tasks w))%nat ->
  streams (state (POST (Some body) w)) !! ref = Some s ->
  progressStreams (state (POST (Some body) w)) !! sessionId_of (node w) = Some ref ->
  closed s = false ->
  exists runs term,
    queue s = base w ref ++ runs ++ term
    /\ all_running runs
    /\ ((spawned (log (POST (Some body) w)) = pipeline (node w) (request_of body w)
         /\ Forall (fun b => succeeds b = true)
              (take (length (pipeline (node w) (request_of body w))) (tasks w))
         /\ term = [completed_update])
        \/ exists i k n rest b e,
             spawned (log (POST (Some body) w)) !! i = Some (k, scriptPath (node w) n :: rest)
             /\ length (spawned (log (POST (Some body) w))) = S i
             /\ tasks w !! i = Some b
             /\ fails b = true
             /\ settle n b = Threw e
             /\ 1 <= k <= 6
             /\ term = [mkUpdate k 6 ("Error: " +:+ error_message e) Error None;
                        mkUpdate 0 6 ("Workflow failed: " +:+ error_message e) Error None]).
Proof.
  intros Hacc Hterm Hlen Hs Hreg Hopen.
  destruct (tracks_POST body w Hacc) as [_ Htr].
  destruct (Htr ref s Hs) as (a & seg & b & HP & Hq & Ha & Hb).
  rewrite (Hb Hreg Hopen), app_nil_r in HP.
  destruct (POST_published_shape body w Hacc) as (runsP & HrunsP & Hshape).
  rewrite Hshape in HP.
  destruct (run_of_facts body w) as [_ _ _ _ Hsteps Hle _ _].
  destruct (folder_world_hub body w) as (_ & _ & Ht & Hn).
  assert (Hsettles : result (run_of body w) <> Stuck).
  { apply execPlan_settles; rewrite Ht; [exact Hterm|].
    pose proof (stages_of_count (request_of body w)). lia. }
  pose proof (execPlan_outcome (stages_of (request_of body w))
                (new_ScrapingOrchestrator (sessionId_of (node w))) (folder_world body w))
    as Hout.
  fold (the_run (sessionId_of (node w)) (request_of body w) (folder_world body w)) in Hout.
  fold (run_of body w) in Hout.
  rewrite Ht, Hn, planned_spawns_stages_of, <- (POST_spawned body w Hacc) in Hout.
  destruct (result (run_of body w)) as [x|e|]; [| |contradiction].
  - destruct (split_running a seg runsP _ completed_update [] (eq_sym HP) Ha HrunsP eq_refl)
      as (runs & Hseg & Hruns); [discriminate|].
    exists runs, [completed_update]. rewrite Hq, Hseg.
    split; [reflexivity|split; [exact Hruns|]]. left. destruct Hout as [H1 H2].
    rewrite H1 in H2. auto.
  - destruct (split_running a seg runsP _ _ _ (eq_sym HP) Ha HrunsP eq_refl)
      as (runs & Hseg & Hruns); [discriminate|].
    eexists runs, _. rewrite Hq, Hseg. split; [reflexivity|split; [exact Hruns|]].
    right. destruct Hout as (i & k & n & rest & b' & H1 & H2 & H3 & H4 & H5).
    exists i, k, n, rest, b', e. rewrite H5.
    split; [exact H1|]. split; [exact H2|]. split; [exact H3|].
    split; [apply (settle_fails n); eauto|]. split; [exact H4|].
    split; [|reflexivity]. pose proof (steps_range _ _ _ Hsteps). lia.
Qed.

Lemma C1_terminal_events_come_last_witness :
  exists s,
    accepted (sample_body "amazon") failing_world = true
    /\ Forall (fun b => terminates b = true) (tasks failing_world)
    /\ (6 <= length (tasks failing_world))%nat
    /\ streams (state (POST (Some (sample_body "amazon")) failing_world)) !! 0%nat = Some s
    /\ progressStreams (state (POST (Some (sample_body "amazon")) failing_world))
       !! sessionId_of (node failing_world) = Some 0%nat
    /\ closed s = false
    /\ exists runs term,
         queue s = base failing_world 0 ++ runs ++ term /\ all_running runs
         /\ ((spawned (log (POST (Some (sample_body "amazon")) failing_world))
              = pipeline (node failing_world) (request_of (sample_body "amazon") failing_world)
              /\ Forall (fun b => succeeds b = true)
                   (take (length (pipeline (node failing_world)
                                    (request_of (sample_body "amazon") failing_world)))
                      (tasks failing_world))
              /\ term = [completed_update])
             \/ exists i k n rest b e,
                  spawned (log (POST (Some (sample_body "amazon")) failing_world)) !! i
                  = Some (k, scriptPath (node failing_world) n :: rest)
                  /\ length (spawned (log (POST (Some (sample_body "amazon")) failing_world)))
                     = S i
                  /\ tasks failing_world !! i = Some b
                  /\ fails b = true
                  /\ settle n b = Threw e
                  /\ 1 <= k <= 6
                  /\ term = [mkUpdate k 6 ("Error: " +:+ error_message e) Error None;
                             mkUpdate 0 6 ("Workflow failed: " +:+ error_message e)
                               Error None]).
Proof.
  assert (Ha : accepted (sample_body "amazon") failing_world = true)
    by (vm_compute; reflexivity).
  assert (Ht : Forall (fun b => terminates b = true) (tasks failing_world))
    by (repeat constructor).
  assert (Hl : (6 <= length (tasks failing_world))%nat) by (vm_compute; lia).
  assert (Hr : progressStreams (state (POST (Some (sample_body "amazon")) failing_world))
               !! sessionId_of (node failing_world) = Some 0%nat)
    by (vm_compute; reflexivity).
  eexists. split; [exact Ha|split; [exact Ht|split; [exact Hl|]]].
  split; [vm_compute; reflexivity|]. split; [exact Hr|]. split; [reflexivity|].
  refine (C1_terminal_events_come_last _ _ 0%nat _ Ha Ht Hl _ Hr _); reflexivity.
Defined.

(** After such a failing run two timeouts are pending for the stream.
    The first closes it and removes its entry; the second calls [close]
    on the closed stream, and what that throws is caught by nobody. *)
Example failing_run_timeouts :
  let w1 := state (POST (Some (sample_body "amazon")) failing_world) in
  let w2 := state (fireTimer w1) in
  let w3 := state (fireTimer w2) in
  length (timers w1) = 2%nat
  /\ uncaught w2 = []
  /\ progressStreams w2 !! sample_sid = None
  /\ uncaught w3 = [already_closed].
Proof. vm_compute. repeat split. Qed.

(** ** C2: the step numbers a subscriber receives *)

(** C2, counterexample.  The steps of the events the subscriber receives
    go 0, 2, 3, 3 and then back to 0. *)
Lemma C2_step_goes_back_to_zero :
  (fmap step ∘ queue)
    <$> streams (state (POST (Some (sample_body "amazon")) scenario_B_world)) !! 0%nat
  = Some [0; 2; 3; 3; 0]
  /\ ~ StronglySorted Z.le [0; 2; 3; 3; 0].
Proof.
  split; [vm_compute; reflexivity|].
  intros H. inversion H as [|x l Hs _]; subst.
  inversion Hs as [|x l _ Hall]; subst.
  rewrite Forall_forall in Hall. specialize (Hall 0).
  assert (2 <= 0) by (apply Hall; repeat constructor). lia.
Qed.

Lemma POST_rejected_state (body : JsonBody) (w : World) :
  accepted body w = false -> state (POST (Some body) w) = w.
Proof.
  unfold accepted. intros H. rewrite POST_eq.
  destruct (fieldsMissing body); [reflexivity|].
  destruct (emailMalformed body); [reflexivity|].
  destruct (siteUnrecognized body); [reflexivity|].
  destruct (folderFailure body w); [reflexivity|discriminate].
Qed.

(** The updates of [runWorkflow] itself have steps that never go down;
    the handler of [POST] may add one more update, at step 0. *)
Lemma POST_own_sorted (body : JsonBody) (w : World) :
  accepted body w = true ->
  exists own fb,
    published (log (POST (Some body) w)) = own ++ fb
    /\ StronglySorted Z.le (step <$> own)
    /\ (fb = [] \/ exists e, fb = [fallback_update e]).
Proof.
  intros Hacc. rewrite (POST_published body w Hacc).
  destruct (run_of_facts body w) as [_ _ _ _ [Hrange Hsorted Hpub _] _ _ _].
  unfold error_reports. destruct (result (run_of body w)) as [a|e|].
  - exists (published (log (run_of body w))), []. rewrite app_nil_r. auto.
  - exists (published (log (run_of body w)) ++ [error_update (fst (state (run_of body w))) e]),
      [fallback_update e].
    split; [rewrite <- app_assoc; reflexivity|]. split; [|eauto].
    rewrite fmap_app. apply StronglySorted_app_2; [|exact Hsorted|repeat constructor].
    intros x1 x2 H1 H2. apply list_elem_of_fmap in H1 as (u & -> & Hu).
    apply list_elem_of_singleton in H2 as ->.
    rewrite Forall_forall in Hpub. specialize (Hpub u Hu). unfold step_between in Hpub.
    destruct Hpub as [_ Hpub]. exact Hpub.
  - exists (published (log (run_of body w))), []. rewrite app_nil_r. auto.
Qed.

Lemma infix_before_last {A} (a seg b own fb : list A) :
  a ++ seg ++ b = own ++ fb ->
  (fb = [] \/ exists f, fb = [f]) ->
  exists evs fb' pre post,
    seg = evs ++ fb' /\ (fb' = [] \/ fb' = fb) /\ own = pre ++ evs ++ post.
Proof.
  intros Heq [-> | [f ->]].
  - rewrite app_nil_r in Heq. exists seg, [], a, b. rewrite app_nil_r. auto.
  - destruct b as [|x b _] using rev_ind.
    + rewrite app_nil_r in Heq. destruct seg as [|y seg _] using rev_ind.
      * exists [], [], own, []. rewrite !app_nil_r. auto.
      * rewrite app_assoc in Heq. apply app_inj_tail in Heq as [Heq ->].
        exists seg, [f], a, []. rewrite app_nil_r. auto.
    + rewrite !app_assoc in Heq. apply app_inj_tail in Heq as [Heq ->].
      exists seg, [], a, b. rewrite app_nil_r, <- app_assoc in *. auto.
Qed.

(** C2, amended.  Whatever the request and whenever clients connect or
    go away, every stream holds, after what it held before the request
    (or the connection message), events whose steps never go down,
    followed by at most one more event: the [error] event at step 0 that
    the handler of [POST] sends after a failure. *)
Theorem C2_steps_never_go_down_before_fallback (body : JsonBody) (w : World)
    (ref : nat) (s : Stream) :
  streams (state (POST (Some body) w)) !! ref = Some s ->
  exists evs fb,
    queue s = base w ref ++ evs ++ fb
    /\ StronglySorted Z.le (step <$> evs)
    /\ (fb = [] \/ exists e, fb = [mkUpdate 0 6 ("Workflow failed: " +:+ error_message e)
                                     Error None]).
Proof.
  intros Hs. destruct (accepted body w) eqn:Hacc.
  2:{ rewrite (POST_rejected_state body w Hacc) in Hs. exists [], [].
      unfold base. rewrite Hs, app_nil_r. repeat split; [constructor|auto]. }
  destruct (tracks_POST body w Hacc) as [_ Htr].
  destruct (Htr ref s Hs) as (a & seg & b & HP & Hq & _ & _).
  destruct (POST_own_sorted body w Hacc) as (own & fb & Hpub & Hsorted & Hfb).
  rewrite Hpub in HP.
  destruct (infix_before_last a seg b own fb (eq_sym HP)) as
    (evs & fb' & pre & post & Hseg & Hfb' & Hown).
  { destruct Hfb as [-> | [e ->]]; eauto. }
  exists evs, fb'. rewrite Hq, Hseg. split; [reflexivity|split].
  - rewrite Hown, !fmap_app in Hsorted.
    apply StronglySorted_app_1_r, StronglySorted_app_1_l in Hsorted. exact Hsorted.
  - destruct Hfb' as [-> | ->]; [auto|]. destruct Hfb as [-> | [e ->]]; eauto.
Qed.

Lemma C2_steps_never_go_down_before_fallback_witness :
  exists s,
    streams (state (POST (Some (sample_body "amazon")) scenario_B_world)) !! 0%nat = Some s
    /\ exists evs fb,
         queue s = base scenario_B_world 0 ++ evs ++ fb
         /\ StronglySorted Z.le (step <$> evs)
         /\ (fb = [] \/ exists e, fb = [mkUpdate 0 6 ("Workflow failed: " +:+ error_message e)
                                          Error None]).
Proof.
  eexists. split; [vm_compute; reflexivity|].
  refine (C2_steps_never_go_down_before_fallback (sample_body "amazon") scenario_B_world
            0%nat _ _).
  reflexivity.
Defined.

(** * Further properties of the code *)

(** ** The progress route, callback by callback *)

Lemma controller_close_eq (ref : nat) (w : World) :
  controller_close ref w =
  match streams w !! ref with
  | Some s =>
      if closed s then mkOut (Threw already_closed) w []
      else mkOut (Ok tt)
             (with_streams (<[ref := mkStream (stream_sessionId s) (queue s) true]>) w) []
  | None => mkOut (Threw already_closed) w []
  end.
Proof.
  unfold controller_close. rewrite bind_gets.
  destruct (streams w !! ref) as [s|]; [|reflexivity]. destruct (closed s); reflexivity.
Qed.

Lemma fireTimer_eq (w : World) :
  fireTimer w =
  match timers w with
  | [] => mkOut (Ok tt) w []
  | t :: rest =>
      let w1 := with_timers (fun _ => rest) w in
      match streams w !! timer_stream t with
      | Some s =>
          if closed s
          then mkOut (Ok tt) (with_uncaught (fun l => l ++ [already_closed]) w1) []
          else mkOut (Ok tt)
                 (with_progressStreams (delete (timer_sessionId t))
                    (with_streams
                       (<[timer_stream t := mkStream (stream_sessionId s) (queue s) true]>) w1))
                 []
      | None => mkOut (Ok tt) (with_uncaught (fun l => l ++ [already_closed]) w1) []
      end
  end.
Proof.
  unfold fireTimer, timeout_callback. rewrite bind_gets.
  destruct (timers w) as [|t rest]; [reflexivity|].
  rewrite bind_modify, try_catch_eq, bind_eq, controller_close_eq. cbv zeta.
  cbn [with_timers streams].
  destruct (streams w !! timer_stream t) as [s|]; [|reflexivity].
  destruct (closed s); reflexivity.
Qed.

Lemma stream_cancel_eq (ref : nat) (w : World) :
  stream_cancel ref w =
  match streams w !! ref with
  | Some s =>
      if closed s then mkOut (Ok tt) w []
      else mkOut (Ok tt)
             (with_streams (<[ref := mkStream (stream_sessionId s) (queue s) true]>)
                (with_progressStreams (delete (stream_sessionId s)) w)) []
  | None => mkOut (Ok tt) w []
  end.
Proof.
  unfold stream_cancel. rewrite bind_gets.
  destruct (streams w !! ref) as [s|]; [|reflexivity]. destruct (closed s); reflexivity.
Qed.

Lemma cleanupProgressStream_eq (sid : string) (w : World) :
  cleanupProgressStream sid w =
  match progressStreams w !! sid with
  | Some ref =>
      mkOut (Ok tt)
        (with_progressStreams (delete sid)
           (match streams w !! ref with
            | Some s =>
                if closed s then w
                else with_streams
                       (<[ref := mkStream (stream_sessionId s) (queue s) true]>) w
            | None => w
            end)) []
  | None => mkOut (Ok tt) w []
  end.
Proof.
  unfold cleanupProgressStream. rewrite bind_gets.
  destruct (progressStreams w !! sid) as [ref|]; [|reflexivity].
  rewrite bind_eq, try_catch_eq, controller_close_eq.
  destruct (streams w !! ref) as [s|]; [|reflexivity].
  destruct (closed s); reflexivity.
Qed.

(** ** The registry invariant *)

Lemma hub_ok_same_streams (w w' : World) :
  hub_ok w -> streams w' = streams w ->
  (forall sid r, progressStreams w' !! sid = Some r -> progressStreams w !! sid = Some r) ->
  (forall t, t ∈ timers w' -> t ∈ timers w) ->
  hub_ok w'.
Proof.
  intros [He Ht] Hs Hsub Htim. split.
  - intros sid r Hr. rewrite Hs. apply He, Hsub, Hr.
  - apply Forall_forall. intros t Hin. rewrite Hs.
    rewrite Forall_forall in Ht. apply Ht, Htim, Hin.
Qed.

Lemma hub_ok_enqueue (w w' : World) (ref : nat) (s : Stream) (q : list ProgressUpdate) :
  hub_ok w -> streams w !! ref = Some s ->
  streams w' = <[ref := mkStream (stream_sessionId s) q false]> (streams w) ->
  (forall sid r, progressStreams w' !! sid = Some r -> progressStreams w !! sid = Some r) ->
  (forall t, t ∈ timers w' ->
     t ∈ timers w \/ t = mkTimer ref (stream_sessionId s)) ->
  hub_ok w'.
Proof.
  intros [He Ht] Hs Hs' Hsub Htim.
  assert (Hlt : (ref < length (streams w))%nat) by (eapply lookup_lt_Some; exact Hs).
  split.
  - intros sid r Hr. rewrite Hs'. destruct (He sid r (Hsub sid r Hr)) as (s0 & H0 & Hsid & Hc).
    destruct (decide (r = ref)) as [->|Hne].
    + rewrite list_lookup_insert_eq by exact Hlt. eexists. split; [reflexivity|].
      cbn. split; congruence.
    + rewrite list_lookup_insert_ne by congruence. eauto.
  - apply Forall_forall. intros t Hin. rewrite Hs'. rewrite Forall_forall in Ht.
    destruct (Htim t Hin) as [Hold | ->].
    + destruct (Ht t Hold) as (s0 & H0 & Hsid).
      destruct (decide (timer_stream t = ref)) as [Heq|Hne].
      * rewrite Heq in *. rewrite list_lookup_insert_eq by exact Hlt.
        eexists. split; [reflexivity|]. cbn. congruence.
      * rewrite list_lookup_insert_ne by congruence. eauto.
    + cbn. rewrite list_lookup_insert_eq by exact Hlt. eexists. split; reflexivity.
Qed.

Lemma hub_ok_close (w w' : World) (ref : nat) (s : Stream) (q : list ProgressUpdate)
    (c : bool) :
  hub_ok w -> streams w !! ref = Some s ->
  streams w' = <[ref := mkStream (stream_sessionId s) q c]> (streams w) ->
  (forall sid r, progressStreams w' !! sid = Some r ->
     sid <> stream_sessionId s /\ progressStreams w !! sid = Some r) ->
  (forall t, t ∈ timers w' -> t ∈ timers w) ->
  hub_ok w'.
Proof.
  intros [He Ht] Hs Hs' Hsub Htim.
  assert (Hlt : (ref < length (streams w))%nat) by (eapply lookup_lt_Some; exact Hs).
  split.
  - intros sid r Hr. rewrite Hs'. destruct (Hsub sid r Hr) as [Hne Hold].
    destruct (He sid r Hold) as (s0 & H0 & Hsid & Hc).
    destruct (decide (r = ref)) as [->|Hr'].
    + exfalso. apply Hne. congruence.
    + rewrite list_lookup_insert_ne by congruence. eauto.
  - apply Forall_forall. intros t Hin. rewrite Hs'. rewrite Forall_forall in Ht.
    destruct (Ht t (Htim t Hin)) as (s0 & H0 & Hsid).
    destruct (decide (timer_stream t = ref)) as [Heq|Hne].
    + rewrite Heq in *. rewrite list_lookup_insert_eq by exact Hlt.
      eexists. split; [reflexivity|]. cbn. congruence.
    + rewrite list_lookup_insert_ne by congruence. eauto.
Qed.

Lemma hub_ok_delivered (sid : string) (u : ProgressUpdate) (w : World) :
  hub_ok w -> hub_ok (delivered sid u w).
Proof.
  intros H. unfold delivered.
  destruct (progressStreams w !! sid) as [ref|] eqn:Hreg; [|exact H].
  assert (Hdel : hub_ok (with_progressStreams (delete sid) w)).
  { apply (hub_ok_same_streams w); [exact H|reflexivity| |auto].
    cbn. intros sid' r Hr. apply lookup_delete_Some in Hr as [_ Hr]. exact Hr. }
  destruct (streams w !! ref) as [s|] eqn:Hs; [|exact Hdel].
  destruct (closed s); [exact Hdel|].
  destruct (proj1 H sid ref Hreg) as (s' & Hs' & Hsid & _).
  assert (s' = s) by congruence. subst s'.
  destruct (isTerminal u).
  - eapply (hub_ok_enqueue w); [exact H|exact Hs|reflexivity|auto|].
    cbn. intros t Ht. apply elem_of_app in Ht as [Ht|Ht]; [auto|].
    apply list_elem_of_singleton in Ht. right. congruence.
  - eapply (hub_ok_enqueue w); [exact H|exact Hs|reflexivity|auto|]. cbn. auto.
Qed.

Lemma hub_ok_GET (sid : option string) (w : World) :
  hub_ok w -> hub_ok (state (GET sid w)).
Proof.
  intros H.
  destruct (match sid with Some s => JsString.truthy s | None => false end) eqn:Hx.
  2:{ rewrite GET_state_rejected by exact Hx. exact H. }
  destruct sid as [sid|]; [|discriminate]. rewrite GET_state by exact Hx.
  destruct H as [He Ht]. split.
  - cbn. intros sid' r Hr. destruct (decide (sid = sid')) as [->|Hne].
    + rewrite lookup_insert_eq in Hr. injection Hr as <-.
      rewrite lookup_app_r by lia. rewrite Nat.sub_diag. eexists. split; [reflexivity|]. auto.
    + rewrite lookup_insert_ne in Hr by exact Hne.
      destruct (He sid' r Hr) as (s & Hs & Hsid & Hc). exists s.
      rewrite lookup_app_l by (eapply lookup_lt_Some; exact Hs). auto.
  - cbn. eapply Forall_impl; [exact Ht|]. cbn. intros t (s & Hs & Hsid). exists s.
    rewrite lookup_app_l by (eapply lookup_lt_Some; exact Hs). auto.
Qed.

Lemma hub_ok_cancel (ref : nat) (w : World) :
  hub_ok w -> hub_ok (state (stream_cancel ref w)).
Proof.
  intros H. rewrite stream_cancel_eq.
  destruct (streams w !! ref) as [s|] eqn:Hs; [|exact H].
  destruct (closed s); [exact H|]. cbn [state].
  eapply (hub_ok_close w); [exact H|exact Hs|reflexivity| |auto].
  cbn. intros sid r Hr. apply lookup_delete_Some in Hr as [Hne Hr]. auto.
Qed.

Lemma hub_ok_fireTimer (w : World) : hub_ok w -> hub_ok (state (fireTimer w)).
Proof.
  intros H. rewrite fireTimer_eq.
  destruct (timers w) as [|t rest] eqn:Htimers; [exact H|]. cbv zeta.
  assert (Hrest : forall t', t' ∈ rest -> t' ∈ timers w).
  { intros t' Hin. rewrite Htimers. apply elem_of_cons. auto. }
  assert (Hdrop : hub_ok (with_uncaught (fun l => l ++ [already_closed])
                            (with_timers (fun _ => rest) w))).
  { apply (hub_ok_same_streams w); [exact H|reflexivity|auto|exact Hrest]. }
  destruct (streams w !! timer_stream t) as [s|] eqn:Hs; [|exact Hdrop].
  destruct (closed s); [exact Hdrop|]. cbn [state].
  assert (Hsid : stream_sessionId s = timer_sessionId t).
  { destruct H as [_ Ht]. rewrite Htimers in Ht. apply Forall_cons in Ht as [(s' & Hs' & Ht) _].
    congruence. }
  eapply (hub_ok_close w); [exact H|exact Hs|reflexivity| |exact Hrest].
  cbn. intros sid r Hr. apply lookup_delete_Some in Hr as [Hne Hr]. split; congruence.
Qed.

Lemma hub_ok_cleanup (sid : string) (w : World) :
  hub_ok w -> hub_ok (state (cleanupProgressStream sid w)).
Proof.
  intros H. rewrite cleanupProgressStream_eq.
  destruct (progressStreams w !! sid) as [ref|] eqn:Hreg; [|exact H]. cbn [state].
  destruct (proj1 H sid ref Hreg) as (s & Hs & Hsid & Hc). rewrite Hs, Hc.
  eapply (hub_ok_close w); [exact H|exact Hs|reflexivity| |auto].
  cbn. intros sid' r Hr. apply lookup_delete_Some in Hr as [Hne Hr]. split; congruence.
Qed.

Lemma hub_ok_frame (w w' : World) :
  streams w' = streams w -> progressStreams w' = progressStreams w ->
  timers w' = timers w -> hub_ok w -> hub_ok w'.
Proof. unfold hub_ok. intros -> -> ->. tauto. Qed.

Lemma hub_ok_loop (o : ScrapingOrchestrator) (n : string) (evs : list LoopEvent) :
  forall w, hub_ok w -> hub_ok (loop_world o n evs w).
Proof.
  induction evs as [|ev evs IH]; intros w H; [exact H|].
  destruct ev as [d|d|x|ref|]; cbn [loop_world]; apply IH.
  - apply hub_ok_delivered, H.
  - exact H.
  - apply hub_ok_GET, H.
  - apply hub_ok_cancel, H.
  - apply hub_ok_fireTimer, H.
Qed.

Lemma hub_ok_after_task o st w n b ts : hub_ok w -> hub_ok (after_task o st w n b ts).
Proof.
  intros H. unfold after_task, after_label. apply hub_ok_loop.
  eapply hub_ok_frame; [reflexivity..|]. apply hub_ok_delivered, H.
Qed.

Lemma hub_ok_execPlan (stages : list Stage) (o : ScrapingOrchestrator) (w : World) :
  hub_ok w -> hub_ok (snd (state (execPlan stages (o, w)))).
Proof.
  plan_induction stages o w.
  - intros o w H. apply hub_ok_delivered, H.
  - intros st rest o w _ IH H. apply IH, hub_ok_delivered, H.
  - intros st rest o w n a _ _ H. apply hub_ok_delivered, H.
  - intros st rest o w n a b ts out _ _ _ IH H. apply IH, hub_ok_after_task, H.
  - intros st rest o w n a b ts e _ _ _ H. apply hub_ok_after_task, H.
  - intros st rest o w n a b ts _ _ _ H. apply hub_ok_after_task, H.
Qed.

Lemma hub_ok_background (sid : string) (params : ScrapingRequest) (w : World) :
  hub_ok w -> hub_ok (state (background sid params w)).
Proof.
  intros H. rewrite background_eq. cbv zeta.
  pose proof (hub_ok_execPlan (stages_of params) (new_ScrapingOrchestrator sid) w H) as Hr.
  fold (the_run sid params w) in Hr.
  destruct (result (the_run sid params w)); cbn [state]; [exact Hr| |exact Hr].
  apply hub_ok_delivered, hub_ok_delivered, Hr.
Qed.

(** ** What the registry guarantees *)

Lemma hub_ok_empty (w : World) :
  progressStreams w = ∅ -> timers w = [] -> hub_ok w.
Proof.
  intros Hp Ht. split.
  - intros sid ref H. rewrite Hp, lookup_empty in H. discriminate.
  - rewrite Ht. constructor.
Qed.

(** X1.  Each function of the progress route, and each callback it installs
    (the [cancel] of a stream and the function given to [setTimeout]),
    keeps the registry well formed: every entry of [progressStreams]
    points to an open stream made for that session id. *)
Theorem X1_progress_route_keeps_registry (w : World) :
  hub_ok w ->
  (forall sid, hub_ok (state (GET sid w)))
  /\ (forall sid u, hub_ok (state (sendProgressUpdate sid u w)))
  /\ (forall sid, hub_ok (state (cleanupProgressStream sid w)))
  /\ (forall ref, hub_ok (state (stream_cancel ref w)))
  /\ hub_ok (state (fireTimer w)).
Proof.
  intros H. split; [|split; [|split; [|split]]].
  - intros sid. apply hub_ok_GET, H.
  - intros sid u. rewrite sendProgressUpdate_eq. apply hub_ok_delivered, H.
  - intros sid. apply hub_ok_cleanup, H.
  - intros ref. apply hub_ok_cancel, H.
  - apply hub_ok_fireTimer, H.
Qed.

Lemma X1_progress_route_keeps_registry_witness :
  hub_ok empty_world /\ hub_ok (state (GET (Some "s1") empty_world)).
Proof.
  assert (H : hub_ok empty_world) by (apply hub_ok_empty; reflexivity).
  split; [exact H|].
  exact (proj1 (X1_progress_route_keeps_registry empty_world H) (Some "s1")).
Defined.

(** X2.  [POST] keeps the registry well formed, whatever the request, the
    child processes and the clients do while the workflow runs. *)
Theorem X2_POST_keeps_registry (request_json : option JsonBody) (w : World) :
  hub_ok w -> hub_ok (state (POST request_json w)).
Proof.
  intros H. destruct request_json as [body|]; [|exact H].
  rewrite POST_eq.
  destruct (fieldsMissing body); [exact H|].
  destruct (emailMalformed body); [exact H|].
  destruct (siteUnrecognized body); [exact H|].
  destruct (folderFailure body w); [exact H|]. cbv zeta. cbn [state].
  apply hub_ok_background.
  destruct (folder_world_hub body w) as (Hs & Hp & _ & _).
  eapply hub_ok_frame; [exact Hs|exact Hp| |exact H].
  unfold folder_world. destruct (bool_decide _); reflexivity.
Qed.

Lemma X2_POST_keeps_registry_witness :
  hub_ok failing_world
  /\ hub_ok (state (POST (Some (sample_body "amazon")) failing_world)).
Proof.
  assert (H : hub_ok failing_world) by (apply hub_ok_empty; reflexivity).
  split; [exact H|].
  exact (X2_POST_keeps_registry (Some (sample_body "amazon")) failing_world H).
Defined.

Lemma delivered_open (sid : string) (ref : nat) (s : Stream) (u : ProgressUpdate) (w : World) :
  progressStreams w !! sid = Some ref -> streams w !! ref = Some s -> closed s = false ->
  delivered sid u w =
  let w' := with_streams
              (<[ref := mkStream (stream_sessionId s) (queue s ++ [u]) false]>) w in
  if isTerminal u then with_timers (fun l => l ++ [mkTimer ref sid]) w' else w'.
Proof. intros Hreg Hs Hc. unfold delivered. rewrite Hreg, Hs, Hc. reflexivity. Qed.

(** X3.  In a well-formed registry an update published for a session that has
    an entry is never dropped: it is appended to the queue of the stream
    of that session, the entries stay as they are, no other stream
    changes, and no other session id is mapped to that stream. *)
Theorem X3_publish_reaches_its_session_only (sid : string) (ref : nat) (u : ProgressUpdate)
    (w : World) :
  hub_ok w ->
  progressStreams w !! sid = Some ref ->
  progressStreams (state (sendProgressUpdate sid u w)) = progressStreams w
  /\ (exists s, streams w !! ref = Some s
                /\ streams (state (sendProgressUpdate sid u w)) !! ref
                   = Some (mkStream sid (queue s ++ [u]) false))
  /\ (forall ref', ref' <> ref ->
        streams (state (sendProgressUpdate sid u w)) !! ref' = streams w !! ref')
  /\ (forall sid', sid' <> sid -> progressStreams w !! sid' <> Some ref).
Proof.
  intros H Hreg. destruct (proj1 H sid ref Hreg) as (s & Hs & Hsid & Hc).
  rewrite sendProgressUpdate_eq. cbn [state].
  rewrite (delivered_open sid ref s u w Hreg Hs Hc). cbv zeta.
  assert (Hlt : (ref < length (streams w))%nat) by (eapply lookup_lt_Some; exact Hs).
  split; [|split; [|split]].
  - destruct (isTerminal u); reflexivity.
  - exists s. split; [exact Hs|].
    destruct (isTerminal u); cbn; rewrite list_lookup_insert_eq by exact Hlt;
      rewrite Hsid; reflexivity.
  - intros ref' Hne. destruct (isTerminal u); cbn;
      rewrite list_lookup_insert_ne by congruence; reflexivity.
  - intros sid' Hne Hreg'. destruct (proj1 H sid' ref Hreg') as (s' & Hs' & Hsid' & _).
    congruence.
Qed.

Lemma X3_publish_reaches_its_session_only_witness :
  let w := state (GET (Some "s1") empty_world) in
  hub_ok w /\ progressStreams w !! "s1" = Some 0%nat
  /\ progressStreams (state (sendProgressUpdate "s1" completed_update w)) = progressStreams w.
Proof.
  cbv zeta.
  assert (H : hub_ok (state (GET (Some "s1") empty_world))).
  { apply hub_ok_GET, hub_ok_empty; reflexivity. }
  split; [exact H|]. split; [reflexivity|].
  exact (proj1 (X3_publish_reaches_its_session_only "s1" 0 completed_update _ H eq_refl)).
Defined.

Lemma closed_stream_eta (s : Stream) :
  closed s = true -> mkStream (stream_sessionId s) (queue s) true = s.
Proof. destruct s as [i q c]. cbn. intros ->. reflexivity. Qed.

Lemma open_stream_eta (s : Stream) :
  closed s = false -> mkStream (stream_sessionId s) (queue s) false = s.
Proof. destruct s as [i q c]. cbn. intros ->. reflexivity. Qed.

(** X4.  [cleanupProgressStream] never throws, also when the stream is closed
    already.  It removes the entry of the session id and leaves the
    other entries; the stream that was registered is closed with its
    queue kept, the other streams, the timeouts and the rest of the state
    are untouched; and calling it a second time changes nothing. *)
Theorem X4_cleanupProgressStream_closes_and_removes (sid : string) (w : World) :
  result (cleanupProgressStream sid w) = Ok tt
  /\ progressStreams (state (cleanupProgressStream sid w)) = delete sid (progressStreams w)
  /\ streams (state (cleanupProgressStream sid w))
     = match progressStreams w !! sid with
       | Some ref =>
           match streams w !! ref with
           | Some s => <[ref := mkStream (stream_sessionId s) (queue s) true]> (streams w)
           | None => streams w
           end
       | None => streams w
       end
  /\ timers (state (cleanupProgressStream sid w)) = timers w
  /\ uncaught (state (cleanupProgressStream sid w)) = uncaught w
  /\ same_outside w (state (cleanupProgressStream sid w))
  /\ state (cleanupProgressStream sid (state (cleanupProgressStream sid w)))
     = state (cleanupProgressStream sid w).
Proof.
  assert (Hagain : forall w', progressStreams w' !! sid = None ->
                              state (cleanupProgressStream sid w') = w').
  { intros w' H. rewrite cleanupProgressStream_eq, H. reflexivity. }
  assert (Hgone : progressStreams (state (cleanupProgressStream sid w))
                  = delete sid (progressStreams w)).
  { rewrite cleanupProgressStream_eq.
    destruct (progressStreams w !! sid) as [ref|] eqn:Hreg; cbn [state].
    - destruct (streams w !! ref) as [s|]; [destruct (closed s)|]; reflexivity.
    - symmetry. apply delete_id, Hreg. }
  split; [|split; [exact Hgone|split; [|split; [|split; [|split]]]]].
  6:{ apply Hagain. rewrite Hgone. apply lookup_delete_eq. }
  all: rewrite cleanupProgressStream_eq;
    destruct (progressStreams w !! sid) as [ref|] eqn:Hreg; cbn [result state];
    try reflexivity; try (repeat split; fail).
  all: destruct (streams w !! ref) as [s|] eqn:Hs; try reflexivity;
    try (repeat split; fail).
  all: destruct (closed s) eqn:Hc; try reflexivity; try (repeat split; fail).
  cbn. rewrite closed_stream_eta by exact Hc. symmetry. apply list_insert_id, Hs.
Qed.

(** X5.  After a [completed] or [error] update has been delivered and the
    timeout it set has run, the stream is closed with the update as its
    last chunk, the entry of the session is gone, nothing was thrown, and
    whatever is published for the session afterwards is dropped without a
    trace.  A [running] update sets no timeout. *)
Theorem X5_terminal_update_closes_stream (sid : string) (ref : nat) (s : Stream)
    (u : ProgressUpdate) (w : World) :
  progressStreams w !! sid = Some ref ->
  streams w !! ref = Some s ->
  closed s = false ->
  timers w = [] ->
  let w1 := state (sendProgressUpdate sid u w) in
  let w2 := state (fireTimer w1) in
  if isTerminal u
  then timers w1 = [mkTimer ref sid]
       /\ streams w2 = <[ref := mkStream (stream_sessionId s) (queue s ++ [u]) true]> (streams w)
       /\ progressStreams w2 = delete sid (progressStreams w)
       /\ timers w2 = []
       /\ uncaught w2 = uncaught w
       /\ (forall u', state (sendProgressUpdate sid u' w2) = w2)
  else timers w1 = [] /\ w2 = w1.
Proof.
  intros Hreg Hs Hc Ht. cbv zeta.
  assert (Hlt : (ref < length (streams w))%nat) by (eapply lookup_lt_Some; exact Hs).
  rewrite sendProgressUpdate_eq. cbn [state].
  rewrite (delivered_open sid ref s u w Hreg Hs Hc). cbv zeta.
  destruct (isTerminal u).
  - rewrite fireTimer_eq. cbn [timers with_timers with_streams]. rewrite Ht. cbn [app].
    cbv zeta. cbn [timer_stream timer_sessionId streams with_timers with_streams].
    rewrite list_lookup_insert_eq by exact Hlt. cbn [closed state stream_sessionId queue].
    split; [reflexivity|]. split; [cbn; apply list_insert_insert_eq|].
    split; [reflexivity|]. split; [reflexivity|]. split; [reflexivity|].
    intros u'. rewrite sendProgressUpdate_eq. cbn [state]. unfold delivered.
    cbn [progressStreams with_progressStreams with_streams with_timers].
    rewrite lookup_delete_eq. reflexivity.
  - split; [cbn; exact Ht|]. rewrite fireTimer_eq. cbn [timers with_streams]. rewrite Ht.
    reflexivity.
Qed.

Lemma X5_terminal_update_closes_stream_witness :
  let w := state (GET (Some "s1") empty_world) in
  let w2 := state (fireTimer (state (sendProgressUpdate "s1" completed_update w))) in
  progressStreams w !! "s1" = Some 0%nat
  /\ streams w !! 0%nat = Some (mkStream "s1" [connected] false)
  /\ timers w = []
  /\ streams w2 = [mkStream "s1" [connected; completed_update] true].
Proof.
  cbv zeta. split; [reflexivity|]. split; [reflexivity|]. split; [reflexivity|].
  exact (proj1 (proj2 (X5_terminal_update_closes_stream "s1" 0
                         (mkStream "s1" [connected] false) completed_update
                         (state (GET (Some "s1") empty_world))
                         eq_refl eq_refl eq_refl eq_refl))).
Defined.

(** X6.  When two terminal updates are delivered to a stream before the first
    timeout runs, both are in its queue and two timeouts are pending.
    The first closes the stream and removes the entry; the second calls
    [close] on the closed stream, and the [TypeError] of that call is
    caught by nobody. *)
Theorem X6_second_timeout_throws (sid : string) (ref : nat) (s : Stream)
    (u1 u2 : ProgressUpdate) (w : World) :
  progressStreams w !! sid = Some ref ->
  streams w !! ref = Some s ->
  closed s = false ->
  timers w = [] ->
  isTerminal u1 = true ->
  isTerminal u2 = true ->
  let w2 := state (sendProgressUpdate sid u2 (state (sendProgressUpdate sid u1 w))) in
  let w3 := state (fireTimer w2) in
  let w4 := state (fireTimer w3) in
  timers w2 = [mkTimer ref sid; mkTimer ref sid]
  /\ uncaught w3 = uncaught w
  /\ streams w4 = <[ref := mkStream (stream_sessionId s) (queue s ++ [u1; u2]) true]> (streams w)
  /\ progressStreams w4 = delete sid (progressStreams w)
  /\ timers w4 = []
  /\ uncaught w4 = uncaught w ++ [already_closed].
Proof.
  intros Hreg Hs Hc Ht H1 H2. cbv zeta.
  assert (Hlt : (ref < length (streams w))%nat) by (eapply lookup_lt_Some; exact Hs).
  assert (Hw2 : state (sendProgressUpdate sid u2 (state (sendProgressUpdate sid u1 w)))
                = mkWorld (progressStreams w)
                    (<[ref := mkStream (stream_sessionId s) (queue s ++ [u1; u2]) false]>
                       (streams w))
                    [mkTimer ref sid; mkTimer ref sid]
                    (uncaught w) (dirs w) (tasks w) (node w)).
  { rewrite !sendProgressUpdate_eq. cbn [state].
    rewrite (delivered_open sid ref s u1 w Hreg Hs Hc). cbv zeta. rewrite H1.
    erewrite (delivered_open sid ref _ u2);
      [|exact Hreg|cbn; apply list_lookup_insert_eq; exact Hlt|reflexivity].
    cbv zeta. rewrite H2. unfold with_timers, with_streams.
    cbn [progressStreams streams timers uncaught dirs tasks node stream_sessionId queue].
    rewrite list_insert_insert_eq, Ht, <- app_assoc. reflexivity. }
  rewrite Hw2. clear Hw2.
  rewrite (fireTimer_eq (mkWorld _ _ _ _ _ _ _)).
  cbn [timers streams timer_stream timer_sessionId]. cbv zeta.
  rewrite list_lookup_insert_eq by exact Hlt. cbn [closed state stream_sessionId queue].
  unfold with_timers, with_streams, with_progressStreams.
  cbn [progressStreams streams timers uncaught dirs tasks node].
  rewrite list_insert_insert_eq.
  rewrite (fireTimer_eq (mkWorld _ _ _ _ _ _ _)).
  cbn [timers streams timer_stream timer_sessionId]. cbv zeta.
  rewrite list_lookup_insert_eq by exact Hlt. cbn [closed state].
  unfold with_timers, with_uncaught.
  cbn [progressStreams streams timers uncaught dirs tasks node].
  repeat split.
Qed.

Lemma X6_second_timeout_throws_witness :
  let w := state (GET (Some "s1") empty_world) in
  let u1 := mkUpdate 2 6 "Error: failed" Error None in
  let u2 := mkUpdate 0 6 "Workflow failed: failed" Error None in
  let w2 := state (sendProgressUpdate "s1" u2 (state (sendProgressUpdate "s1" u1 w))) in
  progressStreams w !! "s1" = Some 0%nat
  /\ streams w !! 0%nat = Some (mkStream "s1" [connected] false)
  /\ timers w = []
  /\ uncaught (state (fireTimer (state (fireTimer w2)))) = [already_closed].
Proof.
  cbv zeta. split; [reflexivity|]. split; [reflexivity|]. split; [reflexivity|].
  exact (proj2 (proj2 (proj2 (proj2 (proj2
           (X6_second_timeout_throws "s1" 0 (mkStream "s1" [connected] false)
              (mkUpdate 2 6 "Error: failed" Error None)
              (mkUpdate 0 6 "Workflow failed: failed" Error None)
              (state (GET (Some "s1") empty_world))
              eq_refl eq_refl eq_refl eq_refl eq_refl eq_refl)))))).
Defined.

(** X7.  When a client subscribes again with the same session id and the
    first connection then goes away, the [cancel] of the first stream
    removes the entry that now belongs to the second one: the second
    stream stays open with the connection message only, and every update
    published for the session from then on is dropped. *)
Theorem X7_cancel_of_replaced_stream_unregisters (sid : string) (w : World) :
  JsString.truthy sid = true ->
  let r1 := length (streams w) in
  let w2 := state (GET (Some sid) (state (GET (Some sid) w))) in
  let w3 := state (stream_cancel r1 w2) in
  progressStreams w2 !! sid = Some (S r1)
  /\ progressStreams w3 !! sid = None
  /\ streams w3 !! r1 = Some (mkStream sid [connected] true)
  /\ streams w3 !! S r1 = Some (mkStream sid [connected] false)
  /\ (forall u, state (sendProgressUpdate sid u w3) = w3).
Proof.
  intros Hsid. cbv zeta.
  rewrite (GET_state sid (state (GET (Some sid) w)) Hsid), (GET_state sid w Hsid).
  cbn [streams with_streams with_progressStreams progressStreams].
  rewrite length_app. cbn [length]. rewrite Nat.add_1_r.
  split; [apply lookup_insert_eq|].
  rewrite stream_cancel_eq. cbn [streams with_streams with_progressStreams].
  rewrite lookup_app_l by (rewrite length_app; cbn; lia).
  rewrite lookup_app_r by lia. rewrite Nat.sub_diag.
  cbn [lookup list_lookup closed state stream_sessionId queue].
  cbn [progressStreams streams with_streams with_progressStreams].
  assert (Hgone : delete sid (<[sid := S (length (streams w))]>
                                (<[sid := length (streams w)]> (progressStreams w))) !! sid
                  = None) by apply lookup_delete_eq.
  split; [exact Hgone|]. split; [|split].
  - rewrite list_lookup_insert_eq by (rewrite !length_app; cbn; lia). reflexivity.
  - rewrite list_lookup_insert_ne by lia.
    rewrite lookup_app_r by (rewrite length_app; cbn; lia).
    rewrite length_app. cbn [length]. rewrite Nat.add_1_r, Nat.sub_diag. reflexivity.
  - intros u. rewrite sendProgressUpdate_eq. cbn [state]. unfold delivered.
    cbn [progressStreams with_streams with_progressStreams]. rewrite Hgone. reflexivity.
Qed.

Lemma X7_cancel_of_replaced_stream_unregisters_witness :
  let w3 := state (stream_cancel 0
                     (state (GET (Some "s1") (state (GET (Some "s1") empty_world))))) in
  JsString.truthy "s1" = true
  /\ progressStreams w3 !! "s1" = None
  /\ streams w3 !! 1%nat = Some (mkStream "s1" [connected] false).
Proof.
  cbv zeta. split; [reflexivity|].
  pose proof (X7_cancel_of_replaced_stream_unregisters "s1" empty_world eq_refl) as H.
  cbv zeta in H. split; [exact (proj1 (proj2 H))|exact (proj1 (proj2 (proj2 (proj2 H))))].
Defined.

Lemma publishAll_eq (sid : string) (us : list ProgressUpdate) :
  forall w, publishAll sid us w =
            mkOut (Ok tt) (foldl (fun w u => delivered sid u w) w us)
              (map (ActPublish sid) us).
Proof.
  induction us as [|u us IH]; intros w; [reflexivity|].
  cbn [publishAll foldl map]. rewrite bind_eq, sendProgressUpdate_eq.
  cbn [result state log]. rewrite IH. reflexivity.
Qed.

Lemma timeouts_for_cons (ref : nat) (sid : string) (u : ProgressUpdate)
    (us : list ProgressUpdate) :
  timeouts_for ref sid (u :: us)
  = timeouts_for ref sid [u] ++ timeouts_for ref sid us.
Proof. unfold timeouts_for. cbn. destruct (isTerminal u); reflexivity. Qed.

(** X8.  Updates published one after the other for a session whose stream is
    open are all delivered, in the order of the calls, after what the
    stream already held: nothing is lost, repeated or reordered.  The
    entries of the map stay as they are, and one timeout is set for each
    [completed] or [error] update. *)
Theorem X8_published_updates_arrive_in_order (sid : string) (us : list ProgressUpdate) :
  forall (ref : nat) (s : Stream) (w : World),
    progressStreams w !! sid = Some ref ->
    streams w !! ref = Some s ->
    closed s = false ->
    result (publishAll sid us w) = Ok tt
    /\ streams (state (publishAll sid us w))
       = <[ref := mkStream (stream_sessionId s) (queue s ++ us) false]> (streams w)
    /\ progressStreams (state (publishAll sid us w)) = progressStreams w
    /\ timers (state (publishAll sid us w)) = timers w ++ timeouts_for ref sid us
    /\ uncaught (state (publishAll sid us w)) = uncaught w.
Proof.
  intros ref s w Hreg Hs Hc. rewrite publishAll_eq. cbn [result state].
  split; [reflexivity|]. revert s w Hreg Hs Hc.
  induction us as [|u us IH]; intros s w Hreg Hs Hc.
  - cbn [foldl timeouts_for omap]. rewrite !app_nil_r, open_stream_eta by exact Hc.
    rewrite list_insert_id by exact Hs. repeat split.
  - assert (Hlt : (ref < length (streams w))%nat) by (eapply lookup_lt_Some; exact Hs).
    cbn [foldl]. rewrite (delivered_open sid ref s u w Hreg Hs Hc). cbv zeta.
    set (s1 := mkStream (stream_sessionId s) (queue s ++ [u]) false).
    set (w1 := if isTerminal u
               then with_timers (fun l => l ++ [mkTimer ref sid])
                      (with_streams (<[ref := s1]>) w)
               else with_streams (<[ref := s1]>) w).
    assert (Hw1 : progressStreams w1 = progressStreams w
                  /\ streams w1 = <[ref := s1]> (streams w)
                  /\ timers w1 = timers w ++ timeouts_for ref sid [u]
                  /\ uncaught w1 = uncaught w).
    { unfold w1, timeouts_for. destruct (isTerminal u) eqn:Hterm;
        cbn [omap list_omap]; rewrite Hterm;
        cbn [progressStreams streams timers uncaught with_timers with_streams];
        rewrite ?app_nil_r; auto. }
    destruct Hw1 as (Hp1 & Hs1 & Ht1 & Hu1).
    destruct (IH s1 w1) as (H1 & H2 & H3 & H4); [rewrite Hp1; exact Hreg| |reflexivity|].
    { rewrite Hs1. apply list_lookup_insert_eq, Hlt. }
    rewrite H1, H2, H3, H4, Hs1, Hp1, Ht1, Hu1, list_insert_insert_eq.
    unfold s1. cbn [stream_sessionId queue]. rewrite <- !app_assoc.
    rewrite (timeouts_for_cons ref sid u us). repeat split.
Qed.

Lemma X8_published_updates_arrive_in_order_witness :
  let w := state (GET (Some "s1") empty_world) in
  let us := [mkUpdate 1 6 "one" Running None; mkUpdate 2 6 "two" Running None] in
  progressStreams w !! "s1" = Some 0%nat
  /\ streams w !! 0%nat = Some (mkStream "s1" [connected] false)
  /\ streams (state (publishAll "s1" us w)) = [mkStream "s1" (connected :: us) false].
Proof.
  cbv zeta. split; [reflexivity|]. split; [reflexivity|].
  exact (proj1 (proj2 (X8_published_updates_arrive_in_order "s1" _ 0
                         (mkStream "s1" [connected] false)
                         (state (GET (Some "s1") empty_world))
                         eq_refl eq_refl eq_refl))).
Defined.

(** ** One script *)

Lemma chunk_updates_map (o : ScrapingOrchestrator) (n : string) (evs : list LoopEvent) :
  chunk_updates o n evs
  = map (fun d => mkUpdate (currentStep o) (totalSteps o) ("Running " +:+ n +:+ "...")
                    Running (Some (JsString.trim d)))
      (stdout_chunks evs).
Proof.
  induction evs as [|ev evs IH]; [reflexivity|].
  destruct ev as [d|d|x|r|]; cbn [chunk_updates]; try exact IH.
  change (stdout_chunks (StdoutData d :: evs)) with (d :: stdout_chunks evs).
  cbn [map]. rewrite IH. reflexivity.
Qed.

(** X9.  [runPythonScript] publishes one [running] update for each chunk the
    child writes to its standard output, in order, at the current step,
    with the chunk trimmed as details; what the child writes to its
    standard error produces no update.  The promise resolves with the
    chunks of standard output joined as they came, not trimmed, and a
    failure message ends with the chunks of standard error joined.  The
    step of the orchestrator is left as it was. *)
Theorem X9_runPythonScript_reports_each_chunk (scriptName : string) (args : list string)
    (o : ScrapingOrchestrator) (w : World) (b : Behaviour) (rest : list Behaviour) :
  tasks w = b :: rest ->
  published (log (runPythonScript scriptName args (o, w)))
  = map (fun d => mkUpdate (currentStep o) (totalSteps o)
                    ("Running " +:+ scriptName +:+ "...") Running (Some (JsString.trim d)))
      (stdout_chunks (events b))
  /\ fst (state (runPythonScript scriptName args (o, w))) = o
  /\ tasks (snd (state (runPythonScript scriptName args (o, w)))) = rest
  /\ match ending b with
     | Exited (Some 0) =>
         result (runPythonScript scriptName args (o, w))
         = Ok (String.concat EmptyString (stdout_chunks (events b)))
     | Exited code =>
         result (runPythonScript scriptName args (o, w))
         = Threw (JsError ("Script " +:+ scriptName +:+ " failed with code "
                           +:+ show_code code +:+ ". Error: "
                           +:+ String.concat EmptyString (stderr_chunks (events b))))
     | _ => True
     end.
Proof.
  intros Ht. rewrite runPythonScript_eq, Ht. cbn [log state result fst snd].
  split; [|split; [reflexivity|split]].
  - unfold spawn_action. change (published (ActSpawn ?k ?c ?a :: ?l)) with (published l).
    rewrite published_map. apply chunk_updates_map.
  - destruct (loop_world_outside o scriptName (events b) (with_tasks (fun _ => rest) w))
      as (H & _ & _). exact H.
  - unfold settle, exit_failure.
    rewrite (stdout_from_chunks (events b) EmptyString),
      (stderr_from_chunks (events b) EmptyString).
    destruct (ending b) as [[[| |]|]| | |]; try exact I; reflexivity.
Qed.

Lemma X9_runPythonScript_reports_each_chunk_witness :
  let b := mkBehaviour [StdoutData " 12 products "; StderrData "warn"; StdoutData "done"]
             (Exited (Some 0)) in
  let w := sample_world mkdir_works [] [b] in
  let o := mkOrchestrator "s1" 3 6 in
  tasks w = [b]
  /\ published (log (runPythonScript "text_extractor.py" ["/out"] (o, w)))
     = [mkUpdate 3 6 "Running text_extractor.py..." Running (Some "12 products");
        mkUpdate 3 6 "Running text_extractor.py..." Running (Some "done")].
Proof.
  cbv zeta. split; [reflexivity|].
  exact (proj1 (X9_runPythonScript_reports_each_chunk "text_extractor.py" ["/out"]
                  (mkOrchestrator "s1" 3 6)
                  (sample_world mkdir_works []
                     [mkBehaviour [StdoutData " 12 products "; StderrData "warn";
                                   StdoutData "done"] (Exited (Some 0))])
                  (mkBehaviour [StdoutData " 12 products "; StderrData "warn";
                                StdoutData "done"] (Exited (Some 0)))
                  [] eq_refl)).
Defined.

(** ** The scripts a run spawns *)

Lemma execPlan_spawns_prefix (stages : list Stage) (o : ScrapingOrchestrator) (w : World) :
  spawned (log (execPlan stages (o, w))) `prefix_of` planned_spawns (node w) stages.
Proof.
  plan_induction stages o w.
  - intros o w. apply prefix_nil.
  - intros st rest o w Hnone IH. destruct (after_label_outside o st w) as (_ & Hn & _).
    cbn [prepend log]. rewrite (planned_spawns_cons_none _ _ _ Hnone), <- Hn. exact IH.
  - intros st rest o w n a Hsome _. rewrite (planned_spawns_cons_task _ _ _ _ _ Hsome).
    apply prefix_cons, prefix_nil.
  - intros st rest o w n a b ts out Hsome _ _ IH.
    destruct (after_task_outside o st w n b ts) as (_ & Hn & _).
    cbn [prepend log]. rewrite spawned_app, spawned_stage_log.
    rewrite (planned_spawns_cons_task _ _ _ _ _ Hsome), <- Hn. apply prefix_cons, IH.
  - intros st rest o w n a b ts e Hsome _ _. cbn [log]. rewrite spawned_stage_log.
    rewrite (planned_spawns_cons_task _ _ _ _ _ Hsome). apply prefix_cons, prefix_nil.
  - intros st rest o w n a b ts Hsome _ _. cbn [log]. rewrite spawned_stage_log.
    rewrite (planned_spawns_cons_task _ _ _ _ _ Hsome). apply prefix_cons, prefix_nil.
Qed.

Lemma settle_succeeds (n : string) (b : Behaviour) :
  succeeds b = true -> exists out, settle n b = Ok out.
Proof.
  unfold succeeds, settle. destruct (ending b) as [[[| |]|]| | |]; try discriminate. eauto.
Qed.

Lemma task_count_cons_task st rest n a :
  st_task st = Some (n, a) -> task_count (st :: rest) = S (task_count rest).
Proof.
  intros H. unfold task_count. rewrite filter_cons, H.
  destruct (decide (is_Some (Some (n, a)))) as [|Hn]; [reflexivity|].
  exfalso. apply Hn. eauto.
Qed.

Lemma task_count_cons_none st rest :
  st_task st = None -> task_count (st :: rest) = task_count rest.
Proof.
  intros H. unfold task_count. rewrite filter_cons, H.
  destruct (decide (is_Some (@None (string * list string)))) as [[x Hx]|]; [discriminate|].
  reflexivity.
Qed.

Lemma execPlan_all_succeed (stages : list Stage) (o : ScrapingOrchestrator) (w : World) :
  Forall (fun b => succeeds b = true) (tasks w) ->
  (task_count stages <= length (tasks w))%nat ->
  result (execPlan stages (o, w)) = Ok tt
  /\ spawned (log (execPlan stages (o, w))) = planned_spawns (node w) stages.
Proof.
  plan_induction stages o w.
  - intros o w _ _. split; reflexivity.
  - intros st rest o w Hnone IH Hall Hlen.
    destruct (after_label_outside o st w) as (Ht & Hn & _).
    cbn [prepend result log]. rewrite (planned_spawns_cons_none _ _ _ Hnone), <- Hn.
    apply IH; rewrite Ht; [exact Hall|].
    rewrite (task_count_cons_none _ _ Hnone) in Hlen. exact Hlen.
  - intros st rest o w n a Hsome Hts _ Hlen. exfalso.
    rewrite (task_count_cons_task _ _ _ _ Hsome), Hts in Hlen. cbn in Hlen. lia.
  - intros st rest o w n a b ts out Hsome Hts _ IH Hall Hlen.
    destruct (after_task_outside o st w n b ts) as (Ht & Hn & _).
    rewrite Hts in Hall, Hlen. apply Forall_cons in Hall as [_ Hall].
    rewrite (task_count_cons_task _ _ _ _ Hsome) in Hlen. cbn [length] in Hlen.
    cbn [prepend result log]. rewrite spawned_app, spawned_stage_log.
    rewrite (planned_spawns_cons_task _ _ _ _ _ Hsome), <- Hn.
    destruct IH as [H1 H2]; [rewrite Ht; exact Hall|rewrite Ht; lia|].
    rewrite H1, H2. split; reflexivity.
  - intros st rest o w n a b ts e _ Hts He Hall _. exfalso.
    rewrite Hts in Hall. apply Forall_cons in Hall as [Hb _].
    destruct (settle_succeeds n b Hb) as [out Hout]. congruence.
  - intros st rest o w n a b ts _ Hts He Hall _. exfalso.
    rewrite Hts in Hall. apply Forall_cons in Hall as [Hb _].
    destruct (settle_succeeds n b Hb) as [out Hout]. congruence.
Qed.

Lemma execPlan_first_spawn st rest n a (o : ScrapingOrchestrator) (w : World) :
  st_task st = Some (n, a) ->
  (1 <= length (spawned (log (execPlan (st :: rest) (o, w)))))%nat.
Proof.
  intros Hsome. rewrite execPlan_cons, Hsome. cbv zeta.
  destruct (tasks w) as [|b ts]; [cbn; lia|].
  fold (after_label o st w). fold (after_task o st w n b ts). fold (stage_log o st w n a b).
  destruct (settle n b); cbn [prepend log];
    rewrite ?spawned_app, spawned_stage_log; cbn; lia.
Qed.

(** X10.  Whatever the child processes do, the scripts an accepted
    request spawns are an initial part of the pipeline of its site, with
    the steps and the arguments of the pipeline: no script is skipped,
    run twice or run out of order, each gets the resolved output folder,
    and the product name and the address are passed on as they were
    given.  The first script of the pipeline is always spawned. *)
Theorem X10_spawns_follow_the_pipeline (body : JsonBody) (w : World) :
  accepted body w = true ->
  spawned (log (POST (Some body) w)) `prefix_of` pipeline (node w) (request_of body w)
  /\ (1 <= length (spawned (log (POST (Some body) w))))%nat.
Proof.
  intros Hacc. rewrite (POST_spawned body w Hacc).
  destruct (folder_world_hub body w) as (_ & _ & _ & Hn). split.
  - rewrite <- planned_spawns_stages_of, <- Hn. apply execPlan_spawns_prefix.
  - unfold run_of, the_run, stages_of.
    destruct (isBlinkit (scrapeSite (request_of body w)));
      cbn [app blinkit_stages default_stages]; eapply execPlan_first_spawn; reflexivity.
Qed.

Lemma X10_spawns_follow_the_pipeline_witness :
  accepted (sample_body "amazon") failing_world = true
  /\ spawned (log (POST (Some (sample_body "amazon")) failing_world))
     `prefix_of` pipeline (node failing_world) (request_of (sample_body "amazon") failing_world).
Proof.
  assert (Ha : accepted (sample_body "amazon") failing_world = true)
    by (vm_compute; reflexivity).
  split; [exact Ha|]. exact (proj1 (X10_spawns_follow_the_pipeline _ _ Ha)).
Defined.

(** X11.  Take an accepted request none of whose scripts is given an
    argument with a NUL character (for such an argument the call of
    [spawn] throws, and there is no child process).  When every child
    process closes with code 0, the request spawns the whole pipeline of
    its site - six scripts, or five for blinkit - and the updates it
    publishes are [running] ones followed by one [completed] update at
    step 6. *)
Theorem X11_successful_run_spawns_whole_pipeline (body : JsonBody) (w : World) :
  accepted body w = true ->
  Forall (fun p => spawnable (snd p) = true) (pipeline (node w) (request_of body w)) ->
  Forall (fun b => succeeds b = true) (tasks w) ->
  (6 <= length (tasks w))%nat ->
  spawned (log (POST (Some body) w)) = pipeline (node w) (request_of body w)
  /\ exists runs,
       all_running runs
       /\ published (log (POST (Some body) w)) = runs ++ [completed_update].
Proof.
  intros Hacc _ Hall Hlen. rewrite (POST_spawned body w Hacc).
  destruct (folder_world_hub body w) as (_ & _ & Ht & Hn).
  destruct (execPlan_all_succeed (stages_of (request_of body w))
              (new_ScrapingOrchestrator (sessionId_of (node w))) (folder_world body w))
    as [Hres Hsp].
  { rewrite Ht. exact Hall. }
  { rewrite Ht. pose proof (stages_of_count (request_of body w)). lia. }
  fold (the_run (sessionId_of (node w)) (request_of body w) (folder_world body w)) in Hres, Hsp.
  fold (run_of body w) in Hres, Hsp.
  split; [rewrite Hsp, Hn; apply planned_spawns_stages_of|].
  destruct (POST_published_shape body w Hacc) as (runs & Hruns & Heq).
  rewrite Hres in Heq. eauto.
Qed.

Lemma X11_successful_run_spawns_whole_pipeline_witness :
  let body := sample_body "Blinkit" in
  let w := sample_world mkdir_works [] [exits 0; exits 0; exits 0; exits 0; exits 0; exits 0] in
  accepted body w = true
  /\ spawnable ["/app/scripts/blinkit.py"; "--brand"; String Ascii.zero "soap"] = false
  /\ Forall (fun p => spawnable (snd p) = true) (pipeline (node w) (request_of body w))
  /\ Forall (fun b => succeeds b = true) (tasks w)
  /\ (6 <= length (tasks w))%nat
  /\ spawned (log (POST (Some body) w))
     = [ (1, ["/app/scripts/blinkit.py"; "--brand"; "soap"; "--out-dir"; "/out"; "--images"]);
         (3, ["/app/scripts/text_extractor.py"; "/out"]);
         (4, ["/app/scripts/qr_orchestrator.py"; "/out"]);
         (5, ["/app/scripts/credential_check.py"; "/out"]);
         (6, ["/app/scripts/exception_reporter.py"; "/out"; "qa@example.com"]) ].
Proof.
  cbv zeta.
  set (w := sample_world mkdir_works []
              [exits 0; exits 0; exits 0; exits 0; exits 0; exits 0]).
  assert (Ha : accepted (sample_body "Blinkit") w = true) by (vm_compute; reflexivity).
  assert (Hn : Forall (fun p => spawnable (snd p) = true)
                 (pipeline (node w) (request_of (sample_body "Blinkit") w)))
    by (vm_compute; repeat constructor).
  assert (Hs : Forall (fun b => succeeds b = true) (tasks w)) by (repeat constructor).
  assert (Hl : (6 <= length (tasks w))%nat) by (cbn; lia).
  split; [exact Ha|]. split; [reflexivity|].
  split; [exact Hn|]. split; [exact Hs|]. split; [exact Hl|].
  exact (proj1 (X11_successful_run_spawns_whole_pipeline _ _ Ha Hn Hs Hl)).
Defined.

(** ** A child process that hangs *)

Lemma execPlan_hang (stages : list Stage) (o : ScrapingOrchestrator) (w : World) :
  forall (i : nat) (k : Z) (args : list string) (b : Behaviour),
    spawned (log (execPlan stages (o, w))) !! i = Some (k, args) ->
    tasks w !! i = Some b ->
    ending b = NeverSettles ->
    result (execPlan stages (o, w)) = Stuck
    /\ currentStep (fst (state (execPlan stages (o, w)))) = k
    /\ length (spawned (log (execPlan stages (o, w)))) = S i.
Proof.
  assert (Hstuck : forall n b, ending b = NeverSettles -> settle n b = Stuck).
  { intros n b H. unfold settle. rewrite H. reflexivity. }
  plan_induction stages o w.
  - intros o w i k args b H. discriminate H.
  - intros st rest o w _ IH i k args b Hsp Hb Hf.
    destruct (after_label_outside o st w) as (Ht & _ & _).
    cbn [prepend log result state] in *. cbn [spawned omap app] in Hsp |- *.
    apply (IH i k args b); [exact Hsp| |exact Hf]. rewrite Ht. exact Hb.
  - intros st rest o w n a _ Hts i k args b Hsp Hb Hf. rewrite Hts in Hb. discriminate Hb.
  - intros st rest o w n a b0 ts out _ Hts Hok IH i k args b Hsp Hb Hf.
    destruct (after_task_outside o st w n b0 ts) as (Ht & _ & _).
    cbn [prepend log result state] in *.
    rewrite spawned_app, spawned_stage_log in Hsp |- *. cbn [app] in Hsp |- *.
    rewrite Hts in Hb. destruct i as [|i]; cbn in Hb, Hsp.
    + injection Hb as ->. rewrite (Hstuck n b Hf) in Hok. discriminate.
    + destruct (IH i k args b Hsp) as (H1 & H2 & H3); [rewrite Ht; exact Hb|exact Hf|].
      cbn [length]. repeat split; congruence.
  - intros st rest o w n a b0 ts e _ Hts He i k args b Hsp Hb Hf.
    cbn [log result state fst] in *. rewrite spawned_stage_log in Hsp.
    rewrite Hts in Hb. destruct i as [|i]; cbn in Hb, Hsp; [|discriminate Hsp].
    injection Hb as ->. rewrite (Hstuck n b Hf) in He. discriminate.
  - intros st rest o w n a b0 ts _ Hts Hst i k args b Hsp Hb Hf.
    cbn [log result state fst] in *. rewrite spawned_stage_log in Hsp |- *.
    rewrite Hts in Hb. destruct i as [|i]; cbn in Hb, Hsp; [|discriminate Hsp].
    injection Hsp as <- <-. repeat split.
Qed.

(** X12.  There is no timeout on a script: when a child process never exits,
    the request has been answered with status 200 all the same, no later
    script is spawned, and neither a [completed] nor an [error] update is
    ever published for the session. *)
Theorem X12_hung_script_leaves_session_running (body : JsonBody) (w : World)
    (i : nat) (k : Z) (args : list string) (b : Behaviour) :
  accepted body w = true ->
  spawned (log (POST (Some body) w)) !! i = Some (k, args) ->
  tasks w !! i = Some b ->
  ending b = NeverSettles ->
  result (POST (Some body) w)
  = Ok (mkResponse 200 (JsonStarted (sessionId_of (node w)) started))
  /\ length (spawned (log (POST (Some body) w))) = S i
  /\ all_running (published (log (POST (Some body) w)))
  /\ Forall (fun u => step u <= k) (published (log (POST (Some body) w))).
Proof.
  intros Hacc Hsp Hb Hf.
  split; [rewrite (POST_accepted body w Hacc); reflexivity|].
  rewrite (POST_spawned body w Hacc) in *.
  destruct (folder_world_hub body w) as (_ & _ & Ht & _).
  destruct (run_of_facts body w) as [_ _ _ _ Hsteps _ _ _].
  destruct (POST_published_shape body w Hacc) as (runs & Hruns & Heq).
  unfold run_of, the_run in *.
  destruct (execPlan_hang _ _ _ i k args b Hsp) as (Hr & Hk & Hlen);
    [rewrite Ht; exact Hb|exact Hf|].
  rewrite Hr, app_nil_r in Heq. rewrite Hk in Hsteps.
  split; [exact Hlen|]. split; [rewrite Heq; exact Hruns|].
  rewrite (POST_published body w Hacc). unfold run_of, the_run, error_reports.
  rewrite Hr, app_nil_r.
  eapply Forall_impl; [exact (steps_published _ _ _ Hsteps)|].
  unfold step_between. cbn. intros u Hu. lia.
Qed.

Lemma X12_hung_script_leaves_session_running_witness :
  let hangs := mkBehaviour [StdoutData "loading"] NeverSettles in
  let w := sample_world mkdir_works [] [exits 0; hangs; exits 0] in
  let body := sample_body "amazon" in
  accepted body w = true
  /\ spawned (log (POST (Some body) w)) !! 1%nat
     = Some (2, ["/app/scripts/image_scraper.py"; "/out"])
  /\ tasks w !! 1%nat = Some hangs
  /\ ending hangs = NeverSettles
  /\ all_running (published (log (POST (Some body) w))).
Proof.
  cbv zeta.
  set (hangs := mkBehaviour [StdoutData "loading"] NeverSettles).
  set (w := sample_world mkdir_works [] [exits 0; hangs; exits 0]).
  assert (Ha : accepted (sample_body "amazon") w = true) by (vm_compute; reflexivity).
  assert (Hs : spawned (log (POST (Some (sample_body "amazon")) w)) !! 1%nat
               = Some (2, ["/app/scripts/image_scraper.py"; "/out"]))
    by (vm_compute; reflexivity).
  split; [exact Ha|]. split; [exact Hs|]. split; [reflexivity|]. split; [reflexivity|].
  exact (proj1 (proj2 (proj2
           (X12_hung_script_leaves_session_running _ _ 1 _ _ hangs Ha Hs eq_refl eq_refl)))).
Defined.

(** ** Whom the updates are for *)

Lemma addressed_to_publishes (sid : string) (us : list ProgressUpdate) :
  Forall (addressed_to sid) (map (ActPublish sid) us).
Proof. induction us; constructor; [reflexivity|assumption]. Qed.

Lemma addressed_to_stage_log sid o st w n a b :
  sessionId o = sid -> Forall (addressed_to sid) (stage_log o st w n a b).
Proof.
  intros <-. unfold stage_log, spawn_action.
  constructor; [reflexivity|]. constructor; [exact I|]. apply addressed_to_publishes.
Qed.

Lemma execPlan_addressed (sid : string) (stages : list Stage) (o : ScrapingOrchestrator)
    (w : World) :
  sessionId o = sid -> Forall (addressed_to sid) (log (execPlan stages (o, w))).
Proof.
  plan_induction stages o w.
  - intros o w <-. repeat constructor.
  - intros st rest o w _ IH Hsid. cbn [prepend log]. apply Forall_app. split.
    + constructor; [exact Hsid|constructor].
    + apply IH. exact Hsid.
  - intros st rest o w n a _ _ <-. repeat constructor.
  - intros st rest o w n a b ts out _ _ _ IH Hsid. cbn [prepend log].
    apply Forall_app. split; [apply addressed_to_stage_log, Hsid|apply IH, Hsid].
  - intros st rest o w n a b ts e _ _ _ Hsid. apply addressed_to_stage_log, Hsid.
  - intros st rest o w n a b ts _ _ _ Hsid. apply addressed_to_stage_log, Hsid.
Qed.

(** X13.  When [POST] answers with a session id, every update that it
    and the workflow it starts publish is published for that id, the one
    the client is told, and the one orchestrator created is created for
    it: a run never writes to the session of another request.  When
    [POST] answers anything else (400 or 500) nothing is published. *)
Theorem X13_updates_go_to_the_returned_session (request_json : option JsonBody) (w : World) :
  match result (POST request_json w) with
  | Ok (mkResponse _ (JsonStarted sid _)) =>
      Forall (addressed_to sid) (log (POST request_json w))
      /\ orchestrators (log (POST request_json w)) = [sid]
  | _ => published (log (POST request_json w)) = []
  end.
Proof.
  destruct request_json as [body|]; [|reflexivity].
  rewrite POST_eq.
  destruct (fieldsMissing body); [reflexivity|].
  destruct (emailMalformed body); [reflexivity|].
  destruct (siteUnrecognized body); [reflexivity|].
  assert (Hf : Forall (addressed_to (sessionId_of (node w))) (folder_log body w)).
  { unfold folder_log. destruct (bool_decide _); repeat constructor. }
  destruct (folder_log_mkdir_only body w) as (Ho & _ & Hp).
  destruct (folderFailure body w); [exact Hp|]. cbv zeta. cbn [result log]. split.
  - apply Forall_app. split; [exact Hf|]. constructor; [exact I|].
    rewrite background_eq. cbv zeta.
    pose proof (execPlan_addressed (sessionId_of (node w)) (stages_of (request_of body w))
                  (new_ScrapingOrchestrator (sessionId_of (node w))) (folder_world body w)
                  eq_refl) as Hrun.
    fold (the_run (sessionId_of (node w)) (request_of body w) (folder_world body w)) in Hrun.
    destruct (the_run_facts (sessionId_of (node w)) (request_of body w) (folder_world body w))
      as [Hsid _ _ _ _ _ _ _].
    destruct (result (the_run _ _ _)); cbn [log]; [exact Hrun| |exact Hrun].
    apply Forall_app. split; [exact Hrun|]. rewrite Hsid. repeat constructor.
  - rewrite orchestrators_app, Ho, orchestrators_cons.
    rewrite (of_workflow_orchestrators _ (background_of_workflow _ _ _)). reflexivity.
Qed.

(** ** Updates published while nobody listens *)

Lemma sessionId_of_truthy (nd : Node) : JsString.truthy (sessionId_of nd) = true.
Proof. reflexivity. Qed.

Lemma delivered_no_entry (sid : string) (u : ProgressUpdate) (w : World) :
  progressStreams w !! sid = None -> delivered sid u w = w.
Proof. intros H. unfold delivered. rewrite H. reflexivity. Qed.

Lemma loop_world_quiet (o : ScrapingOrchestrator) (n : string) (evs : list LoopEvent) :
  forall w,
    progressStreams w !! sessionId o = None ->
    forallb (fun ev => match ev with StdoutData _ | StderrData _ => true | _ => false end) evs
    = true ->
    loop_world o n evs w = w.
Proof.
  induction evs as [|ev evs IH]; intros w Hreg Hq; [reflexivity|].
  cbn [forallb] in Hq. apply andb_true_iff in Hq as [Hev Hq].
  destruct ev as [d|d|x|r|]; try discriminate; cbn [loop_world].
  - rewrite delivered_no_entry by exact Hreg. apply IH; assumption.
  - apply IH; assumption.
Qed.

Lemma same_hub_refl (w : World) : same_hub w w.
Proof. repeat split. Qed.

Lemma execPlan_unheard (stages : list Stage) (o : ScrapingOrchestrator) (w : World) :
  progressStreams w !! sessionId o = None ->
  Forall (fun b => quiet b = true) (tasks w) ->
  same_hub w (snd (state (execPlan stages (o, w)))).
Proof.
  plan_induction stages o w.
  - intros o w Hreg _. cbn [state snd]. rewrite delivered_no_entry by exact Hreg.
    apply same_hub_refl.
  - intros st rest o w _ IH Hreg Hq. cbn [prepend state]. unfold after_label in *.
    rewrite delivered_no_entry in * by exact Hreg. apply IH; assumption.
  - intros st rest o w n a _ _ Hreg _. cbn [state snd]. unfold after_label.
    rewrite delivered_no_entry by exact Hreg. apply same_hub_refl.
  - intros st rest o w n a b ts out _ Hts _ IH Hreg Hq. cbn [prepend state].
    rewrite Hts in Hq. apply Forall_cons in Hq as [Hb Hq].
    unfold after_task, after_label in *. rewrite delivered_no_entry in * by exact Hreg.
    rewrite loop_world_quiet in * by (try exact Hreg; exact Hb).
    apply (IH Hreg Hq).
  - intros st rest o w n a b ts e _ Hts _ Hreg Hq. cbn [state snd].
    rewrite Hts in Hq. apply Forall_cons in Hq as [Hb Hq].
    unfold after_task, after_label. rewrite delivered_no_entry by exact Hreg.
    rewrite loop_world_quiet by (try exact Hreg; exact Hb). repeat split.
  - intros st rest o w n a b ts _ Hts _ Hreg Hq. cbn [state snd].
    rewrite Hts in Hq. apply Forall_cons in Hq as [Hb Hq].
    unfold after_task, after_label. rewrite delivered_no_entry by exact Hreg.
    rewrite loop_world_quiet by (try exact Hreg; exact Hb). repeat split.
Qed.

(** X14.  Updates are not kept for later.  When no stream is registered for
    the session id of the request, and no client connects or goes away
    and no timeout runs while the workflow runs, everything the run
    publishes is dropped: the streams, the map and the timeouts are as
    before.  A client that subscribes
    with the returned session id afterwards gets a stream that holds the
    connection message and nothing of the run, its last update
    included. *)
Theorem X14_updates_without_subscriber_are_lost (body : JsonBody) (w : World) :
  progressStreams w !! sessionId_of (node w) = None ->
  Forall (fun b => quiet b = true) (tasks w) ->
  let w' := state (POST (Some body) w) in
  same_hub w w'
  /\ result (GET (Some (sessionId_of (node w))) w')
     = Ok (mkResponse 200 (EventStream (length (streams w))))
  /\ streams (state (GET (Some (sessionId_of (node w))) w'))
     = streams w ++ [mkStream (sessionId_of (node w)) [connected] false].
Proof.
  intros Hreg Hq. cbv zeta.
  assert (Hsame : same_hub w (state (POST (Some body) w))).
  { rewrite POST_eq.
    destruct (fieldsMissing body); [apply same_hub_refl|].
    destruct (emailMalformed body); [apply same_hub_refl|].
    destruct (siteUnrecognized body); [apply same_hub_refl|].
    destruct (folderFailure body w); [apply same_hub_refl|]. cbv zeta. cbn [state].
    rewrite background_eq. cbv zeta.
    assert (Hfw : same_hub w (folder_world body w) /\ tasks (folder_world body w) = tasks w).
    { unfold folder_world. destruct (bool_decide _); repeat split. }
    destruct Hfw as [(Hs & Hp & Ht & Hu) Hts].
    pose proof (execPlan_unheard (stages_of (request_of body w))
                  (new_ScrapingOrchestrator (sessionId_of (node w))) (folder_world body w))
      as Hrun.
    cbn [sessionId new_ScrapingOrchestrator] in Hrun. rewrite Hp, Hts in Hrun.
    specialize (Hrun Hreg Hq).
    fold (the_run (sessionId_of (node w)) (request_of body w) (folder_world body w)) in Hrun.
    destruct (the_run_facts (sessionId_of (node w)) (request_of body w) (folder_world body w))
      as [Hsid _ _ _ _ _ _ _].
    destruct Hrun as (Hs' & Hp' & Ht' & Hu').
    assert (Hend : same_hub w (snd (state (the_run (sessionId_of (node w))
                                             (request_of body w) (folder_world body w)))))
      by (repeat split; congruence).
    destruct (result (the_run _ _ _)); cbn [state]; [exact Hend| |exact Hend].
    rewrite Hsid.
    assert (Hnone : progressStreams (snd (state (the_run (sessionId_of (node w))
                                                  (request_of body w) (folder_world body w))))
                    !! sessionId_of (node w) = None) by congruence.
    rewrite !delivered_no_entry; [exact Hend|exact Hnone|].
    rewrite delivered_no_entry by exact Hnone. exact Hnone. }
  split; [exact Hsame|]. destruct Hsame as (Hs & _).
  rewrite (GET_state _ _ (sessionId_of_truthy (node w))). cbn [streams with_streams
    with_progressStreams]. rewrite Hs. split; [|reflexivity].
  unfold GET, controller_enqueue. rewrite sessionId_of_truthy. cbn [negb].
  rewrite bind_gets, bind_modify, bind_modify, (bind_assoc (S:=World)), bind_gets.
  cbn [streams with_streams with_progressStreams].
  rewrite lookup_app_r by lia. rewrite Nat.sub_diag, Hs. reflexivity.
Qed.

Lemma X14_updates_without_subscriber_are_lost_witness :
  let w := sample_world mkdir_works [] [exits 0; exits 1] in
  progressStreams w !! sessionId_of (node w) = None
  /\ Forall (fun b => quiet b = true) (tasks w)
  /\ length (published (log (POST (Some (sample_body "amazon")) w))) = 4%nat
  /\ streams (state (GET (Some (sessionId_of (node w)))
                       (state (POST (Some (sample_body "amazon")) w))))
     = [mkStream sample_sid [connected] false].
Proof.
  cbv zeta.
  assert (H1 : progressStreams (sample_world mkdir_works [] [exits 0; exits 1])
               !! sessionId_of (node (sample_world mkdir_works [] [exits 0; exits 1])) = None)
    by reflexivity.
  assert (H2 : Forall (fun b => quiet b = true)
                 (tasks (sample_world mkdir_works [] [exits 0; exits 1])))
    by (repeat constructor).
  split; [exact H1|]. split; [exact H2|]. split; [vm_compute; reflexivity|].
  exact (proj2 (proj2 (X14_updates_without_subscriber_are_lost (sample_body "amazon") _ H1 H2))).
Defined.

(** ** The pattern for addresses *)

Lemma append_cons (c : ascii) (s t : string) : String c s +:+ t = String c (s +:+ t).
Proof. reflexivity. Qed.

Lemma append_nil_l (t : string) : EmptyString +:+ t = t.
Proof. reflexivity. Qed.

Lemma append_eq_nil (s t : string) :
  s +:+ t = EmptyString -> s = EmptyString /\ t = EmptyString.
Proof. destruct s; [rewrite append_nil_l; auto|rewrite append_cons; discriminate]. Qed.

Lemma append_eq_cons (s t : string) (c : ascii) (u : string) :
  s +:+ t = String c u ->
  (s = EmptyString /\ t = String c u) \/ exists s', s = String c s' /\ u = s' +:+ t.
Proof.
  destruct s as [|c' s']; [rewrite append_nil_l; auto|].
  rewrite append_cons. intros H. injection H as -> <-. right. eauto.
Qed.

Lemma matches_seq_inv (r1 r2 : RegExp.regex) (s : string) :
  matches (RegExp.Seq r1 r2) s ->
  exists s1 s2, s = s1 +:+ s2 /\ matches r1 s1 /\ matches r2 s2.
Proof. intros H. inversion H; subst. eauto. Qed.

Lemma matches_alt_inv (r1 r2 : RegExp.regex) (s : string) :
  matches (RegExp.Alt r1 r2) s -> matches r1 s \/ matches r2 s.
Proof. intros H. inversion H; subst; auto. Qed.

Lemma matches_class_inv (p : ascii -> bool) (s : string) :
  matches (RegExp.Class p) s -> exists c, s = String c EmptyString /\ p c = true.
Proof. intros H. inversion H; subst. eauto. Qed.

Lemma matches_eps_inv (s : string) : matches RegExp.Eps s -> s = EmptyString.
Proof. intros H. inversion H. reflexivity. Qed.

Lemma matches_never_inv (s : string) : ~ matches RegExp.Never s.
Proof. intros H. inversion H. Qed.

Lemma nullable_matches (r : RegExp.regex) :
  RegExp.nullable r = true <-> matches r EmptyString.
Proof.
  induction r as [| |p|r1 IH1 r2 IH2|r1 IH1 r2 IH2|r IH]; cbn [RegExp.nullable]; split.
  - discriminate.
  - intros H. destruct (matches_never_inv _ H).
  - intros _. constructor.
  - reflexivity.
  - discriminate.
  - intros H. apply matches_class_inv in H as (c & Hc & _). discriminate.
  - intros H. apply andb_true_iff in H as [H1 H2].
    change EmptyString with (EmptyString +:+ EmptyString).
    constructor; [apply IH1, H1|apply IH2, H2].
  - intros H. apply matches_seq_inv in H as (s1 & s2 & Heq & H1 & H2).
    symmetry in Heq. apply append_eq_nil in Heq as [-> ->]. apply andb_true_iff.
    split; [apply IH1, H1|apply IH2, H2].
  - intros H. apply orb_true_iff in H as [H|H];
      [apply matches_alt_l, IH1, H|apply matches_alt_r, IH2, H].
  - intros H. apply orb_true_iff. apply matches_alt_inv in H as [H|H];
      [left; apply IH1|right; apply IH2]; assumption.
  - intros _. constructor.
  - reflexivity.
Qed.

Lemma matches_star_cons_inv (r : RegExp.regex) (c : ascii) (s : string) :
  matches (RegExp.Star r) (String c s) ->
  exists s1 s2, s = s1 +:+ s2 /\ matches r (String c s1) /\ matches (RegExp.Star r) s2.
Proof.
  intros H. remember (RegExp.Star r) as r' eqn:Hr. remember (String c s) as t eqn:Ht.
  revert s Ht.
  induction H as [| | | | | |r0 s1 s2 H1 _ H2 IH2]; intros s0 Ht; try discriminate.
  injection Hr as ->.
  apply append_eq_cons in Ht as [[-> ->]|(s1' & -> & ->)].
  - apply IH2; reflexivity.
  - exists s1', s2. auto.
Qed.

Lemma deriv_matches (r : RegExp.regex) :
  forall (c : ascii) (s : string),
    matches (RegExp.deriv c r) s <-> matches r (String c s).
Proof.
  induction r as [| |p|r1 IH1 r2 IH2|r1 IH1 r2 IH2|r IH]; intros c s; cbn [RegExp.deriv].
  - split; intros H; destruct (matches_never_inv _ H).
  - split; intros H; [destruct (matches_never_inv _ H)|].
    apply matches_eps_inv in H. discriminate.
  - destruct (p c) eqn:Hp; split; intros H.
    + apply matches_eps_inv in H as ->. constructor. exact Hp.
    + apply matches_class_inv in H as (c' & Heq & _). injection Heq as <- ->. constructor.
    + destruct (matches_never_inv _ H).
    + apply matches_class_inv in H as (c' & Heq & Hc'). injection Heq as <- _. congruence.
  - assert (Hfirst : forall s, matches (RegExp.Seq (RegExp.deriv c r1) r2) s ->
                               matches (RegExp.Seq r1 r2) (String c s)).
    { intros s0 H. apply matches_seq_inv in H as (s1 & s2 & -> & H1 & H2).
      rewrite <- append_cons. constructor; [apply IH1, H1|exact H2]. }
    assert (Hback : matches (RegExp.Seq r1 r2) (String c s) ->
                    matches (RegExp.Seq (RegExp.deriv c r1) r2) s
                    \/ (RegExp.nullable r1 = true /\ matches (RegExp.deriv c r2) s)).
    { intros H. apply matches_seq_inv in H as (s1 & s2 & Heq & H1 & H2).
      symmetry in Heq. apply append_eq_cons in Heq as [[-> ->]|(s1' & -> & ->)].
      - right. split; [apply nullable_matches, H1|apply IH2, H2].
      - left. constructor; [apply IH1, H1|exact H2]. }
    destruct (RegExp.nullable r1) eqn:Hn; split; intros H.
    + apply matches_alt_inv in H as [H|H]; [apply Hfirst; assumption|].
      rewrite <- (append_nil_l (String c s)).
      constructor; [apply nullable_matches, Hn|apply IH2; assumption].
    + destruct (Hback H) as [H'|[_ H']]; [apply matches_alt_l|apply matches_alt_r]; exact H'.
    + apply Hfirst, H.
    + destruct (Hback H) as [H'|[H' _]]; [exact H'|discriminate].
  - split; intros H; apply matches_alt_inv in H as [H|H];
      first [apply matches_alt_l, IH1; assumption | apply matches_alt_r, IH2; assumption].
  - split; intros H.
    + apply matches_seq_inv in H as (s1 & s2 & -> & H1 & H2).
      rewrite <- append_cons. constructor; [apply IH, H1|exact H2].
    + apply matches_star_cons_inv in H as (s1 & s2 & -> & H1 & H2).
      constructor; [apply IH, H1|exact H2].
Qed.

Lemma test_matches (s : string) :
  forall r, RegExp.test r s = true <-> matches r s.
Proof.
  induction s as [|c s IH]; intros r; cbn [RegExp.test].
  - apply nullable_matches.
  - rewrite IH. apply deriv_matches.
Qed.

Lemma matches_star_class (p : ascii -> bool) (s : string) :
  matches (RegExp.Star (RegExp.Class p)) s <-> all_chars p s = true.
Proof.
  split.
  - intros H. remember (RegExp.Star (RegExp.Class p)) as r eqn:Hr.
    induction H as [| | | | | |r0 s1 s2 H1 _ H2 IH2]; try discriminate; [reflexivity|].
    injection Hr as ->. apply matches_class_inv in H1 as (c & -> & Hc).
    rewrite append_cons, append_nil_l. cbn [all_chars]. rewrite Hc. apply IH2. reflexivity.
  - induction s as [|c s IH]; intros H; [constructor|].
    cbn [all_chars] in H. apply andb_true_iff in H as [Hc Hs].
    change (String c s) with (String c EmptyString +:+ s).
    constructor; [constructor; exact Hc|apply IH, Hs].
Qed.

Lemma matches_plus_class (p : ascii -> bool) (s : string) :
  matches (RegExp.Plus (RegExp.Class p)) s <-> s <> EmptyString /\ all_chars p s = true.
Proof.
  unfold RegExp.Plus. split.
  - intros H. apply matches_seq_inv in H as (s1 & s2 & -> & H1 & H2).
    apply matches_class_inv in H1 as (c & -> & Hc). apply matches_star_class in H2.
    rewrite append_cons, append_nil_l. split; [discriminate|].
    cbn [all_chars]. rewrite Hc. exact H2.
  - intros [Hne H]. destruct s as [|c s]; [contradiction|].
    cbn [all_chars] in H. apply andb_true_iff in H as [Hc Hs].
    change (String c s) with (String c EmptyString +:+ s).
    constructor; [constructor; exact Hc|apply matches_star_class, Hs].
Qed.

Lemma matches_chr (c : ascii) (s : string) :
  matches (RegExp.Chr c) s <-> s = String c EmptyString.
Proof.
  unfold RegExp.Chr. split.
  - intros H. apply matches_class_inv in H as (c' & -> & Hc).
    apply Ascii.eqb_eq in Hc. subst. reflexivity.
  - intros ->. constructor. apply Ascii.eqb_refl.
Qed.

Lemma emailRegex_parts (s : string) :
  RegExp.test emailRegex s = true ->
  exists a b c,
    s = a +:+ "@" +:+ b +:+ "." +:+ c /\ atom a /\ atom b /\ atom c.
Proof.
  rewrite test_matches. unfold emailRegex, atom. intros H.
  apply matches_seq_inv in H as (a & s1 & -> & Ha & H).
  apply matches_seq_inv in H as (x & s2 & -> & Hx & H).
  apply matches_seq_inv in H as (b & s3 & -> & Hb & H).
  apply matches_seq_inv in H as (y & c & -> & Hy & Hc).
  apply matches_chr in Hx as ->. apply matches_chr in Hy as ->.
  apply matches_plus_class in Ha, Hb, Hc. exists a, b, c. auto.
Qed.

(** X15.  The pattern of [POST] accepts exactly the strings made of three
    non-empty parts free of white space and of [@], the first two
    separated by [@] and the last two by a dot. *)
Theorem X15_emailRegex_accepts_exactly (s : string) :
  RegExp.test emailRegex s = true
  <-> exists a b c,
        s = a +:+ "@" +:+ b +:+ "." +:+ c /\ atom a /\ atom b /\ atom c.
Proof.
  split; [apply emailRegex_parts|].
  intros (a & b & c & -> & Ha & Hb & Hc). apply test_matches. unfold emailRegex.
  constructor; [apply matches_plus_class, Ha|].
  constructor; [apply matches_chr; reflexivity|].
  constructor; [apply matches_plus_class, Hb|].
  constructor; [apply matches_chr; reflexivity|apply matches_plus_class, Hc].
Qed.

Lemma occurrences_app (c : ascii) (s t : string) :
  occurrences c (s +:+ t) = (occurrences c s + occurrences c t)%nat.
Proof.
  induction s as [|c' s IH]; [reflexivity|].
  rewrite append_cons. cbn [occurrences]. rewrite IH. lia.
Qed.

Lemma all_chars_app (p : ascii -> bool) (s t : string) :
  all_chars p (s +:+ t) = all_chars p s && all_chars p t.
Proof.
  induction s as [|c' s IH]; [reflexivity|].
  rewrite append_cons. cbn [all_chars]. rewrite IH. apply andb_assoc.
Qed.

Lemma length_append (s t : string) :
  String.length (s +:+ t) = (String.length s + String.length t)%nat.
Proof.
  induction s as [|c s IH]; [reflexivity|]. rewrite append_cons. cbn. rewrite IH. reflexivity.
Qed.

Lemma atom_facts (s : string) :
  atom s ->
  occurrences "@" s = 0%nat
  /\ all_chars (fun c => negb (JsString.isWhiteSpace c)) s = true
  /\ (1 <= String.length s)%nat.
Proof.
  intros [Hne H]. split; [|split].
  - clear Hne. induction s as [|c s IH]; [reflexivity|].
    cbn [all_chars] in H. apply andb_true_iff in H as [Hc Hs]. cbn [occurrences].
    rewrite (IH Hs). unfold notSpaceAt in Hc. apply andb_true_iff in Hc as [_ Hc].
    rewrite Ascii.eqb_sym. destruct (Ascii.eqb c "@"); [discriminate|reflexivity].
  - clear Hne. induction s as [|c s IH]; [reflexivity|].
    cbn [all_chars] in H |- *. apply andb_true_iff in H as [Hc Hs].
    rewrite (IH Hs). unfold notSpaceAt in Hc. apply andb_true_iff in Hc as [Hc _].
    rewrite Hc. reflexivity.
  - destruct s; [contradiction|cbn; lia].
Qed.

(** X16.  An address that [POST] lets through holds exactly one [@], no white
    space, and at least five characters. *)
Theorem X16_accepted_address_shape (s : string) :
  RegExp.test emailRegex s = true ->
  occurrences "@" s = 1%nat
  /\ all_chars (fun c => negb (JsString.isWhiteSpace c)) s = true
  /\ (5 <= String.length s)%nat.
Proof.
  intros H. apply emailRegex_parts in H as (a & b & c & -> & Ha & Hb & Hc).
  destruct (atom_facts a Ha) as (Ha1 & Ha2 & Ha3).
  destruct (atom_facts b Hb) as (Hb1 & Hb2 & Hb3).
  destruct (atom_facts c Hc) as (Hc1 & Hc2 & Hc3).
  rewrite !occurrences_app, !all_chars_app, !length_append, Ha1, Hb1, Hc1, Ha2, Hb2, Hc2.
  cbn. repeat split; lia.
Qed.

Lemma X16_accepted_address_shape_witness :
  RegExp.test emailRegex "qa@example.com" = true
  /\ occurrences "@" "qa@example.com" = 1%nat.
Proof.
  split; [reflexivity|].
  exact (proj1 (X16_accepted_address_shape "qa@example.com" eq_refl)).
Defined.

(** ** The orchestrator on its own *)

(** X17.  A workflow run on a new orchestrator publishes [running] updates and
    then, as its last update, exactly one terminal update when its
    promise settles: [completed] at step 6 when it resolves, [error] at
    the step it had reached, with the message of the error it rejects
    with, when it rejects; and no terminal update as long as it is
    pending.  The step it stops at lies between 1 and 6, and the steps of
    its updates never go down. *)
Theorem X17_runWorkflow_ends_with_one_terminal_update (sid : string) (params : ScrapingRequest)
    (w : World) :
  let r := runWorkflow params (new_ScrapingOrchestrator sid, w) in
  1 <= currentStep (fst (state r)) <= 6
  /\ StronglySorted Z.le (step <$> published (log r))
  /\ exists runs,
       all_running runs
       /\ published (log r)
          = runs ++ match result r with
                    | Ok _ => [mkUpdate 6 6 "All tasks completed successfully!" Completed None]
                    | Threw e =>
                        [mkUpdate (currentStep (fst (state r))) 6
                           ("Error: " +:+ error_message e) Error None]
                    | Stuck => []
                    end.
Proof.
  cbv zeta. rewrite runWorkflow_eq. cbv zeta.
  destruct (the_run_facts sid params w) as [_ Htot _ _ Hsteps Hle Hok _].
  destruct (execPlan_statuses (stages_of params) (new_ScrapingOrchestrator sid) w)
    as (runs & Hruns & Heq).
  unfold the_run in *.
  pose proof (steps_range _ _ _ Hsteps) as Hge.
  destruct (execPlan (stages_of params) (new_ScrapingOrchestrator sid, w))
    as [res [o' w'] l].
  cbn [result state log fst snd] in *.
  destruct res as [a|e|]; cbn [result state log fst snd].
  - split; [lia|]. split; [exact (steps_sorted _ _ _ Hsteps)|].
    exists runs. split; [exact Hruns|]. rewrite Heq. unfold final_update.
    rewrite Htot, (Hok a eq_refl). reflexivity.
  - rewrite app_nil_r in Heq. split; [lia|]. rewrite published_app. split.
    + rewrite fmap_app.
      apply StronglySorted_app_2; [|exact (steps_sorted _ _ _ Hsteps)|repeat constructor].
      intros x1 x2 H1 H2. apply list_elem_of_fmap in H1 as (u & -> & Hu).
      apply list_elem_of_fmap in H2 as (u2 & -> & Hu2).
      apply list_elem_of_singleton in Hu2 as ->. cbn [step error_update].
      pose proof (steps_published _ _ _ Hsteps) as Hpub.
      rewrite Forall_forall in Hpub. destruct (Hpub u Hu) as [_ Hu']. exact Hu'.
    + exists runs. split; [exact Hruns|]. rewrite Heq. unfold error_update.
      cbn [fst]. rewrite Htot. reflexivity.
  - split; [lia|]. split; [exact (steps_sorted _ _ _ Hsteps)|].
    exists runs. split; [exact Hruns|]. exact Heq.
Qed.

(** ** Subscribing *)

(** X18.  [GET] answers 400 exactly when the session id is absent or empty;
    it then creates no stream and registers nothing.  Otherwise it
    answers 200 and the new stream is the one registered for the id. *)
Theorem X18_GET_requires_session_id (sessionId : option string) (w : World) :
  exists r,
    result (GET sessionId w) = Ok r
    /\ if falsy sessionId
       then r = mkResponse 400 (JsonError "Session ID required")
            /\ state (GET sessionId w) = w
       else http_status r = 200
            /\ length (streams (state (GET sessionId w))) = S (length (streams w))
            /\ forall sid, sessionId = Some sid ->
                 progressStreams (state (GET sessionId w)) !! sid = Some (length (streams w)).
Proof.
  destruct sessionId as [sid|]; cbn [falsy].
  - destruct (JsString.truthy sid) eqn:Hsid; cbn [negb].
    + eexists. split.
      * unfold GET, controller_enqueue. rewrite Hsid. cbn [negb].
        rewrite bind_gets, bind_modify, bind_modify, (bind_assoc (S:=World)), bind_gets.
        cbn [streams with_streams with_progressStreams].
        rewrite lookup_app_r by lia. rewrite Nat.sub_diag. reflexivity.
      * rewrite (GET_state sid w Hsid). cbn [http_status streams with_streams
          with_progressStreams progressStreams].
        split; [reflexivity|]. split; [rewrite length_app; cbn; lia|].
        intros sid' [= <-]. apply lookup_insert_eq.
    + eexists. unfold GET. rewrite Hsid. cbn [negb]. repeat split.
  - eexists. repeat split.
Qed.

(** X19.  When a client subscribes again between a terminal update and the
    timeout that update set, the timeout closes the old stream and then
    removes the entry of the session id, which is the entry of the new
    stream: the new stream stays open and unregistered. *)
Theorem X19_timeout_after_reconnect_unregisters (sid : string) (ref : nat) (s : Stream)
    (u : ProgressUpdate) (w : World) :
  JsString.truthy sid = true ->
  progressStreams w !! sid = Some ref ->
  streams w !! ref = Some s ->
  closed s = false ->
  timers w = [] ->
  isTerminal u = true ->
  let new := length (streams w) in
  let w2 := state (GET (Some sid) (state (sendProgressUpdate sid u w))) in
  let w3 := state (fireTimer w2) in
  progressStreams w2 !! sid = Some new
  /\ progressStreams w3 !! sid = None
  /\ streams w3 !! ref = Some (mkStream (stream_sessionId s) (queue s ++ [u]) true)
  /\ streams w3 !! new = Some (mkStream sid [connected] false)
  /\ uncaught w3 = uncaught w.
Proof.
  intros Hsid Hreg Hs Hc Ht Hu. cbv zeta.
  assert (Hlt : (ref < length (streams w))%nat) by (eapply lookup_lt_Some; exact Hs).
  rewrite sendProgressUpdate_eq. cbn [state].
  rewrite (delivered_open sid ref s u w Hreg Hs Hc). cbv zeta. rewrite Hu.
  rewrite (GET_state sid _ Hsid).
  cbn [streams progressStreams with_streams with_progressStreams with_timers].
  rewrite length_insert. split; [apply lookup_insert_eq|].
  rewrite fireTimer_eq.
  cbn [timers streams progressStreams with_streams with_progressStreams with_timers].
  rewrite Ht. cbn [app]. cbv zeta. cbn [timer_stream timer_sessionId].
  rewrite lookup_app_l by (rewrite length_insert; exact Hlt).
  rewrite list_lookup_insert_eq by exact Hlt. cbn [closed state stream_sessionId queue].
  cbn [streams progressStreams uncaught with_streams with_progressStreams with_timers].
  split; [apply lookup_delete_eq|]. split; [|split; [|reflexivity]].
  - rewrite list_lookup_insert_eq; [reflexivity|].
    rewrite length_app, length_insert. lia.
  - rewrite list_lookup_insert_ne by lia.
    rewrite lookup_app_r by (rewrite length_insert; lia).
    rewrite length_insert, Nat.sub_diag. reflexivity.
Qed.

Lemma X19_timeout_after_reconnect_unregisters_witness :
  let w := state (GET (Some "s1") empty_world) in
  let w2 := state (GET (Some "s1") (state (sendProgressUpdate "s1" completed_update w))) in
  JsString.truthy "s1" = true
  /\ progressStreams w !! "s1" = Some 0%nat
  /\ streams w !! 0%nat = Some (mkStream "s1" [connected] false)
  /\ timers w = []
  /\ isTerminal completed_update = true
  /\ progressStreams (state (fireTimer w2)) !! "s1" = None.
Proof.
  cbv zeta. repeat (split; [reflexivity|]).
  exact (proj1 (proj2 (X19_timeout_after_reconnect_unregisters "s1" 0
                         (mkStream "s1" [connected] false) completed_update
                         (state (GET (Some "s1") empty_world))
                         eq_refl eq_refl eq_refl eq_refl eq_refl eq_refl))).
Defined.

(** ** The other sessions during a run *)

Lemma others_kept_refl (sid : string) (w : World) : others_kept sid w w.
Proof. intros sid' ref' _ H. auto. Qed.

Lemma others_kept_trans (sid : string) (w1 w2 w3 : World) :
  others_kept sid w1 w2 -> others_kept sid w2 w3 -> others_kept sid w1 w3.
Proof.
  intros H12 H23 sid' ref' Hne H. destruct (H12 sid' ref' Hne H) as [Hp Hs].
  destruct (H23 sid' ref' Hne Hp) as [Hp' Hs']. split; congruence.
Qed.

Lemma others_kept_delivered (sid : string) (u : ProgressUpdate) (w : World) :
  hub_ok w -> others_kept sid w (delivered sid u w).
Proof.
  intros Hok sid' ref' Hne H. unfold delivered.
  destruct (progressStreams w !! sid) as [ref|] eqn:Hreg; [|auto].
  assert (Hdel : progressStreams (with_progressStreams (delete sid) w) !! sid' = Some ref'
                 /\ streams (with_progressStreams (delete sid) w) !! ref' = streams w !! ref').
  { cbn. rewrite lookup_delete_ne by congruence. auto. }
  destruct (streams w !! ref) as [s|] eqn:Hs; [|exact Hdel].
  destruct (closed s); [exact Hdel|].
  assert (Href : ref' <> ref).
  { intros ->. destruct (proj1 Hok sid ref Hreg) as (s1 & H1 & Hsid1 & _).
    destruct (proj1 Hok sid' ref H) as (s2 & H2 & Hsid2 & _). congruence. }
  destruct (isTerminal u); cbn; rewrite list_lookup_insert_ne by congruence; auto.
Qed.

Lemma loop_world_others (o : ScrapingOrchestrator) (n : string) (evs : list LoopEvent) :
  forall w,
    hub_ok w ->
    forallb (fun ev => match ev with StdoutData _ | StderrData _ => true | _ => false end) evs
    = true ->
    others_kept (sessionId o) w (loop_world o n evs w).
Proof.
  induction evs as [|ev evs IH]; intros w Hok Hq; [apply others_kept_refl|].
  cbn [forallb] in Hq. apply andb_true_iff in Hq as [Hev Hq].
  destruct ev as [d|d|x|r|]; try discriminate; cbn [loop_world].
  - eapply others_kept_trans; [apply others_kept_delivered, Hok|].
    apply IH; [apply hub_ok_delivered, Hok|exact Hq].
  - apply IH; assumption.
Qed.

Lemma after_task_others o st w n b ts :
  hub_ok w -> quiet b = true ->
  others_kept (sessionId o) w (after_task o st w n b ts).
Proof.
  intros Hok Hq. unfold after_task, after_label.
  eapply others_kept_trans; [apply (others_kept_delivered _ (label_update o st)), Hok|].
  apply (loop_world_others (at_step o (st_step st)) n (events b)
           (with_tasks (fun _ => ts) (delivered (sessionId o) (label_update o st) w))).
  - eapply hub_ok_frame; [reflexivity..|]. apply hub_ok_delivered, Hok.
  - exact Hq.
Qed.

Lemma execPlan_others (stages : list Stage) (o : ScrapingOrchestrator) (w : World) :
  hub_ok w ->
  Forall (fun b => quiet b = true) (tasks w) ->
  others_kept (sessionId o) w (snd (state (execPlan stages (o, w)))).
Proof.
  plan_induction stages o w.
  - intros o w Hok _. apply others_kept_delivered, Hok.
  - intros st rest o w _ IH Hok Hq. cbn [prepend state].
    destruct (after_label_outside o st w) as (Ht & _ & _).
    eapply others_kept_trans; [apply (others_kept_delivered _ (label_update o st)), Hok|].
    apply IH; [apply hub_ok_delivered, Hok|]. rewrite Ht. exact Hq.
  - intros st rest o w n a _ _ Hok _. apply others_kept_delivered, Hok.
  - intros st rest o w n a b ts out _ Hts _ IH Hok Hq. cbn [prepend state].
    rewrite Hts in Hq. apply Forall_cons in Hq as [Hb Hq].
    destruct (after_task_outside o st w n b ts) as (Ht & _ & _).
    eapply others_kept_trans; [apply (after_task_others o st w n b ts Hok Hb)|].
    apply IH; [apply hub_ok_after_task, Hok|]. rewrite Ht. exact Hq.
  - intros st rest o w n a b ts e _ Hts _ Hok Hq.
    rewrite Hts in Hq. apply Forall_cons in Hq as [Hb Hq].
    apply (after_task_others o st w n b ts Hok Hb).
  - intros st rest o w n a b ts _ Hts _ Hok Hq.
    rewrite Hts in Hq. apply Forall_cons in Hq as [Hb Hq].
    apply (after_task_others o st w n b ts Hok Hb).
Qed.

(** X20.  A request leaves the subscribers of the other sessions alone.  In a
    well-formed registry, when no client connects or goes away and no
    timeout runs while the workflow runs, each entry of another session
    id is kept and the stream it points to holds after [POST] exactly
    what it held before, whether the workflow succeeds, fails or hangs. *)
Theorem X20_run_keeps_other_sessions (body : JsonBody) (w : World) :
  hub_ok w ->
  Forall (fun b => quiet b = true) (tasks w) ->
  forall sid' ref',
    sid' <> sessionId_of (node w) ->
    progressStreams w !! sid' = Some ref' ->
    progressStreams (state (POST (Some body) w)) !! sid' = Some ref'
    /\ streams (state (POST (Some body) w)) !! ref' = streams w !! ref'.
Proof.
  intros Hok Hq. change (others_kept (sessionId_of (node w)) w (state (POST (Some body) w))).
  rewrite POST_eq.
  destruct (fieldsMissing body); [apply others_kept_refl|].
  destruct (emailMalformed body); [apply others_kept_refl|].
  destruct (siteUnrecognized body); [apply others_kept_refl|].
  destruct (folderFailure body w); [apply others_kept_refl|]. cbv zeta. cbn [state].
  rewrite background_eq. cbv zeta.
  destruct (folder_world_hub body w) as (Hs & Hp & Ht & _).
  assert (Hokf : hub_ok (folder_world body w)).
  { eapply hub_ok_frame; [exact Hs|exact Hp| |exact Hok].
    unfold folder_world. destruct (bool_decide _); reflexivity. }
  assert (Hfw : others_kept (sessionId_of (node w)) w (folder_world body w)).
  { intros sid' ref' _ H. rewrite Hs, Hp. auto. }
  pose proof (execPlan_others (stages_of (request_of body w))
                (new_ScrapingOrchestrator (sessionId_of (node w))) (folder_world body w) Hokf)
    as Hrun.
  rewrite Ht in Hrun. specialize (Hrun Hq). cbn [sessionId new_ScrapingOrchestrator] in Hrun.
  pose proof (hub_ok_execPlan (stages_of (request_of body w))
                (new_ScrapingOrchestrator (sessionId_of (node w))) (folder_world body w) Hokf)
    as Hok'.
  fold (the_run (sessionId_of (node w)) (request_of body w) (folder_world body w)) in Hrun, Hok'.
  destruct (the_run_facts (sessionId_of (node w)) (request_of body w) (folder_world body w))
    as [Hsid _ _ _ _ _ _ _].
  pose proof (others_kept_trans _ _ _ _ Hfw Hrun) as Hend.
  destruct (result (the_run _ _ _)); cbn [state]; [exact Hend| |exact Hend].
  rewrite Hsid.
  eapply others_kept_trans; [exact Hend|].
  eapply others_kept_trans; [apply others_kept_delivered, Hok'|].
  apply others_kept_delivered, hub_ok_delivered, Hok'.
Qed.

Lemma X20_run_keeps_other_sessions_witness :
  let w := with_tasks (fun _ => [exits 0; exits 1]) (state (GET (Some "other") empty_world)) in
  hub_ok w
  /\ Forall (fun b => quiet b = true) (tasks w)
  /\ "other" <> sessionId_of (node w)
  /\ progressStreams w !! "other" = Some 0%nat
  /\ streams (state (POST (Some (sample_body "amazon")) w)) !! 0%nat
     = Some (mkStream "other" [connected] false).
Proof.
  cbv zeta.
  set (w := with_tasks (fun _ => [exits 0; exits 1]) (state (GET (Some "other") empty_world))).
  assert (Hok : hub_ok w).
  { eapply hub_ok_frame; [reflexivity..|]. apply hub_ok_GET, hub_ok_empty; reflexivity. }
  assert (Hq : Forall (fun b => quiet b = true) (tasks w)) by (repeat constructor).
  assert (Hne : "other" <> sessionId_of (node w)) by discriminate.
  split; [exact Hok|]. split; [exact Hq|]. split; [exact Hne|]. split; [reflexivity|].
  exact (proj2 (X20_run_keeps_other_sessions (sample_body "amazon") w Hok Hq "other" 0
                  Hne eq_refl)).
Defined.

(** ** The first update of a run *)

Lemma chunk_updates_not_starting o n evs :
  Forall (fun u => u <> starting_update) (chunk_updates o n evs).
Proof.
  induction evs as [|ev evs IH]; [constructor|].
  destruct ev; cbn [chunk_updates]; try exact IH. constructor; [discriminate|exact IH].
Qed.

Lemma stages_of_split (params : ScrapingRequest) :
  exists n a rest,
    stages_of params
    = mkStage 1 "Starting product analysis and scraping..." (Some (n, a)) :: rest
    /\ StronglySorted Z.le (st_step <$> rest)
    /\ forall o, first_step o rest = 2.
Proof.
  unfold stages_of. destruct (isBlinkit (scrapeSite params)); cbn [app blinkit_stages
    default_stages common_stages]; do 3 eexists; (split; [reflexivity|]); split;
    try reflexivity; cbn; repeat (constructor; [|repeat constructor; lia]); constructor.
Qed.

Lemma later_updates_not_starting (stages : list Stage) (o : ScrapingOrchestrator) (w : World) :
  StronglySorted Z.le (st_step <$> stages) ->
  first_step o stages = 2 ->
  Forall (fun u => u <> starting_update) (published (log (execPlan stages (o, w)))).
Proof.
  intros Hs Hf. pose proof (execPlan_steps stages o w Hs) as Hsteps. rewrite Hf in Hsteps.
  eapply Forall_impl; [exact (steps_published _ _ _ Hsteps)|].
  unfold step_between. intros u [Hu _] ->. cbn in Hu. lia.
Qed.

(** The tail of what an accepted request publishes, and where it goes. *)
Lemma POST_after_starting (body : JsonBody) (w : World) :
  accepted body w = true ->
  progressStreams w !! sessionId_of (node w) = None ->
  exists tail,
    published (log (POST (Some body) w)) = starting_update :: tail
    /\ Forall (fun u => u <> starting_update) tail
    /\ tracks (sessionId_of (node w)) w tail (state (POST (Some body) w)).
Proof.
  intros Hacc Hreg. rewrite (POST_published body w Hacc), (POST_accepted body w Hacc).
  cbn [state]. rewrite background_eq. cbv zeta. fold (run_of body w).
  destruct (folder_world_hub body w) as (Hs & Hp & _ & _).
  set (sid := sessionId_of (node w)) in *. set (fw := folder_world body w) in *.
  assert (Hbase : tracks sid w [] fw).
  { eapply tracks_frame; [exact Hs|exact Hp|apply tracks_init]. }
  assert (Hregf : progressStreams fw !! sid = None) by (rewrite Hp; exact Hreg).
  unfold error_reports, run_of, the_run. fold sid. fold fw.
  destruct (stages_of_split (request_of body w)) as (n & a & rest & -> & Hsorted & Hfirst).
  set (o := new_ScrapingOrchestrator sid).
  set (st := mkStage 1 "Starting product analysis and scraping..." (Some (n, a))).
  rewrite execPlan_cons. cbv zeta.
  change (st_task st) with (Some (n, a)). change (label_update o st) with starting_update.
  change (sessionId o) with sid. rewrite (delivered_no_entry sid _ fw Hregf).
  destruct (tasks fw) as [|b ts].
  { cbn [result state log snd]. exists []. rewrite app_nil_r.
    split; [reflexivity|]. split; [constructor|exact Hbase]. }
  set (o1 := at_step o (st_step st)).
  assert (Hloop : tracks sid w (chunk_updates o1 n (events b))
                    (loop_world o1 n (events b) (with_tasks (fun _ => ts) fw))).
  { apply (tracks_loop sid w o1 n (events b) eq_refl []); [constructor|].
    eapply tracks_frame; [reflexivity|reflexivity|exact Hbase]. }
  set (w2 := loop_world o1 n (events b) (with_tasks (fun _ => ts) fw)) in *.
  assert (Hpre : published (ActPublish sid starting_update :: spawn_action o1 fw n a
                            :: map (ActPublish sid) (chunk_updates o1 n (events b)))
                 = starting_update :: chunk_updates o1 n (events b)).
  { rewrite published_publish. unfold spawn_action.
    change (published (ActSpawn ?k ?c ?x :: ?l)) with (published l).
    rewrite published_map. reflexivity. }
  destruct (settle n b) as [out|e|].
  - pose proof (tracks_execPlan sid w rest o1 w2 (chunk_updates o1 n (events b)) eq_refl
                  (chunk_updates_running _ _ _) Hloop) as Hrun.
    pose proof (later_updates_not_starting rest o1 w2 Hsorted (Hfirst o1)) as Hlater.
    destruct (execPlan_keeps rest o1 w2) as (Hsid & Htot & _ & _).
    destruct (execPlan rest (o1, w2)) as [res [o' w'] l].
    cbn [prepend result state log fst snd] in *.
    rewrite published_app, Hpre.
    destruct res as [x|e|]; cbn [app state].
    + eexists. rewrite app_nil_r. split; [reflexivity|]. split; [|exact Hrun].
      apply Forall_app. split; [apply chunk_updates_not_starting|exact Hlater].
    + eexists. split; [reflexivity|]. split.
      * rewrite <- app_assoc. apply Forall_app. split; [apply chunk_updates_not_starting|].
        apply Forall_app. split; [exact Hlater|]. repeat constructor; discriminate.
      * change [error_update o' e; fallback_update e]
          with ([error_update o' e] ++ [fallback_update e]).
        rewrite !app_assoc. apply tracks_delivered. rewrite Hsid.
        apply tracks_delivered. exact Hrun.
    + eexists. rewrite app_nil_r. split; [reflexivity|]. split; [|exact Hrun].
      apply Forall_app. split; [apply chunk_updates_not_starting|exact Hlater].
  - cbn [result state log fst snd]. rewrite Hpre. cbn [app].
    eexists. split; [reflexivity|]. split.
    + apply Forall_app. split; [apply chunk_updates_not_starting|].
      repeat constructor; discriminate.
    + change [error_update o1 e; fallback_update e]
        with ([error_update o1 e] ++ [fallback_update e]).
      rewrite app_assoc. apply tracks_delivered. apply tracks_delivered. exact Hloop.
  - cbn [result state log fst snd]. rewrite Hpre, app_nil_r.
    eexists. split; [reflexivity|].
    split; [apply chunk_updates_not_starting|exact Hloop].
Qed.

(** X21.  The first update of a run, the announcement of step 1, is
    published inside [POST], before the session id is returned.  When
    the session id is not registered yet, as for an id that has just
    been made, that update reaches no stream: whatever clients connect
    during the run, no stream receives it. *)
Theorem X21_first_update_reaches_nobody (body : JsonBody) (w : World) :
  accepted body w = true ->
  progressStreams w !! sessionId_of (node w) = None ->
  head (published (log (POST (Some body) w))) = Some starting_update
  /\ forall ref s,
       streams (state (POST (Some body) w)) !! ref = Some s ->
       exists seg, queue s = base w ref ++ seg /\ starting_update ∉ seg.
Proof.
  intros Hacc Hreg.
  destruct (POST_after_starting body w Hacc Hreg) as (tail & Hpub & Hne & [_ Htr]).
  split; [rewrite Hpub; reflexivity|].
  intros ref s Hs. destruct (Htr ref s Hs) as (a & seg & b & HP & Hq & _ & _).
  exists seg. split; [exact Hq|]. intros Hin.
  rewrite Forall_forall in Hne. apply (Hne starting_update); [|reflexivity].
  rewrite HP. apply elem_of_app. right. apply elem_of_app. left. exact Hin.
Qed.

Lemma X21_first_update_reaches_nobody_witness :
  accepted (sample_body "amazon") failing_world = true
  /\ progressStreams failing_world !! sessionId_of (node failing_world) = None
  /\ head (published (log (POST (Some (sample_body "amazon")) failing_world)))
     = Some starting_update.
Proof.
  assert (Ha : accepted (sample_body "amazon") failing_world = true)
    by (vm_compute; reflexivity).
  split; [exact Ha|]. split; [reflexivity|].
  exact (proj1 (X21_first_update_reaches_nobody _ _ Ha eq_refl)).
Defined.

(** ** The file system *)

Lemma mkdirs_orchestrator (sid : string) (l : list Action) :
  mkdirs (ActNewOrchestrator sid :: l) = mkdirs l.
Proof. reflexivity. Qed.

(** X22.  [POST] calls [mkdirSync] at most once: on the resolved output
    folder, with [recursive: true], and exactly when the request passes
    the three checks on the body and the folder is absent.  The promise
    it leaves running, the workflow, never calls it.  The folders that
    were there are still there afterwards. *)
Theorem X22_POST_creates_only_the_output_folder (body : JsonBody) (w : World) :
  mkdirs (log (POST (Some body) w))
  = (if fieldsMissing body || emailMalformed body || siteUnrecognized body then []
     else if bool_decide (resolvedFolder body w ∈ dirs w) then []
     else [(resolvedFolder body w, true)])
  /\ (forall sid params w', mkdirs (log (background sid params w')) = [])
  /\ dirs w ⊆ dirs (state (POST (Some body) w)).
Proof.
  assert (Hbg : forall sid params w', mkdirs (log (background sid params w')) = []).
  { intros sid params w'. apply of_workflow_mkdirs, background_of_workflow. }
  assert (Hrefl : dirs w ⊆ dirs w) by reflexivity.
  split; [|split; [exact Hbg|]]; rewrite POST_eq.
  - destruct (fieldsMissing body); [reflexivity|].
    destruct (emailMalformed body); [reflexivity|].
    destruct (siteUnrecognized body); [reflexivity|]. cbn [orb].
    unfold folderFailure, folder_log.
    destruct (bool_decide (resolvedFolder body w ∈ dirs w)).
    + cbv zeta. cbn [log app]. rewrite mkdirs_orchestrator. apply Hbg.
    + destruct (mkdir_error (node w) (resolvedFolder body w) true); [reflexivity|].
      cbv zeta. cbn [log]. rewrite mkdirs_app, mkdirs_orchestrator, Hbg. reflexivity.
  - destruct (fieldsMissing body); [exact Hrefl|].
    destruct (emailMalformed body); [exact Hrefl|].
    destruct (siteUnrecognized body); [exact Hrefl|].
    destruct (folderFailure body w); [exact Hrefl|]. cbv zeta. cbn [state].
    destruct (background_outside (sessionId_of (node w)) (request_of body w)
                (folder_world body w)) as [_ Hd].
    rewrite Hd. unfold folder_world. destruct (bool_decide _); [exact Hrefl|].
    apply union_subseteq_r.
Qed.

(** ** What every stream receives *)

(** X23.  During an accepted request every stream receives, after what
    it held before (or after the connection message, for a stream made
    during the run), a run of consecutive updates of the request, in the
    order they were published: none is skipped inside the run or
    repeated.  Only [running] updates can have been missed before the
    first one received, and a stream that is still open and registered
    for the session when [POST] is over has received everything up to
    the last update published. *)
Theorem X23_streams_receive_consecutive_updates (body : JsonBody) (w : World)
    (ref : nat) (s : Stream) :
  accepted body w = true ->
  streams (state (POST (Some body) w)) !! ref = Some s ->
  exists missed received lost,
    published (log (POST (Some body) w)) = missed ++ received ++ lost
    /\ queue s = base w ref ++ received
    /\ all_running missed
    /\ (progressStreams (state (POST (Some body) w)) !! sessionId_of (node w) = Some ref ->
        closed s = false -> lost = []).
Proof.
  intros Hacc Hs. destruct (tracks_POST body w Hacc) as [_ Htr].
  destruct (Htr ref s Hs) as (a & seg & b & HP & Hq & Ha & Hb).
  exists a, seg, b. auto.
Qed.

Lemma X23_streams_receive_consecutive_updates_witness :
  exists s,
    accepted (sample_body "amazon") failing_world = true
    /\ streams (state (POST (Some (sample_body "amazon")) failing_world)) !! 0%nat = Some s
    /\ exists missed received lost,
         published (log (POST (Some (sample_body "amazon")) failing_world))
         = missed ++ received ++ lost
         /\ queue s = base failing_world 0 ++ received
         /\ all_running missed
         /\ (progressStreams (state (POST (Some (sample_body "amazon")) failing_world))
             !! sessionId_of (node failing_world) = Some 0%nat ->
             closed s = false -> lost = []).
Proof.
  assert (Ha : accepted (sample_body "amazon") failing_world = true)
    by (vm_compute; reflexivity).
  eexists. split; [exact Ha|]. split; [vm_compute; reflexivity|].
  refine (X23_streams_receive_consecutive_updates _ _ 0%nat _ Ha _). reflexivity.
Defined.
